(** * CalendarICS.cpp: the ICS-over-HTTPS calendar provider

    A shallow embedding of [src/code/CalendarICS.cpp] (with the structs of
    [src/Calendar.h]) and the properties of its line reader, field parser,
    day-overlap filter, output mapper and fetch strategy.

    Conventions of the embedding:
    - an Arduino [String] is a [list ascii]; a C string is the prefix of a
      character buffer up to its first NUL;
    - [time_t], [int] and [long] values are integers in [Z]; signed overflow
      is undefined in C++ and is outside the model;
    - the libc calendar functions [timegm] and [gmtime_r] are given their
      POSIX meaning on the proleptic Gregorian calendar; [mktime] and
      [localtime_r] depend on the time zone of the device and are
      parameters;
    - the HTTP transport is a table of responses, and the requests that are
      issued are recorded in a log. *)

From Stdlib Require Import ZArith List Ascii String Lia Bool.
From Stdlib Require Import Numbers.DecimalString.
From stdpp Require Import base list strings.

Open Scope Z_scope.

Abbreviation Str := (list ascii).
Coercion list_ascii_of_string : string >-> list.

(** ** The Arduino [String] operations the provider calls (WString) *)

Module WString.

Definition code (c : ascii) : Z := Z.of_nat (nat_of_ascii c).

(** [isspace] in the C locale: space, \t, \n, \v, \f, \r. *)
Definition isspace (c : ascii) : bool :=
  (code c =? 32) || ((9 <=? code c) && (code c <=? 13)).

(** [c >= '0' && c <= '9'] *)
Definition isdigit (c : ascii) : bool :=
  (48 <=? code c) && (code c <=? 57).

Definition len (s : Str) : Z := Z.of_nat (length s).

Definition equals (a b : Str) : bool := bool_decide (a = b).

(** [s.startsWith(p)] *)
Fixpoint startsWith (s p : Str) {struct p} : bool :=
  match p, s with
  | [], _ => true
  | _ :: _, [] => false
  | x :: p', y :: s' => Ascii.eqb x y && startsWith s' p'
  end.

(** [s.indexOf(c)]: position of the first [c], or -1. *)
Fixpoint indexOf (c : ascii) (s : Str) : Z :=
  match s with
  | [] => -1
  | x :: r =>
      if Ascii.eqb x c then 0
      else let k := indexOf c r in if k <? 0 then -1 else k + 1
  end.

(** [s.indexOf(sub)] for a string argument (strstr). *)
Fixpoint indexOfStr (sub s : Str) : Z :=
  if startsWith s sub then 0
  else match s with
       | [] => -1
       | _ :: r => let k := indexOfStr sub r in if k <? 0 then -1 else k + 1
       end.

(** [s.substring(left, right)]: characters [left, right), the bounds
    swapped when out of order and clipped to the length. *)
Definition substring (left right : nat) (s : Str) : Str :=
  let '(l, r) := if (right <? left)%nat then (right, left) else (left, right) in
  take (r - l) (drop l s).

(** [s.substring(left)] *)
Definition substringFrom (left : nat) (s : Str) : Str := drop left s.

(** [s.remove(index)]: drops everything from [index] on. *)
Definition remove (index : nat) (s : Str) : Str := take index s.

Fixpoint dropSpaces (s : Str) : Str :=
  match s with
  | c :: r => if isspace c then dropSpaces r else s
  | [] => []
  end.

(** [s.trim()] *)
Definition trim (s : Str) : Str := rev (dropSpaces (rev (dropSpaces s))).

Fixpoint digitsValue (acc : Z) (s : Str) : Z :=
  match s with
  | c :: r => if isdigit c then digitsValue (acc * 10 + (code c - 48)) r else acc
  | [] => acc
  end.

(** [s.toInt()] is [atol]: leading white space, an optional sign, then the
    longest run of digits (0 when there is none). The provider only
    converts substrings of at most four characters, far from overflow. *)
Definition toInt (s : Str) : Z :=
  match dropSpaces s with
  | "-"%char :: r => - digitsValue 0 r
  | "+"%char :: r => digitsValue 0 r
  | r => digitsValue 0 r
  end.

(** The C string held in a character buffer: its prefix up to the first
    NUL. *)
Fixpoint cstr (buf : list ascii) : Str :=
  match buf with
  | [] => []
  | c :: r => if Ascii.eqb c zero then [] else c :: cstr r
  end.

End WString.

(** ** The libc time functions (time.h, stdio.h) *)

Module TimeLib.

(** [struct tm]; the fields [tm_wday], [tm_yday] and [tm_isdst] are not
    read by any of the modelled code and are left out. *)
Record tm := mkTm {
  tm_sec : Z; tm_min : Z; tm_hour : Z;
  tm_mday : Z; tm_mon : Z; tm_year : Z }.

(** Day number since 1970-01-01 of a civil date, and back (the era-based
    algorithm on the proleptic Gregorian calendar; [m] from 1 to 12). *)
Definition days_from_civil (y m d : Z) : Z :=
  let y := if m <=? 2 then y - 1 else y in
  let era := y / 400 in
  let yoe := y mod 400 in
  let doy := (153 * (if m >? 2 then m - 3 else m + 9) + 2) / 5 + d - 1 in
  let doe := yoe * 365 + yoe / 4 - yoe / 100 + doy in
  era * 146097 + doe - 719468.

Definition civil_from_days (z : Z) : Z * Z * Z :=
  let z := z + 719468 in
  let era := z / 146097 in
  let doe := z mod 146097 in
  let yoe := (doe - doe / 1460 + doe / 36524 - doe / 146096) / 365 in
  let y := yoe + era * 400 in
  let doy := doe - (365 * yoe + yoe / 4 - yoe / 100) in
  let mp := (5 * doy + 2) / 153 in
  let d := doy - (153 * mp + 2) / 5 + 1 in
  let m := if mp <? 10 then mp + 3 else mp - 9 in
  (if m <=? 2 then y + 1 else y, m, d).

(** [timegm]: the fields read as UTC. Out-of-range fields are carried
    over, as POSIX prescribes for [mktime] and [timegm] ([tm_mon = 12] is
    January of the next year, [tm_mday = 0] the last day of the previous
    month). *)
Definition timegm (t : tm) : Z :=
  let y := tm_year t + 1900 + tm_mon t / 12 in
  let m := tm_mon t mod 12 + 1 in
  (days_from_civil y m 1 + (tm_mday t - 1)) * 86400
  + tm_hour t * 3600 + tm_min t * 60 + tm_sec t.

(** [gmtime_r] *)
Definition gmtime_r (t : Z) : tm :=
  let '(y, m, d) := civil_from_days (t / 86400) in
  let r := t mod 86400 in
  {| tm_sec := r mod 60; tm_min := (r / 60) mod 60; tm_hour := r / 3600;
     tm_mday := d; tm_mon := m - 1; tm_year := y - 1900 |}.

(** Decimal digits of an integer, as [printf("%d")] prints them. *)
Definition decimal (z : Z) : Str :=
  list_ascii_of_string (NilZero.string_of_int (Z.to_int z)).

(** [printf("%02d")]: at least two characters, padded with zeros. *)
Definition fmt_02d (z : Z) : Str :=
  let s := decimal z in
  if (length s <? 2)%nat then "0"%char :: s else s.

(** [snprintf(out, outsz, ...)] stores at most [outsz - 1] characters of
    the formatted text, then the terminator. *)
Definition snprintf (outsz : nat) (text : Str) : Str := take (outsz - 1) text.

End TimeLib.

Import WString TimeLib.

(** ** Calendar.h *)

Module Calendar.

(** [struct CalItem]: the C strings stored in [title[40]] and [time[18]]. *)
Record CalItem := mkCalItem { title : Str; time : Str }.

Definition sizeof_title : nat := 40.
Definition sizeof_time : nat := 18.

(** [struct CalendarEvent]; [end] is written [end_]. *)
Record CalendarEvent := mkCalendarEvent {
  start : Z; end_ : Z; summary : Str; location : Str; cancelled : bool }.

(** [CalendarEvent()] *)
Definition newCalendarEvent : CalendarEvent :=
  {| start := 0; end_ := 0; summary := []; location := []; cancelled := false |}.

End Calendar.

Import Calendar.

(** ** Tunables and helpers of CalendarICS.cpp *)

Definition kUiNeededItems : Z := 6.
Definition kTailBytesTry : Z := 200000.
Definition kLineBuf : nat := 1024.

(** On either side of its [#if], [timegm_compat] is [timegm] ([mktime] under
    an empty [TZ] reads the fields as UTC). *)
Definition timegm_compat (t : tm) : Z := timegm t.

Fixpoint icsUnescape (s : Str) : Str :=
  match s with
  | [] => []
  | c :: r =>
      if Ascii.eqb c "\"%char then
        match r with
        | n :: r' =>
            if Ascii.eqb n "n"%char || Ascii.eqb n "N"%char
            then " "%char :: icsUnescape r'
            else if Ascii.eqb n "\"%char || Ascii.eqb n ","%char || Ascii.eqb n ";"%char
            then n :: icsUnescape r'
            else c :: icsUnescape r
        | [] => [c]
        end
      else c :: icsUnescape r
  end.

Definition fmtHHMM_local_fromUTC (outsz : nat) (tUTC ofsSec : Z) : Str :=
  if tUTC <=? 0 then snprintf outsz "--:--"%string
  else
    let tl := tUTC + ofsSec in
    let tmL := gmtime_r tl in
    snprintf outsz (fmt_02d (tm_hour tmL) ++ ":"%char :: fmt_02d (tm_min tmL)).

Definition spansToday (startUTC endUTC refUTC ofsSec : Z) : bool :=
  let tl := refUTC + ofsSec in
  let tmL := gmtime_r tl in
  let d0 := {| tm_sec := 0; tm_min := 0; tm_hour := 0;
               tm_mday := tm_mday tmL; tm_mon := tm_mon tmL; tm_year := tm_year tmL |} in
  let d1 := {| tm_sec := 59; tm_min := 59; tm_hour := 23;
               tm_mday := tm_mday tmL; tm_mon := tm_mon tmL; tm_year := tm_year tmL |} in
  let dayStartLocalUTC := timegm_compat d0 - ofsSec in
  let dayEndLocalUTC := timegm_compat d1 - ofsSec in
  let eEnd := if endUTC >? startUTC then endUTC else startUTC in
  negb ((eEnd <? dayStartLocalUTC) || (startUTC >? dayEndLocalUTC)).

(** ** The byte stream and the line reader *)

(** The unread bytes of the response body; [available()] is non-zero while
    there are some. *)
Abbreviation Stream := (list ascii).

Definition available (s : Stream) : bool :=
  match s with [] => false | _ => true end.

(** [Stream::readBytesUntil(terminator, buffer, length)]: stores bytes until
    [length] are stored, the terminator is read (and dropped) or the stream
    ends. Returns the stored bytes and the rest of the stream. *)
Fixpoint readBytesUntil (terminator : ascii) (length : nat) (s : Stream)
  : list ascii * Stream :=
  match length with
  | O => ([], s)
  | S k =>
      match s with
      | [] => ([], [])
      | c :: r =>
          if Ascii.eqb c terminator then ([], r)
          else let '(b, r') := readBytesUntil terminator k r in (c :: b, r')
      end
  end.

(** [readPhysLine]: [None] is the [false] it returns at the end of the
    stream; otherwise the C string left in [buf] and the rest of the
    stream. A final '\r' is overwritten by the terminator. *)
Definition readPhysLine (s : Stream) (bufsz : nat) : option (Str * Stream) :=
  let '(buf, r) := readBytesUntil "010"%char (bufsz - 1) s in
  if (length buf =? 0)%nat && negb (available r) then None
  else
    let buf :=
      match last buf with
      | Some c => if Ascii.eqb c "013"%char then removelast buf else buf
      | None => buf
      end in
    Some (cstr buf, r).

Definition isCont (line : Str) : bool :=
  match line with
  | c :: _ => Ascii.eqb c " "%char || Ascii.eqb c "009"%char
  | [] => false
  end.

(** The [while] loop of [readLogicalLines], with the callback's captured
    variables threaded as [st]. Every iteration consumes at least one byte,
    so a fuel above the length of the stream is never used up; [None] is
    running out of fuel. *)
Fixpoint readLogicalLines_loop {St : Type} (fuel : nat) (s : Stream)
    (onLine : Str -> St -> St) (logical : Str) (haveLogical : bool) (st : St)
  : option St :=
  match fuel with
  | O => None
  | S fuel' =>
      match readPhysLine s kLineBuf with
      | Some (line, s') =>
          if isCont line then
            if negb haveLogical
            then readLogicalLines_loop fuel' s' onLine (List.tl line) true st
            else readLogicalLines_loop fuel' s' onLine (logical ++ List.tl line) true st
          else
            readLogicalLines_loop fuel' s' onLine line true
              (if haveLogical then onLine logical st else st)
      | None => Some (if haveLogical then onLine logical st else st)
      end
  end.

Definition readLogicalLines {St : Type} (s : Stream) (onLine : Str -> St -> St)
    (st : St) : St :=
  match readLogicalLines_loop (S (length s)) s onLine [] false st with
  | Some st' => st'
  | None => st
  end.

(** The logical lines of a stream, in the order the callback receives them. *)
Definition logicalLines (s : Stream) : list Str :=
  readLogicalLines s (fun l acc => acc ++ [l]) [].

(** ** The provider: field parser, output mapper, fetch strategy *)

(** The variables the lambda [flushLogical] captures to track the event
    being read. *)
Record ParseVars := mkParseVars {
  inEvent : bool; inAlarm : bool; cancelled : bool; cur : CalendarEvent }.

(** All the locals of [fetchAndParse] that the parse updates; [out] is the
    caller's array. *)
Record Locals := mkLocals { vars : ParseVars; filled : Z; out : list CalItem }.

(** The HTTP collaborator. A request is the URL and the optional [Range]
    header ([bytes=-n]); what an attempt meets is the code [http.GET()]
    returns (negative for a connection error), the body, and the two
    readings of the clock ([time(&now)] in [currentLocalOffsetSeconds] and
    [time(&nowUTC)]). *)
Record Request := mkRequest { req_url : Str; req_range : option Z }.

Record Attempt := mkAttempt {
  http_code : Z; body : Stream; clock_ofs : Z; clock_now : Z }.

(** The surroundings of one call of [readToday]: the Wi-Fi status, whether
    [http.begin] accepts a URL (it only inspects the URL), and what the tail
    ([true]) and the full ([false]) attempt meet. *)
Record World := mkWorld {
  wifi_connected : bool; begin_ok : Str -> bool; attempt : bool -> Attempt }.

Section Provider.

(** The device's [mktime] and [localtime_r] (they depend on its zone). *)
Variable mktime : tm -> Z.
Variable localtime_r : Z -> tm.

Definition currentLocalOffsetSeconds (now : Z) : Z :=
  let localTm := localtime_r now in
  let local_as_utc := timegm_compat localTm in
  local_as_utc - now.

(** [parseICSTime(line, out)]: the returned flag and the value of [*out]
    after the call ([old] when nothing was stored). *)
Definition parseICSTime (line : Str) (old : Z) : bool * Z :=
  let colon := indexOf ":"%char line in
  if colon <? 0 then (false, old) else
  let v := trim (substringFrom (Z.to_nat (colon + 1)) line) in
  let '(zulu, v) :=
    match last v with
    | Some c =>
        if Ascii.eqb c "Z"%char || Ascii.eqb c "z"%char
        then (true, remove (length v - 1) v) else (false, v)
    | None => (false, v)
    end in
  let tpos := indexOf "T"%char v in
  if tpos <? 0 then
    if len v <? 8 then (false, old) else
    let tmv := {| tm_year := toInt (substring 0 4 v) - 1900;
                  tm_mon := toInt (substring 4 6 v) - 1;
                  tm_mday := toInt (substring 6 8 v);
                  tm_hour := 0; tm_min := 0; tm_sec := 0 |} in
    let r := mktime tmv in
    (0 <? r, r)
  else
  if tpos <? 8 then (false, old) else
  let d := substring 0 8 v in
  let t := substringFrom (Z.to_nat (tpos + 1)) v in
  let td := List.filter isdigit t in
  let td := td ++ repeat "0"%char (6 - length td) in
  let td := if (6 <? length td)%nat then remove 6 td else td in
  let YY := toInt (substring 0 4 d) in
  let MO := toInt (substring 4 6 d) in
  let DD := toInt (substring 6 8 d) in
  let HH := toInt (substring 0 2 td) in
  let MM := toInt (substring 2 4 td) in
  let SS := toInt (substring 4 6 td) in
  if (MO <? 1) || (MO >? 12) || (DD <? 1) || (DD >? 31)
     || (HH >? 23) || (MM >? 59) || (SS >? 60) then (false, old) else
  let tmv := {| tm_year := YY - 1900; tm_mon := MO - 1; tm_mday := DD;
                tm_hour := HH; tm_min := MM; tm_sec := SS |} in
  let r := if zulu then timegm_compat tmv else mktime tmv in
  (0 <? r, r).

(** The row that [flushLogical] writes for the event [ev]: lines 258-272. *)
Definition uiItem (ofs : Z) (ev : CalendarEvent) : CalItem :=
  let hms := fmtHHMM_local_fromUTC 8 (start ev) ofs in
  let endUse := if end_ ev >? start ev then end_ ev else start ev in
  let hme := fmtHHMM_local_fromUTC 8 endUse ofs in
  let time := snprintf sizeof_time (hms ++ "-"%char :: hme) in
  let title := icsUnescape (summary ev) in
  let loc := icsUnescape (location ev) in
  let title := if 0 <? len loc then title ++ " ("%string ++ loc ++ ")"%string else title in
  let title :=
    if Z.of_nat sizeof_title <=? len title
    then substring 0 (sizeof_title - 1) title else title in
  (* strncpy(.., sizeof title), then the terminator in the last byte *)
  {| title := take (sizeof_title - 1) title; time := time |}.

Definition setStart (ev : CalendarEvent) (t : Z) : CalendarEvent :=
  mkCalendarEvent t (end_ ev) (summary ev) (location ev) (Calendar.cancelled ev).
Definition setEnd (ev : CalendarEvent) (t : Z) : CalendarEvent :=
  mkCalendarEvent (start ev) t (summary ev) (location ev) (Calendar.cancelled ev).
Definition setSummary (ev : CalendarEvent) (s : Str) : CalendarEvent :=
  mkCalendarEvent (start ev) (end_ ev) s (location ev) (Calendar.cancelled ev).
Definition setLocation (ev : CalendarEvent) (s : Str) : CalendarEvent :=
  mkCalendarEvent (start ev) (end_ ev) (summary ev) s (Calendar.cancelled ev).

(** The lambda [flushLogical] on its captured event variables, together
    with the row it stores in [out[filled]], if any. *)
Definition flushLogicalVars (nowUTC ofs : Z) (ln : Str) (p : ParseVars)
  : ParseVars * option CalItem :=
  if startsWith ln "BEGIN:VALARM"%string then
    ({| inEvent := inEvent p; inAlarm := true;
        cancelled := cancelled p; cur := cur p |}, None)
  else if startsWith ln "END:VALARM"%string then
    ({| inEvent := inEvent p; inAlarm := false;
        cancelled := cancelled p; cur := cur p |}, None)
  else if inAlarm p then (p, None)
  else if equals ln "BEGIN:VEVENT"%string then
    ({| inEvent := true; inAlarm := inAlarm p;
        cancelled := false; cur := newCalendarEvent |}, None)
  else if equals ln "END:VEVENT"%string then
    let row :=
      if inEvent p && negb (cancelled p) && (start (cur p) >? 0)
         && (0 <? len (summary (cur p)))
      then if spansToday (start (cur p)) (end_ (cur p)) nowUTC ofs
           then Some (uiItem ofs (cur p)) else None
      else None in
    ({| inEvent := false; inAlarm := inAlarm p;
        cancelled := cancelled p; cur := cur p |}, row)
  else if negb (inEvent p) then (p, None)
  else if startsWith ln "DTSTART"%string then
    ({| inEvent := inEvent p; inAlarm := inAlarm p; cancelled := cancelled p;
        cur := setStart (cur p) (snd (parseICSTime ln (start (cur p)))) |}, None)
  else if startsWith ln "DTEND"%string then
    ({| inEvent := inEvent p; inAlarm := inAlarm p; cancelled := cancelled p;
        cur := setEnd (cur p) (snd (parseICSTime ln (end_ (cur p)))) |}, None)
  else if startsWith ln "STATUS:"%string then
    if indexOfStr "CANCELLED"%string ln >=? 0
    then ({| inEvent := inEvent p; inAlarm := inAlarm p;
             cancelled := true; cur := cur p |}, None)
    else (p, None)
  else if startsWith ln "SUMMARY:"%string then
    ({| inEvent := inEvent p; inAlarm := inAlarm p; cancelled := cancelled p;
        cur := setSummary (cur p) (substringFrom 8 ln) |}, None)
  else if startsWith ln "LOCATION:"%string then
    ({| inEvent := inEvent p; inAlarm := inAlarm p; cancelled := cancelled p;
        cur := setLocation (cur p) (substringFrom 9 ln) |}, None)
  else (p, None).

(** [flushLogical(ln)]: a row, when there is one, goes to [out[filled]]
    and [filled] is incremented. *)
Definition flushLogical (nowUTC ofs : Z) (ln : Str) (st : Locals) : Locals :=
  match flushLogicalVars nowUTC ofs ln (vars st) with
  | (p, Some row) =>
      {| vars := p; filled := filled st + 1;
         out := <[Z.to_nat (filled st) := row]> (out st) |}
  | (p, None) => {| vars := p; filled := filled st; out := out st |}
  end.

(** The callback handed to [readLogicalLines]; [stopEarly] is its flag. *)
Definition onLine (maxn nowUTC ofs : Z) (l : Str) (s : Locals * bool)
  : Locals * bool :=
  let '(st, stopEarly) := s in
  if negb stopEarly then
    let st' := flushLogical nowUTC ofs l st in
    if (filled st' >=? maxn) || (filled st' >=? kUiNeededItems)
    then (st', true) else (st', stopEarly)
  else s.

Definition initialVars : ParseVars :=
  {| inEvent := false; inAlarm := false; cancelled := false;
     cur := newCalendarEvent |}.

(** The streaming parse of one response body (lines 238-298). *)
Definition parseBody (a : Attempt) (buf : list CalItem) (maxn : Z) : Locals :=
  let ofs := currentLocalOffsetSeconds (clock_ofs a) in
  let nowUTC := clock_now a in
  fst (readLogicalLines (body a) (onLine maxn nowUTC ofs)
         ({| vars := initialVars; filled := 0; out := buf |}, false)).

(** [fetchAndParse]: the returned count (or -1), the caller's array
    ([buf] is the pointer [out]) and the request log after the call. *)
Definition fetchAndParse (w : World) (url_ : Str) (buf : list CalItem)
    (maxn : Z) (useRangeTail : bool) (log : list Request)
  : Z * list CalItem * list Request :=
  let a := attempt w useRangeTail in
  if negb (begin_ok w url_) then (-1, buf, log) else
  let req := {| req_url := url_;
                req_range := if useRangeTail then Some kTailBytesTry else None |} in
  let log := log ++ [req] in
  let code := http_code a in
  if negb ((code =? 200) || (code =? 206)) then (-1, buf, log) else
  let st := parseBody a buf maxn in
  (filled st, out st, log).

(** [readToday(out, maxn)]; a null [out] is [None]. *)
Definition readToday (w : World) (url_ : Str) (out : option (list CalItem))
    (maxn : Z) (log : list Request)
  : Z * option (list CalItem) * list Request :=
  match out with
  | None => (0, None, log)
  | Some buf =>
      if (maxn <=? 0) || negb (wifi_connected w) || (len url_ =? 0)
      then (0, out, log) else
      let '(filled, buf, log) := fetchAndParse w url_ buf maxn true log in
      if filled >=? 0 then
        if filled >? 0 then (filled, Some buf, log) else
        let '(filled, buf, log) := fetchAndParse w url_ buf maxn false log in
        (if filled <? 0 then 0 else filled, Some buf, log)
      else (0, Some buf, log)
  end.

End Provider.

(** ** Specification-level notions the properties are stated against *)

(** The UTC instants of local 00:00:00 and local 23:59:59 of the local day
    of [nowUTC], for a zone [ofs] seconds ahead of UTC: the local wall clock
    reads [nowUTC + ofs], its day starts at the last multiple of 86400. *)
Definition localDayStartUTC (nowUTC ofs : Z) : Z :=
  86400 * ((nowUTC + ofs) / 86400) - ofs.

Definition localDayEndUTC (nowUTC ofs : Z) : Z :=
  localDayStartUTC nowUTC ofs + (23 * 3600 + 59 * 60 + 59).

(** Midnight (UTC) of the day of [nowUTC] at offset 0. *)
Definition todayUTC (nowUTC : Z) : Z := 86400 * (nowUTC / 86400).

(** The physical lines of a byte stream, in the words of the specification:
    the stream is cut after every '\n', and what follows the last '\n', if
    anything, is a line too. *)
Fixpoint physLinesSpec (s : list ascii) : list (list ascii) :=
  match s with
  | [] => []
  | c :: r =>
      if Ascii.eqb c "010"%char then [] :: physLinesSpec r
      else match physLinesSpec r with
           | [] => [[c]]
           | l :: ls => (c :: l) :: ls
           end
  end.

(** An optional final '\r' is stripped. *)
Definition stripCRSpec (l : list ascii) : Str :=
  match last l with
  | Some c => if Ascii.eqb c "013"%char then removelast l else l
  | None => l
  end.

(** Folding, read from the end of the document: for the lines [ls],
    [unfoldSpec ls] is the text that the continuation lines at the head of
    [ls] add to the logical line before them, and the logical lines that
    start in [ls]. *)
Fixpoint unfoldSpec (ls : list Str) : Str * list Str :=
  match ls with
  | [] => ([], [])
  | l :: r =>
      let '(k, rest) := unfoldSpec r in
      if isCont l then (List.tl l ++ k, rest) else ([], (l ++ k) :: rest)
  end.

(** The logical lines of a list of physical lines; continuation lines that
    have no line before them form a logical line of their own. *)
Definition logicalLinesSpec (ls : list Str) : list Str :=
  let '(k, rest) := unfoldSpec ls in
  match ls with
  | l :: _ => if isCont l then k :: rest else rest
  | [] => rest
  end.

(** The logical lines that come after a pending logical line [logical]
    (if [haveLogical]) from the physical lines [ls]. *)
Definition pendingLinesSpec (logical : Str) (haveLogical : bool) (ls : list Str)
  : list Str :=
  let '(k, rest) := unfoldSpec ls in
  if haveLogical then (logical ++ k) :: rest
  else match ls with
       | l :: _ => if isCont l then k :: rest else rest
       | [] => rest
       end.

(** The reader takes "nothing read and nothing left" for the end of the
    stream, so an empty physical line that ends the stream is not seen. *)
Fixpoint dropFinalBlank (ls : list (list ascii)) : list (list ascii) :=
  match ls with
  | [] => []
  | l :: r =>
      match r with
      | [] => match l with [] => [] | _ => [l] end
      | _ => l :: dropFinalBlank r
      end
  end.

(** The lines of a small document, each ended by CR LF. *)
Definition crlf : Str := ["013"%char; "010"%char].

Fixpoint document (ls : list string) : Stream :=
  match ls with
  | [] => []
  | l :: r => list_ascii_of_string l ++ crlf ++ document r
  end.

(** A physical line the reader takes in one piece and in full: it fits the
    line buffer with its terminator and holds no NUL byte. *)
Definition plainLine (l : list ascii) : Prop :=
  (length l < kLineBuf - 1)%nat /\ zero ∉ l.

(** The fixed time format: two decimal digits for a number below 100, and
    "HH:MM-HH:MM" with hours up to 23 and minutes up to 59. *)
Definition digitChar (d : Z) : ascii := ascii_of_nat (Z.to_nat (48 + d)).

Definition twoDigits (n : Z) : Str := [digitChar (n / 10); digitChar (n mod 10)].

Definition hhmm (h m : Z) : Str := twoDigits h ++ ":"%char :: twoDigits m.

Definition isTimeRange (t : Str) : Prop :=
  exists h1 m1 h2 m2,
    0 <= h1 <= 23 /\ 0 <= m1 <= 59 /\ 0 <= h2 <= 23 /\ 0 <= m2 <= 59
    /\ t = hhmm h1 m1 ++ "-"%char :: hhmm h2 m2.

(** The title of the row of an event, in the words of the specification: the
    unescaped SUMMARY, then the unescaped LOCATION in parentheses when there
    is one, cut to 39 characters. *)
Definition titleSpec (ev : CalendarEvent) : Str :=
  take 39 (icsUnescape (summary ev)
           ++ match location ev with
              | [] => []
              | _ => " ("%string ++ icsUnescape (location ev) ++ ")"%string
              end).

(** The rows of the qualifying events of a document, in the order in which
    their END:VEVENT lines are read, with no bound on their number: the
    lines go through the field parser, and every row it produces is kept. *)
Fixpoint qualifyingRows (mktime : tm -> Z) (nowUTC ofs : Z) (p : ParseVars)
    (lines : list Str) : list CalItem :=
  match lines with
  | [] => []
  | ln :: r =>
      match flushLogicalVars mktime nowUTC ofs ln p with
      | (p', Some row) => row :: qualifyingRows mktime nowUTC ofs p' r
      | (p', None) => qualifyingRows mktime nowUTC ofs p' r
      end
  end.

(** The two requests of the fetch strategy, and a successful status. *)
Definition tailRequest (url : Str) : Request :=
  {| req_url := url; req_range := Some kTailBytesTry |}.

Definition fullRequest (url : Str) : Request :=
  {| req_url := url; req_range := None |}.

Definition statusOk (code : Z) : bool := (code =? 200) || (code =? 206).

(** The stages of [parseICSTime], named: the trimmed text after the first
    colon; the test for a final [Z]; the six time digits; the range check;
    the [struct tm] built from the eight date and six time characters. *)
Definition icsValue (line : Str) : Str :=
  trim (substringFrom (Z.to_nat (indexOf ":"%char line + 1)) line).

Definition stripZulu (v : Str) : bool * Str :=
  match last v with
  | Some c =>
      if Ascii.eqb c "Z"%char || Ascii.eqb c "z"%char
      then (true, remove (length v - 1) v) else (false, v)
  | None => (false, v)
  end.

Definition timeDigits (t : Str) : Str :=
  let td := List.filter isdigit t in
  let td := td ++ repeat "0"%char (6 - length td) in
  if (6 <? length td)%nat then remove 6 td else td.

Definition fieldsInRange (MO DD HH MM SS : Z) : bool :=
  negb ((MO <? 1) || (MO >? 12) || (DD <? 1) || (DD >? 31)
        || (HH >? 23) || (MM >? 59) || (SS >? 60)).

Definition stampTm (d td : Str) : tm :=
  {| tm_year := toInt (substring 0 4 d) - 1900;
     tm_mon := toInt (substring 4 6 d) - 1;
     tm_mday := toInt (substring 6 8 d);
     tm_hour := toInt (substring 0 2 td);
     tm_min := toInt (substring 2 4 td);
     tm_sec := toInt (substring 4 6 td) |}.

(** A stamp in the UTC or the naive local form: eight digits for the date
    and six for the time around the 'T'. *)
Definition isStamp (d t : Str) : Prop :=
  length d = 8%nat /\ length t = 6%nat
  /\ Forall (fun c => isdigit c = true) d /\ Forall (fun c => isdigit c = true) t.

(** The decimal value of a digit. *)
Definition digitValue (c : ascii) : Z := code c - 48.

(** Sample surroundings for the worked examples: a device two hours ahead
    of UTC whose [mktime] and [localtime_r] use that fixed offset, and the
    instant 2024-06-10 10:00:00 UTC. *)
Definition mktimePlus2 (t : tm) : Z := timegm t - 7200.
Definition localtimePlus2 (t : Z) : tm := gmtime_r (t + 7200).
Definition sampleNow : Z := 1718013600.

(** The event variables after the lines of a VEVENT with a start at 14:30
    UTC, a summary and a location, and no DTEND. *)
Definition sampleVars : ParseVars :=
  fold_left (fun p l => fst (flushLogicalVars mktimePlus2 sampleNow 7200 l p))
    [list_ascii_of_string "BEGIN:VEVENT";
     list_ascii_of_string "DTSTART:20240610T143000Z";
     list_ascii_of_string "SUMMARY:Review\, part 2";
     list_ascii_of_string "LOCATION:Room 1"]
    initialVars.

Definition blankItem : CalItem := {| title := []; time := [] |}.

(** Sample documents and transports. [oneEvent] holds one event of the
    sample day; [noEventToday] one of another year; [fiveEvents] five events
    of the sample day, not in the order of their start times; [answer] is
    an attempt that meets the given status and body at the sample instant. *)
Definition sampleUrl : Str := list_ascii_of_string "https://example.org/basic.ics".

Definition oneEvent : Stream :=
  document ["BEGIN:VCALENDAR"; "BEGIN:VEVENT"; "DTSTART:20240610T143000Z";
            "SUMMARY:Review\, part 2"; "LOCATION:Room 1"; "END:VEVENT";
            "END:VCALENDAR"]%string.

Definition noEventToday : Stream :=
  document ["BEGIN:VEVENT"; "DTSTART:20230101T090000Z"; "DTEND:20230101T100000Z";
            "SUMMARY:Past"; "END:VEVENT"]%string.

Definition fiveEvents : Stream :=
  document ["BEGIN:VEVENT"; "DTSTART:20240610T150000Z"; "SUMMARY:E1"; "END:VEVENT";
            "BEGIN:VEVENT"; "DTSTART:20240610T090000Z"; "SUMMARY:E2"; "END:VEVENT";
            "BEGIN:VEVENT"; "DTSTART:20240610T120000Z"; "SUMMARY:E3"; "END:VEVENT";
            "BEGIN:VEVENT"; "DTSTART:20240610T080000Z"; "SUMMARY:E4"; "END:VEVENT";
            "BEGIN:VEVENT"; "DTSTART:20240610T100000Z"; "SUMMARY:E5"; "END:VEVENT"
           ]%string.

Definition answer (code : Z) (body : Stream) : Attempt :=
  {| http_code := code; body := body; clock_ofs := sampleNow; clock_now := sampleNow |}.

(** The tail holds nothing for today, the full document does. *)
Definition worldTailEmpty : World :=
  {| wifi_connected := true; begin_ok := fun _ => true;
     attempt := fun tail => if tail then answer 206 noEventToday
                            else answer 200 oneEvent |}.

(** The tail request is refused with 404; the full document would have an
    event of today. *)
Definition worldTail404 : World :=
  {| wifi_connected := true; begin_ok := fun _ => true;
     attempt := fun tail => if tail then answer 404 [] else answer 200 oneEvent |}.

(** An all-day event dated month 13, and an event whose UTC stamp has month
    13 followed by a well-formed event. *)
Definition alldayMonth13 : Stream :=
  document ["BEGIN:VEVENT"; "DTSTART;VALUE=DATE:20231301"; "SUMMARY:New year";
            "END:VEVENT"]%string.

Definition stampMonth13 : Stream :=
  document ["BEGIN:VEVENT"; "DTSTART:20231301T999999Z"; "SUMMARY:Broken";
            "END:VEVENT";
            "BEGIN:VEVENT"; "DTSTART:20240101T090000Z"; "SUMMARY:Fine";
            "END:VEVENT"]%string.

(** 2024-01-01 10:00:00 UTC. *)
Definition newYearNow : Z := 1704103200.

(** ** The rest of CalendarICS.cpp *)

(** [tm_yday] as [gmtime_r] fills it (not a field of the record above): the
    days since January 1 of the year of [t]. *)
Definition gmtime_r_yday (t : Z) : Z :=
  let days := t / 86400 in
  let '(y, _, _) := civil_from_days days in
  days - days_from_civil y 1 1.

(** The lambda [dayKey] of [isSameLocalDay]. *)
Definition dayKey (t ofsSec : Z) : Z :=
  let tl := t + ofsSec in
  tm_year (gmtime_r tl) * 1000 + gmtime_r_yday tl.

Definition isSameLocalDay (aUTC bUTC ofsSec : Z) : bool :=
  dayKey aUTC ofsSec =? dayKey bUTC ofsSec.

(** The provider object: its two members, the factory (the constructor
    leaves [url_] empty), [begin] and [setUrl], whose argument is a C string
    or the null pointer ([None]), and [readToday] as a method. *)
Record IcsCalendarProvider := mkProvider { url_ : Str; insecureTLS_ : bool }.

Definition makeIcsCalendarProvider (insecureTLS : bool) : IcsCalendarProvider :=
  {| url_ := []; insecureTLS_ := insecureTLS |}.

Definition begin (this : IcsCalendarProvider) : bool := true.

Definition setUrl (this : IcsCalendarProvider) (url : option (list ascii))
  : IcsCalendarProvider :=
  {| url_ := match url with Some u => cstr u | None => [] end;
     insecureTLS_ := insecureTLS_ this |}.

Definition providerReadToday (mktime : tm -> Z) (localtime_r : Z -> tm)
    (this : IcsCalendarProvider) (w : World) (out : option (list CalItem))
    (maxn : Z) (log : list Request) : Z * option (list CalItem) * list Request :=
  readToday mktime localtime_r w (url_ this) out maxn log.

(** ** AppConfig.h and DateTimeFormatter.h *)

Inductive DateLocale := EN | DE.

(** [gConfig] is a global that the formatters read when they are called;
    here it is an argument of their methods. *)
Record AppConfig := mkAppConfig { dateLocale : DateLocale; use24h : bool }.

Definition defaultAppConfig : AppConfig := {| dateLocale := DE; use24h := true |}.

(** [struct tm] with the two further fields that the formatters and the
    clock read. *)
Record tm_clock := mkTmClock { tm_fields : tm; tm_wday : Z; tm_yday : Z }.

(** [printf("%04d")]: zeros after the sign up to four characters, and
    [printf("%2d")]: blanks before the number up to two. *)
Definition fmt_04d (z : Z) : Str :=
  if z <? 0
  then "-"%char :: repeat "0"%char (3 - length (decimal (- z))) ++ decimal (- z)
  else repeat "0"%char (4 - length (decimal z)) ++ decimal z.

Definition fmt_2d (z : Z) : Str :=
  repeat " "%char (2 - length (decimal z)) ++ decimal z.

(** [a[i]] for an array of constants: a read outside it is undefined. *)
Definition array_at {A : Type} (a : list A) (i : Z) : option A :=
  if i <? 0 then None else a !! Z.to_nat i.

(** The interface and its two implementations; [formatDate] has no result
    where it reads outside one of its tables. *)
Record IDateTimeFormatter := mkFormatter {
  formatDate : AppConfig -> nat -> tm_clock -> option Str;
  formatTime : AppConfig -> nat -> tm_clock -> Str }.

Definition WD_German : list Str :=
  map list_ascii_of_string
    ["Sonntag"; "Montag"; "Dienstag"; "Mittwoch"; "Donnerstag"; "Freitag";
     "Samstag"]%string.

Definition WD_English : list Str :=
  map list_ascii_of_string ["Sun"; "Mon"; "Tue"; "Wed"; "Thu"; "Fri"; "Sat"]%string.

Definition MO_English : list Str :=
  map list_ascii_of_string
    ["Jan"; "Feb"; "Mar"; "Apr"; "May"; "Jun"; "Jul"; "Aug"; "Sep"; "Oct"; "Nov";
     "Dec"]%string.

Definition GermanDateTimeFormatter : IDateTimeFormatter :=
  {| formatDate := fun _ n lt =>
       match array_at WD_German (tm_wday lt) with
       | Some wd =>
           Some (snprintf n
                   (wd ++ list_ascii_of_string ", "
                       ++ fmt_02d (tm_mday (tm_fields lt)) ++ "."%char
                       :: fmt_02d (tm_mon (tm_fields lt) + 1) ++ "."%char
                       :: fmt_04d (tm_year (tm_fields lt) + 1900)))
       | None => None
       end;
     formatTime := fun _ n lt =>
       snprintf n (fmt_02d (tm_hour (tm_fields lt)) ++ ":"%char
                   :: fmt_02d (tm_min (tm_fields lt))) |}.

Definition EnglishDateTimeFormatter : IDateTimeFormatter :=
  {| formatDate := fun _ n lt =>
       match array_at WD_English (tm_wday lt),
             array_at MO_English (tm_mon (tm_fields lt)) with
       | Some wd, Some mo =>
           Some (snprintf n
                   (wd ++ list_ascii_of_string ", "
                       ++ fmt_02d (tm_mday (tm_fields lt)) ++ " "%char
                       :: mo ++ " "%char
                       :: fmt_04d (tm_year (tm_fields lt) + 1900)))
       | _, _ => None
       end;
     formatTime := fun gConfig n lt =>
       if use24h gConfig then
         snprintf n (fmt_02d (tm_hour (tm_fields lt)) ++ ":"%char
                     :: fmt_02d (tm_min (tm_fields lt)))
       else
         let h := Z.rem (tm_hour (tm_fields lt)) 12 in
         let h := if h =? 0 then 12 else h in
         snprintf n (fmt_2d h ++ ":"%char :: fmt_02d (tm_min (tm_fields lt))) |}.

Definition makeFormatterStatic (gConfig : AppConfig) : IDateTimeFormatter :=
  match dateLocale gConfig with
  | DE => GermanDateTimeFormatter
  | EN => EnglishDateTimeFormatter
  end.

(** A broken-down time as [localtime_r] gives it, with a year of four
    digits; the text of a time on the 12-hour dial; which dial a
    configuration selects. *)
Definition validTm (lt : tm_clock) : Prop :=
  0 <= tm_wday lt <= 6
  /\ 0 <= tm_mon (tm_fields lt) <= 11
  /\ 1 <= tm_mday (tm_fields lt) <= 31
  /\ 0 <= tm_year (tm_fields lt) + 1900 <= 9999
  /\ 0 <= tm_hour (tm_fields lt) <= 23
  /\ 0 <= tm_min (tm_fields lt) <= 59.

Definition time12 (h m : Z) : Str :=
  let h12 := (h + 11) mod 12 + 1 in
  (if h12 <? 10 then [" "%char; digitChar h12] else twoDigits h12)
  ++ ":"%char :: twoDigits m.

Definition shows24h (gConfig : AppConfig) : bool :=
  match dateLocale gConfig with DE => true | EN => use24h gConfig end.

Definition timeText (gConfig : AppConfig) (h m : Z) : Str :=
  if shows24h gConfig then hhmm h m else time12 h m.

(** Monday 10 June 2024, 12:30 and 00:30. *)
Definition sampleNoon : tm_clock := mkTmClock (mkTm 0 30 12 10 5 124) 1 161.
Definition sampleMidnight : tm_clock := mkTmClock (mkTm 0 30 0 10 5 124) 1 161.

(** ** Clock.cpp *)

Module ClockWidget.

(** The calls into the display library, in the order in which they are
    made; the frame buffer argument is always [FBPart] and is left out. *)
Inductive sFONT := Font16 | Font20.

Inductive Color := WHITE | BLACK.

Inductive Paint :=
| Paint_SelectImage
| Paint_NewImage (width height rotate : Z) (color : Color)
| Paint_Clear (color : Color)
| Paint_DrawString_EN (x y : Z) (s : Str) (font : sFONT) (fg bg : Color)
| EPD_7IN5_V2_Display_Part (xstart ystart xend yend : Z).

Definition drawMonospaceString (x y : Z) (s : list ascii) (font : sFONT)
    (cellW : Z) : list Paint :=
  imap (fun i c => Paint_DrawString_EN (x + Z.of_nat i * cellW) y [c] font
                     WHITE BLACK)
    (cstr s).

Record EpdClockWidget := mkWidget {
  _x : Z; _y : Z; _w : Z; _h : Z; _fmt : IDateTimeFormatter;
  _lastMinute : Z; _lastYday : Z }.

(** The surroundings of the widget: how many times the time has been read,
    and the calls made to the display. *)
Record Device := mkDevice { reads : nat; screen : list Paint }.

Section Widget.

(** The height of [Font16], the configuration, and what the [k]-th reading
    of the clock ([time] followed by [localtime_r]) gives. *)
Variable Font16_Height : Z.
Variable gConfig : AppConfig.
Variable now : nat -> tm_clock.

Definition updateNow (force : bool) (this : EpdClockWidget) (d : Device)
  : option (EpdClockWidget * Device) :=
  let lt := now (reads d) in
  match formatDate (_fmt this) gConfig 40 lt with
  | None => None
  | Some dateStr =>
      let timeStr := formatTime (_fmt this) gConfig 16 lt in
      let dateY := 0 in
      let timeY := dateY + Font16_Height + 2 in
      let cellW := 14 in
      Some ({| _x := _x this; _y := _y this; _w := _w this; _h := _h this;
               _fmt := _fmt this;
               _lastMinute := tm_min (tm_fields lt); _lastYday := tm_yday lt |},
            {| reads := S (reads d);
               screen :=
                 screen d
                 ++ [Paint_SelectImage;
                     Paint_NewImage (_w this) (_h this) 0 WHITE;
                     Paint_Clear WHITE;
                     Paint_DrawString_EN 4 dateY dateStr Font16 WHITE BLACK]
                 ++ drawMonospaceString 4 timeY timeStr Font20 cellW
                 ++ [EPD_7IN5_V2_Display_Part (_x this) (_y this)
                       (_x this + _w this) (_y this + _h this)] |})
  end.

Definition begin (this : EpdClockWidget) (d : Device)
  : option (EpdClockWidget * Device) :=
  updateNow true
    {| _x := _x this; _y := _y this; _w := _w this; _h := _h this;
       _fmt := _fmt this; _lastMinute := -1; _lastYday := -1 |} d.

Definition tick (this : EpdClockWidget) (d : Device)
  : option (EpdClockWidget * Device) :=
  let lt := now (reads d) in
  let d := {| reads := S (reads d); screen := screen d |} in
  if negb (tm_min (tm_fields lt) =? _lastMinute this)
     || negb (tm_yday lt =? _lastYday this)
  then updateNow false this d
  else Some (this, d).

End Widget.

End ClockWidget.

(** * Properties *)

(** Case analysis on the condition of the first conditional of the goal. *)
Ltac case_if :=
  match goal with
  | |- context [if ?c then _ else _] => destruct c eqn:?
  end.

(** ** The calendar arithmetic of libc *)

Section CalendarFacts.

Lemma doe_bounds doe :
  0 <= doe < 146097 ->
  let yoe := (doe - doe / 1460 + doe / 36524 - doe / 146096) / 365 in
  let doy := doe - (365 * yoe + yoe / 4 - yoe / 100) in
  0 <= yoe <= 399 /\ 0 <= doy <= 365.
Proof.
  intros H yoe doy. subst yoe doy. Z.div_mod_to_equations. lia.
Qed.

Lemma month_index_bounds doy :
  0 <= doy <= 365 -> 0 <= (5 * doy + 2) / 153 <= 11.
Proof. intros H. Z.div_mod_to_equations. lia. Qed.

(** The civil date of a day number has a month from 1 to 12 and converts
    back to the same day number. *)
Lemma civil_from_days_inv z :
  forall y m d, civil_from_days z = (y, m, d) ->
    1 <= m <= 12 /\ days_from_civil y m d = z.
Proof.
  intros y m d. unfold civil_from_days.
  set (z' := z + 719468).
  set (era := z' / 146097). set (doe := z' mod 146097).
  assert (Hdoe : 0 <= doe < 146097) by (apply Z.mod_pos_bound; lia).
  assert (Hz : z' = 146097 * era + doe) by (apply Z.div_mod; lia).
  destruct (doe_bounds doe Hdoe) as [Hyoe Hdoy].
  set (yoe := (doe - doe / 1460 + doe / 36524 - doe / 146096) / 365) in *.
  set (doy := doe - (365 * yoe + yoe / 4 - yoe / 100)) in *.
  pose proof (month_index_bounds doy Hdoy) as Hmp.
  set (mp := (5 * doy + 2) / 153) in *.
  intros E. injection E as Ey Em Ed. subst d.
  assert (Hm : 1 <= m <= 12 /\ (if m >? 2 then m - 3 else m + 9) = mp
               /\ (if m <=? 2 then y - 1 else y) = yoe + era * 400).
  { subst m y. destruct (Z.ltb_spec mp 10).
    - replace (mp + 3 <=? 2) with false by (symmetry; apply Z.leb_gt; lia).
      replace (mp + 3 >? 2) with true by (symmetry; apply Z.gtb_lt; lia). lia.
    - replace (mp - 9 <=? 2) with true by (symmetry; apply Z.leb_le; lia).
      replace (mp - 9 >? 2) with false
        by (symmetry; rewrite Z.gtb_ltb; apply Z.ltb_ge; lia). lia. }
  destruct Hm as (Hm1 & Hm2 & Hm3). split; [exact Hm1|].
  unfold days_from_civil. rewrite Hm2, Hm3.
  assert (Hq : (yoe + era * 400) / 400 = era /\ (yoe + era * 400) mod 400 = yoe)
    by (Z.div_mod_to_equations; lia).
  destruct Hq as [-> ->]. subst doy. lia.
Qed.

Lemma days_from_civil_day y m d :
  days_from_civil y m 1 + (d - 1) = days_from_civil y m d.
Proof. unfold days_from_civil. lia. Qed.

(** [timegm] of the date fields of [gmtime_r t] with any time of day. *)
Lemma timegm_of_gmtime_date t h mi s :
  timegm {| tm_sec := s; tm_min := mi; tm_hour := h;
            tm_mday := tm_mday (gmtime_r t); tm_mon := tm_mon (gmtime_r t);
            tm_year := tm_year (gmtime_r t) |}
  = 86400 * (t / 86400) + h * 3600 + mi * 60 + s.
Proof.
  unfold gmtime_r.
  destruct (civil_from_days (t / 86400)) as [[y m] d] eqn:E.
  apply civil_from_days_inv in E. destruct E as [Hm E].
  unfold timegm. cbn [tm_sec tm_min tm_hour tm_mday tm_mon tm_year].
  replace ((m - 1) / 12) with 0 by (symmetry; apply Z.div_small; lia).
  replace ((m - 1) mod 12) with (m - 1) by (symmetry; apply Z.mod_small; lia).
  replace (y - 1900 + 1900 + 0) with y by lia.
  replace (m - 1 + 1) with m by lia.
  rewrite days_from_civil_day, E. lia.
Qed.

(** [timegm] undoes [gmtime_r]. *)
Lemma timegm_gmtime_r t : timegm (gmtime_r t) = t.
Proof.
  pose proof (timegm_of_gmtime_date t (tm_hour (gmtime_r t))
                (tm_min (gmtime_r t)) (tm_sec (gmtime_r t))) as H.
  destruct (gmtime_r t) as [s mi h d mo y] eqn:E. cbn in H. rewrite H.
  unfold gmtime_r in E.
  destruct (civil_from_days (t / 86400)) as [[y' m'] d'].
  injection E as <- <- <- _ _ _.
  Z.div_mod_to_equations. lia.
Qed.

Lemma gmtime_r_hour t : 0 <= tm_hour (gmtime_r t) <= 23.
Proof.
  unfold gmtime_r. destruct (civil_from_days (t / 86400)) as [[y m] d].
  cbn. Z.div_mod_to_equations. lia.
Qed.

Lemma gmtime_r_min t : 0 <= tm_min (gmtime_r t) <= 59.
Proof.
  unfold gmtime_r. destruct (civil_from_days (t / 86400)) as [[y m] d].
  cbn. Z.div_mod_to_equations. lia.
Qed.

End CalendarFacts.

(** ** Day-overlap filter *)

Section DayOverlap.

Lemma spansToday_unfold s e now ofs :
  spansToday s e now ofs
  = negb ((Z.max e s <? localDayStartUTC now ofs) || (s >? localDayEndUTC now ofs)).
Proof.
  unfold spansToday, timegm_compat.
  rewrite !timegm_of_gmtime_date.
  unfold localDayEndUTC, localDayStartUTC.
  replace (if e >? s then e else s) with (Z.max e s).
  - do 3 f_equal; lia.
  - rewrite Z.gtb_ltb. destruct (Z.ltb_spec s e); lia.
Qed.

(** C4. [spansToday] holds exactly when the later of the end and the
    start is not before the UTC instant of local 00:00:00 of the local day
    of [now] and the start is not after the UTC instant of local 23:59:59
    of that day. At offset 0: an event from 23:00 to 23:30 today overlaps,
    one from 23:00 to 23:59 yesterday does not, one from 23:30 today to
    00:30 tomorrow does. *)
Theorem spansToday_day_overlap :
  forall s e now ofs,
    (spansToday s e now ofs = true <->
     localDayStartUTC now ofs <= Z.max e s /\ s <= localDayEndUTC now ofs)
    /\ spansToday (todayUTC now + 23 * 3600)
                  (todayUTC now + 23 * 3600 + 30 * 60) now 0 = true
    /\ spansToday (todayUTC now - 86400 + 23 * 3600)
                  (todayUTC now - 86400 + 23 * 3600 + 59 * 60) now 0 = false
    /\ spansToday (todayUTC now + 23 * 3600 + 30 * 60)
                  (todayUTC now + 86400 + 30 * 60) now 0 = true.
Proof.
  intros s e now ofs. rewrite !spansToday_unfold.
  unfold localDayEndUTC, localDayStartUTC, todayUTC.
  rewrite Z.add_0_r. set (D := 86400 * (now / 86400)).
  split; [split|split; [|split]].
  - intros H. apply negb_true_iff, orb_false_iff in H. destruct H as [H1 H2].
    apply Z.ltb_ge in H1. rewrite Z.gtb_ltb in H2. apply Z.ltb_ge in H2. lia.
  - intros [H1 H2]. apply negb_true_iff, orb_false_iff. split.
    + apply Z.ltb_ge. lia.
    + rewrite Z.gtb_ltb. apply Z.ltb_ge. lia.
  - apply negb_true_iff, orb_false_iff. split.
    + apply Z.ltb_ge. lia.
    + rewrite Z.gtb_ltb. apply Z.ltb_ge. lia.
  - apply negb_false_iff, orb_true_iff. left. apply Z.ltb_lt. lia.
  - apply negb_true_iff, orb_false_iff. split.
    + apply Z.ltb_ge. lia.
    + rewrite Z.gtb_ltb. apply Z.ltb_ge. lia.
Qed.

End DayOverlap.

(** ** Escape helper *)

Section Unescape.

Lemma icsUnescape_no_backslash s :
  "\"%char ∉ s -> icsUnescape s = s.
Proof.
  induction s as [|c r IH]; intros H; [reflexivity|].
  apply not_elem_of_cons in H. destruct H as [Hc Hr].
  cbn. destruct (Ascii.eqb_spec c "\"%char) as [->|_]; [congruence|].
  f_equal. auto.
Qed.

(** C8. [icsUnescape] is one pass from left to right: a backslash followed
    by [n] or [N] gives one space; followed by a backslash, a comma or a
    semicolon it gives that second character; followed by anything else it
    is kept and the scan goes on with the next character; a backslash that
    ends the text is kept; any other character is copied. A text without
    backslashes is returned as it is, so unescaping it twice is unescaping
    it once. *)
Theorem icsUnescape_single_pass :
  (forall r, icsUnescape ("\"%char :: "n"%char :: r) = " "%char :: icsUnescape r)
  /\ (forall r, icsUnescape ("\"%char :: "N"%char :: r) = " "%char :: icsUnescape r)
  /\ (forall r, icsUnescape ("\"%char :: "\"%char :: r) = "\"%char :: icsUnescape r)
  /\ (forall r, icsUnescape ("\"%char :: ","%char :: r) = ","%char :: icsUnescape r)
  /\ (forall r, icsUnescape ("\"%char :: ";"%char :: r) = ";"%char :: icsUnescape r)
  /\ (forall c r,
        c <> "n"%char -> c <> "N"%char -> c <> "\"%char ->
        c <> ","%char -> c <> ";"%char ->
        icsUnescape ("\"%char :: c :: r) = "\"%char :: c :: icsUnescape r)
  /\ icsUnescape ["\"%char] = ["\"%char]
  /\ (forall c r, c <> "\"%char -> icsUnescape (c :: r) = c :: icsUnescape r)
  /\ (forall s, "\"%char ∉ s ->
        icsUnescape s = s /\ icsUnescape (icsUnescape s) = icsUnescape s).
Proof.
  do 5 (split; [reflexivity|]).
  split; [|split; [reflexivity|split]].
  - intros c r Hn HN Hb Hc Hs.
    assert (E : forall x, c <> x -> Ascii.eqb c x = false)
      by (intros x Hx; destruct (Ascii.eqb_spec c x); congruence).
    cbn. rewrite (E _ Hn), (E _ HN), (E _ Hb), (E _ Hc), (E _ Hs). reflexivity.
  - intros c r Hb. cbn.
    destruct (Ascii.eqb_spec c "\"%char); [congruence | reflexivity].
  - intros s Hs. rewrite !icsUnescape_no_backslash; auto.
Qed.

(** The rules at work on one text (the escapes, an unknown sequence and a
    final backslash), and the last rule applied to a text without
    backslashes. *)
Lemma icsUnescape_single_pass_example :
  icsUnescape "a\nb\Nc\\d\,e\;f\xg\"%string = "a b c\d,e;f\xg\"%string.
Proof. reflexivity. Qed.

Lemma icsUnescape_single_pass_witness :
  ("\"%char ∉ list_ascii_of_string "plain, text")
  /\ icsUnescape "plain, text"%string = "plain, text"%string
  /\ icsUnescape (icsUnescape "plain, text"%string) = icsUnescape "plain, text"%string.
Proof.
  assert (H : "\"%char ∉ list_ascii_of_string "plain, text")
    by (apply (bool_decide_unpack _); vm_compute; exact I).
  split; [exact H|].
  exact (proj2 (proj2 (proj2 (proj2 (proj2 (proj2 (proj2 (proj2
            icsUnescape_single_pass))))))) _ H).
Defined.

End Unescape.

(** ** Line reader *)

Section LineReader.

Lemma readBytesUntil_nil t n : readBytesUntil t n [] = ([], []).
Proof. destruct n; reflexivity. Qed.

Lemma readBytesUntil_length t n s buf r :
  readBytesUntil t n s = (buf, r) -> (length buf + length r <= length s)%nat.
Proof.
  revert s buf r. induction n as [|n IH]; intros s buf r E; cbn in E.
  - injection E as <- <-. cbn. lia.
  - destruct s as [|c s]; [injection E as <- <-; cbn; lia|].
    destruct (Ascii.eqb c t).
    + injection E as <- <-. cbn. lia.
    + destruct (readBytesUntil t n s) as [b r'] eqn:E'.
      injection E as <- <-. apply IH in E'. cbn. lia.
Qed.

(** A successful [readPhysLine] takes at least one byte off the stream. *)
Lemma readPhysLine_consumes s n line s' :
  readPhysLine s (S (S n)) = Some (line, s') -> (length s' < length s)%nat.
Proof.
  unfold readPhysLine. replace (S (S n) - 1)%nat with (S n) by lia.
  destruct (readBytesUntil "010" (S n) s) as [buf r] eqn:E.
  destruct ((length buf =? 0)%nat && negb (available r)) eqn:C; [discriminate|].
  intros H. injection H as _ <-.
  pose proof (readBytesUntil_length _ _ _ _ _ E) as L.
  destruct buf as [|b buf]; [|cbn in L; lia].
  cbn in C. destruct r as [|x r]; [discriminate|].
  cbn in E. destruct s as [|c s]; [discriminate|].
  destruct (Ascii.eqb c "010").
  - injection E as <-. cbn. lia.
  - destruct (readBytesUntil "010" n s); discriminate.
Qed.

(** The loop ends before its fuel does. *)
Lemma readLogicalLines_loop_terminates {St : Type} (onLine : Str -> St -> St) :
  forall fuel s logical haveLogical st,
    (length s < fuel)%nat ->
    is_Some (readLogicalLines_loop fuel s onLine logical haveLogical st).
Proof.
  induction fuel as [|fuel IH]; intros s lg hv st Hf; [lia|].
  cbn [readLogicalLines_loop].
  destruct (readPhysLine s kLineBuf) as [[line s']|] eqn:E; [|eauto].
  apply readPhysLine_consumes in E.
  destruct (isCont line); [destruct (negb hv)|]; apply IH; lia.
Qed.

(** [readLogicalLines] returns: its fuel is enough. *)
Lemma readLogicalLines_returns {St : Type} (onLine : Str -> St -> St) s st :
  readLogicalLines_loop (S (length s)) s onLine [] false st
  = Some (readLogicalLines s onLine st).
Proof.
  unfold readLogicalLines.
  destruct (readLogicalLines_loop_terminates onLine (S (length s)) s [] false st
              ltac:(lia)) as [r ->].
  reflexivity.
Qed.

(** The callback is run on the logical lines, one after the other. *)
Lemma readLogicalLines_loop_fold {St : Type} (onLine : Str -> St -> St) (st0 : St) :
  forall fuel s logical haveLogical acc,
    readLogicalLines_loop fuel s onLine logical haveLogical
      (fold_left (fun st l => onLine l st) acc st0)
    = (fun ls => fold_left (fun st l => onLine l st) ls st0)
        <$> readLogicalLines_loop fuel s (fun l acc => acc ++ [l])
              logical haveLogical acc.
Proof.
  induction fuel as [|fuel IH]; intros s lg hv acc; [reflexivity|].
  cbn [readLogicalLines_loop].
  destruct (readPhysLine s kLineBuf) as [[line s']|].
  - destruct (isCont line); [destruct (negb hv); apply IH|].
    destruct hv; [|apply IH].
    rewrite <- IH. rewrite fold_left_app. reflexivity.
  - destruct hv; cbn; [rewrite fold_left_app|]; reflexivity.
Qed.

Lemma readLogicalLines_fold {St : Type} (onLine : Str -> St -> St) s st :
  readLogicalLines s onLine st
  = fold_left (fun st l => onLine l st) (logicalLines s) st.
Proof.
  unfold logicalLines, readLogicalLines.
  pose proof (readLogicalLines_loop_fold onLine st (S (length s)) s [] false [])
    as H. cbn [fold_left] in H. rewrite H.
  destruct (readLogicalLines_loop_terminates (fun l acc => acc ++ [l])
              (S (length s)) s [] false [] ltac:(lia)) as [ls ->].
  reflexivity.
Qed.

Lemma physLinesSpec_nil s : physLinesSpec s = [] -> s = [].
Proof.
  destruct s as [|c r]; [reflexivity|]. cbn.
  destruct (Ascii.eqb c "010"); [discriminate|].
  destruct (physLinesSpec r); discriminate.
Qed.

(** On a line that fits the buffer, [readBytesUntil] returns the first
    physical line and leaves the others. *)
Lemma readBytesUntil_line n :
  forall s l ls,
    physLinesSpec s = l :: ls -> (length l < n)%nat ->
    exists s', readBytesUntil "010" n s = (l, s') /\ physLinesSpec s' = ls.
Proof.
  induction n as [|n IH]; intros s l ls E Hl; [lia|].
  destruct s as [|c r]; [discriminate|]. cbn in E |- *.
  destruct (Ascii.eqb c "010").
  - injection E as <- <-. eauto.
  - destruct (physLinesSpec r) as [|l' ls'] eqn:E'.
    + injection E as <- <-. apply physLinesSpec_nil in E'. subst r.
      rewrite readBytesUntil_nil. eauto.
    + injection E as <- <-. cbn in Hl.
      destruct (IH r l' ls' E' ltac:(lia)) as (s' & -> & Hs'). eauto.
Qed.

Lemma cstr_id l : zero ∉ l -> cstr l = l.
Proof.
  induction l as [|c l IH]; intros H; [reflexivity|].
  apply not_elem_of_cons in H. destruct H as [Hc Hl]. cbn.
  destruct (Ascii.eqb_spec c zero); [congruence|]. f_equal. auto.
Qed.

Lemma not_elem_of_removelast (x : ascii) l : x ∉ l -> x ∉ removelast l.
Proof.
  induction l as [|c l IH]; intros H; [exact H|].
  apply not_elem_of_cons in H. destruct H as [Hc Hl]. cbn.
  destruct l; [apply not_elem_of_nil|].
  apply not_elem_of_cons. split; [exact Hc|]. apply IH, Hl.
Qed.

Lemma stripCRSpec_no_NUL l : zero ∉ l -> zero ∉ stripCRSpec l.
Proof.
  intros H. unfold stripCRSpec. destruct (last l) as [c|]; [|exact H].
  destruct (Ascii.eqb c "013"); [apply not_elem_of_removelast|]; exact H.
Qed.

(** What the reader does with a stream whose first physical line is [l]. *)
Lemma readPhysLine_line s l ls :
  physLinesSpec s = l :: ls -> (length l < kLineBuf - 1)%nat -> zero ∉ l ->
  exists s', physLinesSpec s' = ls /\ (length s' < length s)%nat
    /\ readPhysLine s kLineBuf
       = match l, ls with
         | [], [] => None
         | _, _ => Some (stripCRSpec l, s')
         end.
Proof.
  intros E Hl Hz.
  destruct (readBytesUntil_line _ _ _ _ E Hl) as (s' & Hr & Hs').
  exists s'. split; [exact Hs'|].
  assert (Hlen : (length s' < length s)%nat).
  { pose proof (readBytesUntil_length _ _ _ _ _ Hr) as L.
    destruct l as [|x l]; [|cbn in L; lia].
    destruct s as [|c r]; [discriminate|]. cbn in E.
    destruct (Ascii.eqb c "010") eqn:Ec.
    - change (kLineBuf - 1)%nat with (S 1022) in Hr. cbn in Hr. rewrite Ec in Hr.
      injection Hr as <-. cbn. lia.
    - destruct (physLinesSpec r); discriminate. }
  split; [exact Hlen|].
  unfold readPhysLine. rewrite Hr.
  assert (Hc : cstr (match last l with
                     | Some c => if Ascii.eqb c "013" then removelast l else l
                     | None => l
                     end) = stripCRSpec l).
  { apply cstr_id. apply (stripCRSpec_no_NUL l Hz). }
  rewrite Hc.
  destruct l as [|x l]; [|reflexivity]. cbn.
  destruct ls as [|l2 ls].
  - apply physLinesSpec_nil in Hs'. subst s'. reflexivity.
  - destruct s' as [|c' r']; [discriminate|]. reflexivity.
Qed.

Lemma dropFinalBlank_cons l ls :
  l <> [] \/ ls <> [] ->
  dropFinalBlank (l :: ls) = l :: dropFinalBlank ls.
Proof.
  intros H. destruct ls; [|reflexivity].
  destruct l; [|reflexivity]. destruct H; congruence.
Qed.

Lemma readLogicalLines_loop_spec :
  forall fuel s logical haveLogical acc,
    (length s < fuel)%nat ->
    Forall plainLine (physLinesSpec s) ->
    readLogicalLines_loop fuel s (fun l acc => acc ++ [l]) logical haveLogical acc
    = Some (acc ++ pendingLinesSpec logical haveLogical
                     (map stripCRSpec (dropFinalBlank (physLinesSpec s)))).
Proof.
  induction fuel as [|fuel IH]; intros s lg hv acc Hf Hp; [lia|].
  cbn [readLogicalLines_loop].
  assert (Hend : Some (if hv then acc ++ [lg] else acc)
                 = Some (acc ++ pendingLinesSpec lg hv [])).
  { unfold pendingLinesSpec. cbn. destruct hv; rewrite app_nil_r; reflexivity. }
  destruct (physLinesSpec s) as [|l ls] eqn:E.
  - apply physLinesSpec_nil in E. subst s. exact Hend.
  - apply Forall_cons in Hp. destruct Hp as [[Hl Hz] Hp].
    destruct (readPhysLine_line s l ls E Hl Hz) as (s' & Es' & Hlen & ->).
    assert (Hstep : l <> [] \/ ls <> [] ->
      (if isCont (stripCRSpec l)
       then if negb hv
            then readLogicalLines_loop fuel s' (fun l acc => acc ++ [l])
                   (List.tl (stripCRSpec l)) true acc
            else readLogicalLines_loop fuel s' (fun l acc => acc ++ [l])
                   (lg ++ List.tl (stripCRSpec l)) true acc
       else readLogicalLines_loop fuel s' (fun l acc => acc ++ [l])
              (stripCRSpec l) true (if hv then acc ++ [lg] else acc))
      = Some (acc ++ pendingLinesSpec lg hv
                       (map stripCRSpec (dropFinalBlank (l :: ls))))).
    { intros Hne. rewrite (dropFinalBlank_cons l ls Hne).
      rewrite !IH by (rewrite ?Es'; first [lia | exact Hp]). rewrite Es'.
      cbn [map]. unfold pendingLinesSpec. cbn [unfoldSpec].
      destruct (unfoldSpec (map stripCRSpec (dropFinalBlank ls))) as [k rest].
      destruct (isCont (stripCRSpec l)); destruct hv; cbn;
        rewrite <- ?app_assoc, ?app_nil_r; reflexivity. }
    destruct l as [|x l]; [destruct ls as [|l2 ls]|];
      [exact Hend | apply Hstep; right; discriminate
      | apply Hstep; left; discriminate].
Qed.

(** C7, as the code has it. For every byte stream whose physical lines
    fit the line buffer (fewer than [kLineBuf - 1] bytes) and hold no NUL
    byte, the logical lines are those of the stream cut at every '\n',
    with a final '\r' stripped from each line, where every line that begins
    with a space or a tab is appended without that character to the
    logical line before it and the end of the stream flushes the pending
    logical line; an empty physical line that ends the stream is not
    reported. The empty stream has no logical line. *)
Theorem readLogicalLines_folds_plain_lines s :
  Forall plainLine (physLinesSpec s) ->
  logicalLines s
  = logicalLinesSpec (map stripCRSpec (dropFinalBlank (physLinesSpec s)))
  /\ logicalLines [] = [].
Proof.
  intros Hp. split; [|reflexivity].
  unfold logicalLines, readLogicalLines.
  rewrite (readLogicalLines_loop_spec (S (length s)) s [] false []
             ltac:(lia) Hp).
  reflexivity.
Qed.

(** A folded SUMMARY between two other lines. *)
Lemma readLogicalLines_folds_plain_lines_witness :
  Forall plainLine
    (physLinesSpec (document ["BEGIN:VEVENT"; "SUMMARY:Team"; "  meeting";
                              "END:VEVENT"]%string))
  /\ logicalLines (document ["BEGIN:VEVENT"; "SUMMARY:Team"; "  meeting";
                             "END:VEVENT"]%string)
     = [list_ascii_of_string "BEGIN:VEVENT";
        list_ascii_of_string "SUMMARY:Team meeting";
        list_ascii_of_string "END:VEVENT"].
Proof.
  assert (Hp : Forall plainLine
    (physLinesSpec (document ["BEGIN:VEVENT"; "SUMMARY:Team"; "  meeting";
                              "END:VEVENT"]%string))).
  { cbn. repeat (apply Forall_cons; split;
      [split; [cbn; unfold kLineBuf; lia
              |apply (bool_decide_unpack _); vm_compute; exact I]|]).
    apply Forall_nil. exact I. }
  split; [exact Hp|].
  rewrite (proj1 (readLogicalLines_folds_plain_lines _ Hp)). reflexivity.
Defined.

(** C7 as stated fails on a line that does not fit the buffer: 1024 bytes
    without any '\n' are one physical line, yet they are delivered as two
    logical lines, of 1023 bytes and of 1 byte. *)
Lemma readLogicalLines_splits_long_line :
  logicalLines (repeat "a"%char 1024)
  <> logicalLinesSpec
       (map stripCRSpec (dropFinalBlank (physLinesSpec (repeat "a"%char 1024))))
  /\ map length (logicalLines (repeat "a"%char 1024)) = [1023%nat; 1%nat]
  /\ "010"%char ∉ repeat "a"%char 1024.
Proof.
  split; [|split].
  - intros H. apply (f_equal length) in H. vm_compute in H. discriminate H.
  - vm_compute. reflexivity.
  - intros H. apply list_elem_of_In, repeat_spec in H. discriminate H.
Qed.

(** The two other limits of the reader: an empty physical line that ends
    the stream is taken for the end of the stream, and a physical line is
    cut at its first NUL byte. *)
Lemma readLogicalLines_final_blank :
  logicalLines ["a"%char; "010"%char; "010"%char] = [["a"%char]]
  /\ logicalLinesSpec (map stripCRSpec (physLinesSpec ["a"%char; "010"%char; "010"%char]))
     = [["a"%char]; []].
Proof. split; reflexivity. Qed.

Lemma readLogicalLines_NUL_cut :
  logicalLines ["a"%char; zero; "b"%char; "010"%char] = [["a"%char]].
Proof. reflexivity. Qed.

(** A [String] made from a C string holds no NUL: no line handed to the
    callback does. *)
Lemma cstr_no_NUL buf : zero ∉ cstr buf.
Proof.
  induction buf as [|c r IH]; cbn; [apply not_elem_of_nil|].
  destruct (Ascii.eqb_spec c zero); [apply not_elem_of_nil|].
  apply not_elem_of_cons. split; [congruence|exact IH].
Qed.

Lemma readPhysLine_no_NUL s n line s' :
  readPhysLine s n = Some (line, s') -> zero ∉ line.
Proof.
  unfold readPhysLine. destruct (readBytesUntil "010" (n - 1) s) as [buf r].
  case_if; [discriminate|]. intros [= <- _]. apply cstr_no_NUL.
Qed.

Lemma not_elem_of_tl (x : ascii) l : x ∉ l -> x ∉ List.tl l.
Proof.
  destruct l as [|c r]; [auto|]. intros H. apply not_elem_of_cons in H. apply H.
Qed.

Lemma readLogicalLines_loop_no_NUL :
  forall fuel s logical haveLogical acc ls,
    zero ∉ logical -> Forall (fun l => zero ∉ l) acc ->
    readLogicalLines_loop fuel s (fun l acc => acc ++ [l]) logical haveLogical acc
    = Some ls ->
    Forall (fun l => zero ∉ l) ls.
Proof.
  induction fuel as [|fuel IH]; intros s lg hv acc ls Hlg Hacc; [discriminate|].
  cbn [readLogicalLines_loop].
  assert (Hpush : Forall (fun l => zero ∉ l) (if hv then acc ++ [lg] else acc)).
  { destruct hv; [|exact Hacc]. apply Forall_app. split; [exact Hacc|].
    apply Forall_cons. split; [exact Hlg|apply Forall_nil; exact I]. }
  destruct (readPhysLine s kLineBuf) as [[line s']|] eqn:E.
  - apply readPhysLine_no_NUL in E.
    pose proof (not_elem_of_tl zero line E) as Etl.
    destruct (isCont line); [destruct (negb hv)|]; apply IH; auto.
    apply not_elem_of_app. auto.
  - intros [= <-]. exact Hpush.
Qed.

Lemma logicalLines_no_NUL s : Forall (fun l => zero ∉ l) (logicalLines s).
Proof.
  unfold logicalLines, readLogicalLines.
  destruct (readLogicalLines_loop (S (length s)) s _ [] false []) as [ls|] eqn:E;
    [|apply Forall_nil; exact I].
  apply (readLogicalLines_loop_no_NUL _ _ _ _ _ _ (not_elem_of_nil _)
           ltac:(apply Forall_nil; exact I) E).
Qed.

End LineReader.

(** ** Output mapper *)

Section OutputMapper.

Lemma fmt_02d_twoDigits z : 0 <= z < 100 -> fmt_02d z = twoDigits z.
Proof.
  intros H.
  assert (C : forallb (fun n => bool_decide (fmt_02d (Z.of_nat n)
                                             = twoDigits (Z.of_nat n)))
                (seq 0 100) = true) by (vm_compute; reflexivity).
  rewrite forallb_forall in C.
  assert (C' := C (Z.to_nat z) ltac:(apply in_seq; lia)).
  apply bool_decide_eq_true in C'. rewrite Z2Nat.id in C' by lia. exact C'.
Qed.

Lemma fmtHHMM_local_fromUTC_hhmm t ofs :
  0 < t ->
  fmtHHMM_local_fromUTC 8 t ofs
  = hhmm (tm_hour (gmtime_r (t + ofs))) (tm_min (gmtime_r (t + ofs))).
Proof.
  intros H. unfold fmtHHMM_local_fromUTC.
  replace (t <=? 0) with false by (symmetry; apply Z.leb_gt; lia).
  pose proof (gmtime_r_hour (t + ofs)). pose proof (gmtime_r_min (t + ofs)).
  rewrite !fmt_02d_twoDigits by lia. reflexivity.
Qed.

Lemma icsUnescape_nil_iff s : icsUnescape s = [] <-> s = [].
Proof.
  split; [|intros ->; reflexivity].
  destruct s as [|c r]; [reflexivity|]. cbn.
  destruct (Ascii.eqb c "\"%char); [|discriminate].
  destruct r as [|n r']; [discriminate|].
  destruct (Ascii.eqb n "n" || Ascii.eqb n "N"); [discriminate|].
  destruct (Ascii.eqb n "\" || Ascii.eqb n "," || Ascii.eqb n ";"); discriminate.
Qed.

(** The time column of a row is "HH:MM-HH:MM" for the start and the later
    of the end and the start, read on the local wall clock. *)
Lemma uiItem_time ofs ev :
  0 < start ev ->
  time (uiItem ofs ev)
  = hhmm (tm_hour (gmtime_r (start ev + ofs))) (tm_min (gmtime_r (start ev + ofs)))
    ++ "-"%char
    :: hhmm (tm_hour (gmtime_r (Z.max (end_ ev) (start ev) + ofs)))
            (tm_min (gmtime_r (Z.max (end_ ev) (start ev) + ofs))).
Proof.
  intros H. unfold uiItem. cbn [time].
  replace (if end_ ev >? start ev then end_ ev else start ev)
    with (Z.max (end_ ev) (start ev))
    by (rewrite Z.gtb_ltb; destruct (Z.ltb_spec (start ev) (end_ ev)); lia).
  rewrite !fmtHHMM_local_fromUTC_hhmm by lia. reflexivity.
Qed.

Lemma uiItem_title ofs ev : title (uiItem ofs ev) = titleSpec ev.
Proof.
  unfold uiItem, titleSpec. cbn [title].
  set (t := icsUnescape (summary ev)).
  assert (E : (if 0 <? len (icsUnescape (location ev))
               then t ++ list_ascii_of_string " (" ++ icsUnescape (location ev)
                      ++ list_ascii_of_string ")"
               else t)
              = t ++ match location ev with
                     | [] => []
                     | _ => list_ascii_of_string " (" ++ icsUnescape (location ev)
                            ++ list_ascii_of_string ")"
                     end).
  { destruct (location ev) as [|c r] eqn:El; [cbn; rewrite app_nil_r; reflexivity|].
    destruct (icsUnescape (c :: r)) eqn:Eu; [|reflexivity].
    apply (proj1 (icsUnescape_nil_iff _)) in Eu. discriminate Eu. }
  rewrite E. set (full := t ++ _).
  change (sizeof_title - 1)%nat with 39%nat. unfold substring. cbn [Nat.ltb Nat.leb].
  change (39 - 0)%nat with 39%nat. rewrite drop_0.
  destruct (Z.of_nat sizeof_title <=? len full); [apply take_take|reflexivity].
Qed.

End OutputMapper.

(** ** Event field parser *)

Section FieldParser.

Variable mktime : tm -> Z.
Variables nowUTC ofs : Z.

#[local] Abbreviation flushVars := (flushLogicalVars mktime nowUTC ofs).
#[local] Abbreviation flush := (flushLogical mktime nowUTC ofs).

(** A row is produced only by an [END:VEVENT] line outside an alarm, for a
    started, titled, not cancelled event of today; it is the row of the
    current event. *)
Lemma flushLogicalVars_row ln p row :
  snd (flushVars ln p) = Some row ->
  row = uiItem ofs (cur p)
  /\ equals ln "END:VEVENT"%string = true /\ inAlarm p = false
  /\ inEvent p = true /\ cancelled p = false
  /\ 0 < start (cur p) /\ 0 < len (summary (cur p))
  /\ spansToday (start (cur p)) (end_ (cur p)) nowUTC ofs = true.
Proof.
  unfold flushLogicalVars.
  repeat (case_if; cbn [snd]; try discriminate).
  intros [= <-].
  repeat match goal with
         | H : _ && _ = true |- _ => apply andb_true_iff in H; destruct H
         | H : negb _ = true |- _ => apply negb_true_iff in H
         | H : (_ >? _) = true |- _ => rewrite Z.gtb_ltb in H
         | H : (_ <? _) = true |- _ => apply Z.ltb_lt in H
         end.
  auto 10.
Qed.

(** [flushLogical] either writes nothing, or writes the row of the current
    event at [out[filled]] and counts it. *)
Lemma flushLogical_cases ln st :
  (filled (flush ln st) = filled st /\ out (flush ln st) = out st
   /\ snd (flushVars ln (vars st)) = None)
  \/ (filled (flush ln st) = filled st + 1
      /\ out (flush ln st)
         = <[Z.to_nat (filled st) := uiItem ofs (cur (vars st))]> (out st)
      /\ snd (flushVars ln (vars st)) = Some (uiItem ofs (cur (vars st)))).
Proof.
  unfold flushLogical.
  destruct (flushVars ln (vars st)) as [p [row|]] eqn:E; [right|left; auto].
  assert (Hrow : snd (flushVars ln (vars st)) = Some row) by (rewrite E; reflexivity).
  apply flushLogicalVars_row in Hrow. destruct Hrow as [-> _]. auto.
Qed.

Lemma flushLogical_vars ln st :
  vars (flush ln st) = fst (flushVars ln (vars st)).
Proof.
  unfold flushLogical. destruct (flushVars ln (vars st)) as [p [row|]]; reflexivity.
Qed.

(** While the alarm flag is set, a line changes nothing but, possibly,
    that flag. *)
Lemma flushLogical_inAlarm ln st :
  inAlarm (vars st) = true ->
  cur (vars (flush ln st)) = cur (vars st)
  /\ cancelled (vars (flush ln st)) = cancelled (vars st)
  /\ inEvent (vars (flush ln st)) = inEvent (vars st)
  /\ filled (flush ln st) = filled st /\ out (flush ln st) = out st
  /\ inAlarm (vars (flush ln st))
     = startsWith ln "BEGIN:VALARM"%string || negb (startsWith ln "END:VALARM"%string).
Proof.
  intros Ha. unfold flushLogical, flushLogicalVars. rewrite Ha.
  destruct (startsWith ln "BEGIN:VALARM"%string);
    [|destruct (startsWith ln "END:VALARM"%string)]; cbn; auto 10.
Qed.

(** C10. After a BEGIN:VALARM line, and as long as no line begins with
    END:VALARM, the lines read leave the candidate event (its start, end,
    summary, location and cancelled fields), the cancelled flag and the
    in-event flag as they were, and no row is written; the alarm flag
    stays set. In particular an END:VEVENT line read while the alarm flag
    is set changes nothing: it neither emits nor closes the event. *)
Theorem alarm_lines_leave_event (st : Locals) (begin : Str) (lines : list Str) :
  startsWith begin "BEGIN:VALARM"%string = true ->
  Forall (fun l => startsWith l "END:VALARM"%string = false) lines ->
  let st' := fold_left (fun st l => flush l st) lines (flush begin st) in
  (inAlarm (vars st') = true
   /\ cur (vars st') = cur (vars st)
   /\ cancelled (vars st') = cancelled (vars st)
   /\ inEvent (vars st') = inEvent (vars st)
   /\ filled st' = filled st /\ out st' = out st)
  /\ (forall st0, inAlarm (vars st0) = true ->
       flush "END:VEVENT"%string st0 = st0).
Proof.
  intros Hb Hl st'. split.
  - assert (H1 : inAlarm (vars (flush begin st)) = true
                 /\ cur (vars (flush begin st)) = cur (vars st)
                 /\ cancelled (vars (flush begin st)) = cancelled (vars st)
                 /\ inEvent (vars (flush begin st)) = inEvent (vars st)
                 /\ filled (flush begin st) = filled st
                 /\ out (flush begin st) = out st).
    { unfold flushLogical, flushLogicalVars. rewrite Hb. cbn. auto 10. }
    subst st'. revert H1. generalize (flush begin st) as s1.
    induction Hl as [|l lines Hnl _ IH]; intros s1 H1; [exact H1|].
    cbn [fold_left]. apply IH.
    destruct H1 as (Ha & Hc & Hx & He & Hf & Ho).
    destruct (flushLogical_inAlarm l s1 Ha) as (Hc' & Hx' & He' & Hf' & Ho' & Ha').
    rewrite Hnl, orb_true_r in Ha'.
    repeat split; congruence.
  - intros [[e a c ev] f o] Ha. cbn in Ha. subst a. reflexivity.
Qed.

(** C9. The row of an emitted event whose end is unset or not after its
    start shows the local wall-clock time of the start on both sides of
    the dash. *)
Theorem end_omitted_same_time (ln : Str) (p : ParseVars) (row : CalItem) :
  snd (flushVars ln p) = Some row ->
  end_ (cur p) <= start (cur p) ->
  time row
  = hhmm (tm_hour (gmtime_r (start (cur p) + ofs)))
         (tm_min (gmtime_r (start (cur p) + ofs)))
    ++ "-"%char
    :: hhmm (tm_hour (gmtime_r (start (cur p) + ofs)))
            (tm_min (gmtime_r (start (cur p) + ofs))).
Proof.
  intros Hrow Hend. apply flushLogicalVars_row in Hrow.
  destruct Hrow as (-> & _ & _ & _ & _ & Hs & _).
  rewrite uiItem_time by exact Hs.
  replace (Z.max (end_ (cur p)) (start (cur p))) with (start (cur p)) by lia.
  reflexivity.
Qed.

(** C6. A line either writes nothing, or writes one complete row at
    [out[filled]]: its title is the unescaped SUMMARY followed, when there
    is a LOCATION, by the unescaped LOCATION in parentheses, cut to 39
    characters (so that it fits [title[40]] with its terminator); its time
    is "HH:MM-HH:MM" in two-digit 24-hour fields; every other row of the
    array is left as it was. Over any run of lines the rows below the
    initial [filled] are never written again. *)
Theorem emitted_row_complete :
  (forall (ln : Str) (st : Locals),
      (filled (flush ln st) = filled st /\ out (flush ln st) = out st)
      \/ exists row,
          filled (flush ln st) = filled st + 1
          /\ out (flush ln st) = <[Z.to_nat (filled st) := row]> (out st)
          /\ title row = titleSpec (cur (vars st))
          /\ (length (title row) < sizeof_title)%nat
          /\ isTimeRange (time row)
          /\ (length (time row) < sizeof_time)%nat
          /\ forall i, i <> Z.to_nat (filled st) ->
                out (flush ln st) !! i = out st !! i)
  /\ (forall (lines : list Str) (st : Locals),
        0 <= filled st ->
        let st' := fold_left (fun st l => flush l st) lines st in
        filled st <= filled st'
        /\ forall i, (i < Z.to_nat (filled st))%nat -> out st' !! i = out st !! i).
Proof.
  assert (Step : forall (ln : Str) (st : Locals),
      (filled (flush ln st) = filled st /\ out (flush ln st) = out st)
      \/ exists row,
          filled (flush ln st) = filled st + 1
          /\ out (flush ln st) = <[Z.to_nat (filled st) := row]> (out st)
          /\ title row = titleSpec (cur (vars st))
          /\ (length (title row) < sizeof_title)%nat
          /\ isTimeRange (time row)
          /\ (length (time row) < sizeof_time)%nat
          /\ forall i, i <> Z.to_nat (filled st) ->
                out (flush ln st) !! i = out st !! i).
  { intros ln st.
    destruct (flushLogical_cases ln st) as [(Hf & Ho & _)|(Hf & Ho & Hrow)];
      [left; auto|right].
    apply flushLogicalVars_row in Hrow. destruct Hrow as (_ & _ & _ & _ & _ & Hs & _).
    exists (uiItem ofs (cur (vars st))).
    pose proof (uiItem_time ofs (cur (vars st)) Hs) as Ht.
    repeat split; try assumption.
    - apply uiItem_title.
    - rewrite uiItem_title. unfold titleSpec, sizeof_title.
      rewrite length_take. lia.
    - eexists _, _, _, _. repeat split; [..|exact Ht];
        first [apply gmtime_r_hour | apply gmtime_r_min].
    - rewrite Ht. unfold sizeof_time. cbn. lia.
    - intros i Hi. rewrite Ho. apply list_lookup_insert_ne. congruence. }
  split; [exact Step|].
  induction lines as [|l lines IH]; intros st Hf st'.
  - subst st'. cbn. split; [lia|reflexivity].
  - subst st'. cbn [fold_left].
    assert (Hl : filled st <= filled (flush l st)
                 /\ forall i, (i < Z.to_nat (filled st))%nat ->
                      out (flush l st) !! i = out st !! i).
    { destruct (Step l st) as [[Hf' Ho]|(row & Hf' & _ & _ & _ & _ & _ & Hi)].
      - rewrite Hf', Ho. split; [lia|reflexivity].
      - split; [lia|]. intros i Hlt. apply Hi. lia. }
    destruct Hl as [Hle Hsame].
    destruct (IH (flush l st) ltac:(lia)) as [Hle' Hsame'].
    split; [lia|]. intros i Hi. rewrite Hsame' by lia. apply Hsame, Hi.
Qed.

End FieldParser.

(** ** Output capacity *)

Section Capacity.

Variable mktime : tm -> Z.
Variables maxn nowUTC ofs : Z.

#[local] Abbreviation step :=
  (fun (s : Locals * bool) (l : Str) => onLine mktime maxn nowUTC ofs l s).
#[local] Abbreviation rowsOf := (qualifyingRows mktime nowUTC ofs).

(** Once [stopEarly] is set the callback ignores every line. *)
Lemma onLine_stopped lines st : fold_left step lines (st, true) = (st, true).
Proof. induction lines as [|l lines IH]; [reflexivity|exact IH]. Qed.

(** The parse from a state with [f] rows written and room for [c]. *)
Lemma onLine_run (c : nat) :
  Z.min maxn kUiNeededItems = Z.of_nat c ->
  forall lines st f,
    filled st = Z.of_nat f -> (f < c)%nat -> (c <= length (out st))%nat ->
    let rows := rowsOf (vars st) lines in
    exists st',
      fold_left step lines (st, false) = (st', (c <=? f + length rows)%nat)
      /\ filled st' = Z.of_nat (f + Nat.min (length rows) (c - f))
      /\ out st' = take f (out st) ++ take (c - f) rows
                   ++ drop (f + Nat.min (length rows) (c - f)) (out st).
Proof.
  intros Hc. induction lines as [|l lines IH]; intros st f Hf Hlt Hlen rows.
  - subst rows. cbn. exists st. rewrite Nat.add_0_r.
    replace (c <=? f)%nat with false by (symmetry; apply Nat.leb_gt; lia).
    rewrite take_nil. cbn. rewrite take_drop. auto.
  - subst rows. cbn [fold_left qualifyingRows]. unfold onLine at 2. cbn [negb].
    pose proof (flushLogical_vars mktime nowUTC ofs l st) as Hv.
    destruct (flushLogical_cases mktime nowUTC ofs l st)
      as [(Hf' & Ho & Hrow)|(Hf' & Ho & Hrow)];
      destruct (flushLogicalVars mktime nowUTC ofs l (vars st)) as [p' r];
      cbn in Hrow, Hv; subst r; set (st1 := flushLogical mktime nowUTC ofs l st) in *.
    + replace ((filled st1 >=? maxn) || (filled st1 >=? kUiNeededItems)) with false
        by (symmetry; rewrite !Z.geb_leb; apply orb_false_iff; split;
            apply Z.leb_gt; lia).
      destruct (IH st1 f ltac:(lia) Hlt ltac:(rewrite Ho; exact Hlen))
        as (st' & Hrun & Hfill & Hout).
      rewrite Hv in Hrun, Hfill, Hout. rewrite Ho in Hout. eauto.
    + set (row := uiItem ofs (cur (vars st))) in *.
      destruct (Nat.leb_spec c (S f)) as [Hfull|Hroom].
      * replace ((filled st1 >=? maxn) || (filled st1 >=? kUiNeededItems)) with true
          by (symmetry; rewrite !Z.geb_leb; apply orb_true_iff;
              destruct (Z.leb_spec maxn (filled st1)); [left; reflexivity|];
              right; apply Z.leb_le; lia).
        rewrite onLine_stopped. exists st1. cbn [length].
        replace (c <=? f + S (length (rowsOf p' lines)))%nat with true
          by (symmetry; apply Nat.leb_le; lia).
        replace (c - f)%nat with 1%nat by lia.
        replace (Nat.min (S (length (rowsOf p' lines))) 1) with 1%nat by lia.
        split; [reflexivity|]. split; [lia|].
        rewrite Ho, Hf, Nat2Z.id. cbn [take].
        replace (f + 1)%nat with (S f) by lia.
        rewrite take_0. apply insert_take_drop. lia.
      * replace ((filled st1 >=? maxn) || (filled st1 >=? kUiNeededItems)) with false
          by (symmetry; rewrite !Z.geb_leb; apply orb_false_iff; split;
              apply Z.leb_gt; lia).
        destruct (IH st1 (S f) ltac:(lia) ltac:(lia)
                    ltac:(rewrite Ho, length_insert; exact Hlen))
          as (st' & Hrun & Hfill & Hout).
        rewrite Hv in Hrun, Hfill, Hout. exists st'. cbn [length].
        replace (f + S (length (rowsOf p' lines)))%nat
          with (S f + length (rowsOf p' lines))%nat by lia.
        split; [exact Hrun|]. split; [rewrite Hfill; f_equal; lia|].
        rewrite Hout, Ho, Hf, Nat2Z.id.
        replace (c - f)%nat with (S (c - S f)) by lia. cbn [take].
        rewrite drop_insert_lt by lia.
        rewrite (take_S_r _ f row)
          by (apply list_lookup_insert_eq; lia).
        rewrite take_insert_ge by lia. rewrite <- app_assoc. cbn.
        do 4 f_equal. lia.
Qed.

End Capacity.

Section CapacityOfParse.

Variable mktime : tm -> Z.
Variable localtime_r : Z -> tm.

(** C5. For a capacity [maxn] of at least 1 (and an array that holds
    [maxn] rows), the parse of a response body writes the rows of the
    first [min q (min maxn kUiNeededItems)] qualifying events, in the
    order of the document, into the first entries of the array, returns
    that number and leaves the other entries alone, [q] being the number
    of qualifying events of the whole document. Once that many rows are
    written no further line reaches the parser: the locals are the ones
    reached at the end of any prefix of the lines that already holds
    enough qualifying events. With capacity 3 and 5 qualifying events the
    first 3 are written. *)
Theorem capacity_first_rows (a : Attempt) (buf : list CalItem) (maxn : Z) :
  1 <= maxn -> maxn <= Z.of_nat (length buf) ->
  let ofs := currentLocalOffsetSeconds localtime_r (clock_ofs a) in
  let now := clock_now a in
  let lines := logicalLines (body a) in
  let rows := qualifyingRows mktime now ofs initialVars lines in
  let st := parseBody mktime localtime_r a buf maxn in
  let n := Z.min (Z.of_nat (length rows)) (Z.min maxn kUiNeededItems) in
  (filled st = n
   /\ take (Z.to_nat n) (out st) = take (Z.to_nat n) rows
   /\ drop (Z.to_nat n) (out st) = drop (Z.to_nat n) buf)
  /\ (forall pre post,
        lines = pre ++ post ->
        Z.min maxn kUiNeededItems
        <= Z.of_nat (length (qualifyingRows mktime now ofs initialVars pre)) ->
        st = fst (fold_left (fun s l => onLine mktime maxn now ofs l s) pre
                    ({| vars := initialVars; filled := 0; out := buf |}, false)))
  /\ (maxn = 3 -> length rows = 5%nat ->
       filled st = 3 /\ take 3 (out st) = take 3 rows).
Proof.
  intros Hmax Hbuf ofs now lines rows st n.
  set (c := Z.to_nat (Z.min maxn kUiNeededItems)).
  assert (Hc : Z.min maxn kUiNeededItems = Z.of_nat c)
    by (unfold c, kUiNeededItems; lia).
  assert (Hc1 : (0 < c)%nat) by (unfold c, kUiNeededItems; lia).
  assert (Hlen : (c <= length buf)%nat) by (unfold c, kUiNeededItems; lia).
  set (st0 := {| vars := initialVars; filled := 0; out := buf |}).
  assert (Est : st = fst (fold_left (fun s l => onLine mktime maxn now ofs l s)
                            lines (st0, false))).
  { subst st. unfold parseBody. rewrite readLogicalLines_fold. reflexivity. }
  assert (Main : filled st = n
                 /\ take (Z.to_nat n) (out st) = take (Z.to_nat n) rows
                 /\ drop (Z.to_nat n) (out st) = drop (Z.to_nat n) buf).
  { destruct (onLine_run mktime maxn now ofs c Hc lines st0 0%nat
                eq_refl Hc1 Hlen) as (st' & Hrun & Hfill & Hout).
    rewrite Est, Hrun. cbn [fst]. cbn in Hfill, Hout.
    rewrite Nat.sub_0_r in Hfill, Hout. fold rows in Hfill, Hout.
    rewrite take_0, app_nil_l in Hout.
    assert (En : Z.to_nat n = Nat.min (length rows) c) by (subst n; lia).
    rewrite En. split; [subst n; lia|]. rewrite Hout.
    assert (El : length (take c rows) = Nat.min (length rows) c)
      by (rewrite length_take; lia).
    split.
    - rewrite take_app_length' by (symmetry; exact El).
      destruct (Nat.le_ge_cases (length rows) c) as [H|H].
      + rewrite Nat.min_l by lia. rewrite !take_ge by lia. reflexivity.
      + rewrite Nat.min_r by lia. reflexivity.
    - apply drop_app_length'. symmetry. exact El. }
  split; [exact Main|]. split.
  - intros pre post Hsplit Hpre.
    rewrite Est, Hsplit, fold_left_app.
    destruct (onLine_run mktime maxn now ofs c Hc pre st0 0%nat
                eq_refl Hc1 Hlen) as (st' & Hrun & _).
    rewrite Hrun. cbn [Nat.add].
    replace (c <=? length (qualifyingRows mktime now ofs (vars st0) pre))%nat
      with true by (symmetry; apply Nat.leb_le; cbn [vars st0]; lia).
    rewrite onLine_stopped. reflexivity.
  - intros H3 H5. destruct Main as (Hf & Ht & _).
    assert (En : n = 3) by (subst n; rewrite H5, H3; reflexivity).
    rewrite En in Hf, Ht. auto.
Qed.

End CapacityOfParse.

(** ** Fetch strategy *)

Section FetchStrategy.

Variable mktime : tm -> Z.
Variable localtime_r : Z -> tm.

#[local] Abbreviation parse := (parseBody mktime localtime_r).
#[local] Abbreviation fetch := (fetchAndParse mktime localtime_r).
#[local] Abbreviation read := (readToday mktime localtime_r).

Lemma onLine_filled_mono maxn nowUTC ofs lines :
  forall st b,
    filled st
    <= filled (fst (fold_left (fun s l => onLine mktime maxn nowUTC ofs l s)
                      lines (st, b))).
Proof.
  induction lines as [|l lines IH]; intros st b; [cbn; lia|].
  cbn [fold_left]. unfold onLine at 2.
  destruct b; cbn [negb]; [apply IH|].
  assert (H : filled st <= filled (flushLogical mktime nowUTC ofs l st))
    by (destruct (flushLogical_cases mktime nowUTC ofs l st)
          as [(-> & _)|(-> & _)]; lia).
  case_if; (etransitivity; [exact H|apply IH]).
Qed.

Lemma parseBody_filled_nonneg a buf maxn : 0 <= filled (parse a buf maxn).
Proof.
  unfold parseBody. rewrite readLogicalLines_fold.
  apply (onLine_filled_mono maxn _ _ _
           {| vars := initialVars; filled := 0; out := buf |} false).
Qed.

(** The three outcomes of [fetchAndParse]. *)
Lemma fetchAndParse_begin_fails w url buf maxn tail log :
  begin_ok w url = false -> fetch w url buf maxn tail log = (-1, buf, log).
Proof. intros H. unfold fetchAndParse. rewrite H. reflexivity. Qed.

Lemma fetchAndParse_status_fails w url buf maxn tail log :
  begin_ok w url = true -> statusOk (http_code (attempt w tail)) = false ->
  fetch w url buf maxn tail log
  = (-1, buf, log ++ [if tail then tailRequest url else fullRequest url]).
Proof.
  intros Hb Hc. unfold fetchAndParse, statusOk in *. rewrite Hb, Hc.
  destruct tail; reflexivity.
Qed.

Lemma fetchAndParse_ok w url buf maxn tail log :
  begin_ok w url = true -> statusOk (http_code (attempt w tail)) = true ->
  fetch w url buf maxn tail log
  = (filled (parse (attempt w tail) buf maxn),
     out (parse (attempt w tail) buf maxn),
     log ++ [if tail then tailRequest url else fullRequest url]).
Proof.
  intros Hb Hc. unfold fetchAndParse, statusOk in *. rewrite Hb, Hc.
  destruct tail; reflexivity.
Qed.

Lemma readToday_guard_passes w (url : Str) maxn :
  0 < maxn -> wifi_connected w = true -> url <> [] ->
  (maxn <=? 0) || negb (wifi_connected w) || (len url =? 0) = false.
Proof.
  intros Hm Hw Hu. rewrite Hw.
  replace (maxn <=? 0) with false by (symmetry; apply Z.leb_gt; lia).
  destruct url; [congruence|reflexivity].
Qed.

(** C1. When the tail request completes with status 200 or 206 and its
    parse writes no row, [readToday] issues exactly one more request, the
    unranged one, and returns the count of the parse of that second
    response (0 if the second transfer fails); when the tail parse writes
    at least one row, the tail request is the only one and its count is
    returned. *)
Theorem tail_empty_one_full_request w (url : Str) buf maxn log :
  0 < maxn -> wifi_connected w = true -> url <> [] ->
  begin_ok w url = true ->
  http_code (attempt w true) = 200 \/ http_code (attempt w true) = 206 ->
  let tail := parse (attempt w true) buf maxn in
  let full := parse (attempt w false) (out tail) maxn in
  (filled tail = 0 ->
     read w url (Some buf) maxn log
     = (if statusOk (http_code (attempt w false)) then filled full else 0,
        Some (if statusOk (http_code (attempt w false)) then out full else out tail),
        log ++ [tailRequest url; fullRequest url]))
  /\ (0 < filled tail ->
       read w url (Some buf) maxn log
       = (filled tail, Some (out tail), log ++ [tailRequest url])).
Proof.
  intros Hm Hw Hu Hb Hcode tail full.
  assert (Hok : statusOk (http_code (attempt w true)) = true)
    by (unfold statusOk; destruct Hcode as [-> | ->]; reflexivity).
  unfold readToday. rewrite (readToday_guard_passes w url maxn Hm Hw Hu).
  rewrite (fetchAndParse_ok w url buf maxn true log Hb Hok). fold tail.
  split; intros Hf.
  - rewrite Hf. cbn [Z.geb Z.gtb Z.compare].
    destruct (statusOk (http_code (attempt w false))) eqn:Hfull.
    + rewrite (fetchAndParse_ok w url _ maxn false _ Hb Hfull). fold full.
      pose proof (parseBody_filled_nonneg (attempt w false) (out tail) maxn) as Hn.
      fold full in Hn.
      replace (filled full <? 0) with false by (symmetry; apply Z.ltb_ge; lia).
      rewrite <- app_assoc. reflexivity.
    + rewrite (fetchAndParse_status_fails w url _ maxn false _ Hb Hfull).
      rewrite <- app_assoc. reflexivity.
  - replace (filled tail >=? 0) with true
      by (symmetry; rewrite Z.geb_leb; apply Z.leb_le; lia).
    replace (filled tail >? 0) with true
      by (symmetry; rewrite Z.gtb_ltb; apply Z.ltb_lt; lia).
    reflexivity.
Qed.

(** C2, as the code has it. When the tail attempt fails at the transport
    level ([http.begin] refuses, the connection fails or the status is
    neither 200 nor 206), [readToday] issues no further request and
    returns zero rows with the array untouched. The full request is the
    fallback of a successful tail transfer that produced no row, and when
    that fallback fails the call returns zero rows. *)
Theorem tail_failure_returns_zero w (url : Str) buf maxn log :
  0 < maxn -> wifi_connected w = true -> url <> [] ->
  (begin_ok w url = false ->
     read w url (Some buf) maxn log = (0, Some buf, log))
  /\ (begin_ok w url = true ->
       statusOk (http_code (attempt w true)) = false ->
       read w url (Some buf) maxn log = (0, Some buf, log ++ [tailRequest url]))
  /\ (begin_ok w url = true ->
       statusOk (http_code (attempt w true)) = true ->
       filled (parse (attempt w true) buf maxn) = 0 ->
       statusOk (http_code (attempt w false)) = false ->
       read w url (Some buf) maxn log
       = (0, Some (out (parse (attempt w true) buf maxn)),
          log ++ [tailRequest url; fullRequest url])).
Proof.
  intros Hm Hw Hu. unfold readToday.
  rewrite (readToday_guard_passes w url maxn Hm Hw Hu).
  split; [|split].
  - intros Hb. rewrite (fetchAndParse_begin_fails w url buf maxn true log Hb).
    reflexivity.
  - intros Hb Hc. rewrite (fetchAndParse_status_fails w url buf maxn true log Hb Hc).
    reflexivity.
  - intros Hb Hc Hf Hc2.
    rewrite (fetchAndParse_ok w url buf maxn true log Hb Hc). rewrite Hf.
    cbn [Z.geb Z.gtb Z.compare].
    rewrite (fetchAndParse_status_fails w url _ maxn false _ Hb Hc2).
    rewrite <- app_assoc. reflexivity.
Qed.

End FetchStrategy.

(** ** Date-time parsing of the stamps with a 'T' *)

Lemma digit_char_facts c :
  isdigit c = true ->
  isspace c = false /\ Ascii.eqb c ":" = false /\ Ascii.eqb c "T" = false
  /\ Ascii.eqb c "Z" = false /\ Ascii.eqb c "z" = false
  /\ forall r, toInt (c :: r) = digitsValue 0 (c :: r).
Proof.
  destruct c as [[] [] [] [] [] [] [] []]; intros H; vm_compute in H;
    try discriminate H; repeat split; reflexivity.
Qed.

Lemma isspace_digit c : isdigit c = true -> isspace c = false.
Proof. intros H. apply (digit_char_facts c H). Qed.

Lemma eqb_digit_T c : isdigit c = true -> Ascii.eqb c "T" = false.
Proof. intros H. apply (digit_char_facts c H). Qed.

Lemma eqb_digit_Z c : isdigit c = true -> Ascii.eqb c "Z" = false.
Proof. intros H. apply (digit_char_facts c H). Qed.

Lemma eqb_digit_z c : isdigit c = true -> Ascii.eqb c "z" = false.
Proof. intros H. apply (digit_char_facts c H). Qed.

(** [toInt] reads two digits as their decimal value. *)
Lemma toInt_two_digits a b :
  isdigit a = true -> isdigit b = true ->
  toInt [a; b] = 10 * digitValue a + digitValue b.
Proof.
  intros Ha Hb. rewrite (proj2 (proj2 (proj2 (proj2 (proj2 (digit_char_facts a Ha)))))).
  cbn [digitsValue]. rewrite Ha, Hb. unfold digitValue. lia.
Qed.

Lemma indexOf_app c pre rest :
  c ∉ pre -> indexOf c (pre ++ c :: rest) = Z.of_nat (length pre).
Proof.
  induction pre as [|x pre IH]; intros H; cbn.
  - rewrite Ascii.eqb_refl. reflexivity.
  - apply not_elem_of_cons in H. destruct H as [Hx Hp].
    destruct (Ascii.eqb_spec x c); [congruence|].
    rewrite (IH Hp).
    replace (Z.of_nat (length pre) <? 0) with false by (symmetry; apply Z.ltb_ge; lia).
    lia.
Qed.

Ltac digits :=
  rewrite ?isspace_digit, ?eqb_digit_T, ?eqb_digit_Z, ?eqb_digit_z by assumption.

Section StampValidation.

Variable mktime : tm -> Z.

(** [parseICSTime] by stages. *)
Lemma parseICSTime_stages line old :
  parseICSTime mktime line old
  = if indexOf ":"%char line <? 0 then (false, old) else
    let '(zulu, v) := stripZulu (icsValue line) in
    let tpos := indexOf "T"%char v in
    if tpos <? 0 then
      if len v <? 8 then (false, old) else
      let r := mktime {| tm_year := toInt (substring 0 4 v) - 1900;
                         tm_mon := toInt (substring 4 6 v) - 1;
                         tm_mday := toInt (substring 6 8 v);
                         tm_hour := 0; tm_min := 0; tm_sec := 0 |} in
      (0 <? r, r)
    else if tpos <? 8 then (false, old) else
    let d := substring 0 8 v in
    let td := timeDigits (substringFrom (Z.to_nat (tpos + 1)) v) in
    if fieldsInRange (toInt (substring 4 6 d)) (toInt (substring 6 8 d))
         (toInt (substring 0 2 td)) (toInt (substring 2 4 td))
         (toInt (substring 4 6 td))
    then let r := if zulu then timegm_compat (stampTm d td)
                  else mktime (stampTm d td) in (0 <? r, r)
    else (false, old).
Proof.
  unfold parseICSTime, icsValue, stripZulu, timeDigits, fieldsInRange, stampTm.
  destruct (indexOf ":" line <? 0); [reflexivity|].
  destruct (last _) as [c|]; [destruct (_ || _)|]; cbv zeta;
    repeat (case_if; try reflexivity).
Qed.

(** A stamp of eight digits, 'T', six digits and an optional [Z], after any
    property name and parameters without a colon: the parse succeeds exactly
    when month, day, hour, minute and second are in range (and the instant
    is positive), and a stamp out of range leaves the field as it was. *)
Lemma parseICSTime_stamp (name d t : Str) (zulu : bool) (old : Z) :
  ":"%char ∉ name -> isStamp d t ->
  parseICSTime mktime
    (name ++ ":"%char :: d ++ "T"%char :: t ++ (if zulu then ["Z"%char] else [])) old
  = if fieldsInRange (toInt (substring 4 6 d)) (toInt (substring 6 8 d))
         (toInt (substring 0 2 t)) (toInt (substring 2 4 t))
         (toInt (substring 4 6 t))
    then let r := if zulu then timegm (stampTm d t) else mktime (stampTm d t) in
         (0 <? r, r)
    else (false, old).
Proof.
  intros Hn (Hd & Ht & Fd & Ft).
  destruct d as [|c1 [|c2 [|c3 [|c4 [|c5 [|c6 [|c7 [|c8 [|? ?]]]]]]]]];
    try discriminate Hd.
  destruct t as [|c9 [|c10 [|c11 [|c12 [|c13 [|c14 [|? ?]]]]]]];
    try discriminate Ht.
  repeat match goal with
         | H : Forall _ (_ :: _) |- _ => apply Forall_cons in H; destruct H as [? H]
         end.
  rewrite parseICSTime_stages.
  rewrite (indexOf_app _ _ _ Hn).
  replace (Z.of_nat (length name) <? 0) with false by (symmetry; apply Z.ltb_ge; lia).
  assert (Ev : icsValue (name ++ ":"%char :: [c1; c2; c3; c4; c5; c6; c7; c8]
                         ++ "T"%char :: [c9; c10; c11; c12; c13; c14]
                         ++ (if zulu then ["Z"%char] else []))
               = [c1; c2; c3; c4; c5; c6; c7; c8]
                 ++ "T"%char :: [c9; c10; c11; c12; c13; c14]
                 ++ (if zulu then ["Z"%char] else [])).
  { unfold icsValue. rewrite (indexOf_app _ _ _ Hn).
    replace (Z.to_nat (Z.of_nat (length name) + 1)) with (length name + 1)%nat by lia.
    unfold substringFrom. rewrite (drop_app_add' name _ (length name) 1 eq_refl).
    unfold trim.
    destruct zulu; repeat (cbn [app dropSpaces rev drop]; digits); reflexivity. }
  rewrite Ev.
  assert (Ez : stripZulu ([c1; c2; c3; c4; c5; c6; c7; c8]
                 ++ "T"%char :: [c9; c10; c11; c12; c13; c14]
                 ++ (if zulu then ["Z"%char] else []))
               = (zulu, [c1; c2; c3; c4; c5; c6; c7; c8; "T"%char;
                         c9; c10; c11; c12; c13; c14])).
  { unfold stripZulu. destruct zulu; cbn; digits; reflexivity. }
  rewrite Ez. cbv zeta.
  assert (Et : indexOf "T" [c1; c2; c3; c4; c5; c6; c7; c8; "T"%char;
                            c9; c10; c11; c12; c13; c14] = 8).
  { cbn [indexOf]. rewrite !eqb_digit_T by assumption. reflexivity. }
  rewrite Et. cbn [Z.ltb Z.compare Pos.compare Pos.compare_cont].
  change (Z.to_nat (8 + 1)) with 9%nat.
  assert (Ed : timeDigits (substringFrom 9 [c1; c2; c3; c4; c5; c6; c7; c8; "T"%char;
                                            c9; c10; c11; c12; c13; c14])
               = [c9; c10; c11; c12; c13; c14]).
  { unfold timeDigits, substringFrom. cbn [drop List.filter].
    repeat match goal with H : isdigit ?c = true |- _ => rewrite H; clear H end.
    reflexivity. }
  rewrite Ed. reflexivity.
Qed.

(** X7. An all-day value of eight digits is handed to [mktime] as it is: no
    field is checked, and the field is set to whatever [mktime] returns. *)
Lemma parseICSTime_allday_unchecked (name d : Str) (old : Z) :
  ":"%char ∉ name -> length d = 8%nat -> Forall (fun c => isdigit c = true) d ->
  parseICSTime mktime (name ++ ":"%char :: d) old
  = let r := mktime {| tm_year := toInt (substring 0 4 d) - 1900;
                       tm_mon := toInt (substring 4 6 d) - 1;
                       tm_mday := toInt (substring 6 8 d);
                       tm_hour := 0; tm_min := 0; tm_sec := 0 |} in
    (0 <? r, r).
Proof.
  intros Hn Hd Fd.
  destruct d as [|c1 [|c2 [|c3 [|c4 [|c5 [|c6 [|c7 [|c8 [|? ?]]]]]]]]];
    try discriminate Hd.
  repeat match goal with
         | H : Forall _ (_ :: _) |- _ => apply Forall_cons in H; destruct H as [? H]
         end.
  rewrite parseICSTime_stages.
  rewrite (indexOf_app _ _ _ Hn).
  replace (Z.of_nat (length name) <? 0) with false by (symmetry; apply Z.ltb_ge; lia).
  assert (Ev : icsValue (name ++ ":"%char :: [c1; c2; c3; c4; c5; c6; c7; c8])
               = [c1; c2; c3; c4; c5; c6; c7; c8]).
  { unfold icsValue. rewrite (indexOf_app _ _ _ Hn).
    replace (Z.to_nat (Z.of_nat (length name) + 1)) with (length name + 1)%nat by lia.
    unfold substringFrom. rewrite (drop_app_add' name _ (length name) 1 eq_refl).
    unfold trim. repeat (cbn [app dropSpaces rev drop]; digits). reflexivity. }
  rewrite Ev.
  assert (Ez : stripZulu [c1; c2; c3; c4; c5; c6; c7; c8]
               = (false, [c1; c2; c3; c4; c5; c6; c7; c8])).
  { unfold stripZulu. cbn. digits. reflexivity. }
  rewrite Ez. cbv zeta.
  assert (Et : indexOf "T" [c1; c2; c3; c4; c5; c6; c7; c8] = -1).
  { cbn [indexOf]. rewrite !eqb_digit_T by assumption. reflexivity. }
  rewrite Et. reflexivity.
Qed.

(** The month of a stamp is the decimal value of its fifth and sixth
    characters (and likewise for the other fields). *)
Lemma stamp_month (d t : Str) :
  isStamp d t ->
  exists a b, d !! 4%nat = Some a /\ d !! 5%nat = Some b
    /\ toInt (substring 4 6 d) = 10 * digitValue a + digitValue b.
Proof.
  intros (Hd & _ & Fd & _).
  destruct d as [|c1 [|c2 [|c3 [|c4 [|c5 [|c6 [|c7 [|c8 [|? ?]]]]]]]]];
    try discriminate Hd.
  repeat match goal with
         | H : Forall _ (_ :: _) |- _ => apply Forall_cons in H; destruct H as [? H]
         end.
  exists c5, c6. repeat split. apply toInt_two_digits; assumption.
Qed.

Variables nowUTC ofs : Z.

(** Outside an event the next rows depend on the alarm flag alone. *)
Lemma qualifyingRows_outside_event lines :
  forall p q,
    inEvent p = false -> inEvent q = false -> inAlarm p = inAlarm q ->
    qualifyingRows mktime nowUTC ofs p lines = qualifyingRows mktime nowUTC ofs q lines.
Proof.
  induction lines as [|ln lines IH]; intros p q Hp Hq Ha; [reflexivity|].
  cbn [qualifyingRows]. unfold flushLogicalVars. rewrite Hp, Hq, Ha. cbn [andb negb].
  repeat (case_if; try (apply IH; cbn; congruence)); reflexivity.
Qed.

(** What a DTSTART and a SUMMARY line do inside an event. *)
Lemma equals_false (a b : Str) : a <> b -> equals a b = false.
Proof. intros H. unfold equals. apply bool_decide_eq_false. exact H. Qed.


Lemma flushLogicalVars_DTSTART ln p :
  startsWith ln "DTSTART"%string = true -> inAlarm p = false -> inEvent p = true ->
  flushLogicalVars mktime nowUTC ofs ln p
  = ({| inEvent := inEvent p; inAlarm := inAlarm p; cancelled := cancelled p;
        cur := setStart (cur p) (snd (parseICSTime mktime ln (start (cur p)))) |},
     None).
Proof.
  intros H Ha He. destruct ln as [|c ln]; [discriminate H|].
  pose proof H as H'. cbn [startsWith list_ascii_of_string] in H'.
  apply andb_true_iff in H'. destruct H' as [Hc _].
  apply Ascii.eqb_eq in Hc. subst c.
  unfold flushLogicalVars. rewrite H, Ha, He.
  rewrite !equals_false by discriminate. reflexivity.
Qed.

Lemma flushLogicalVars_SUMMARY ln p :
  startsWith ln "SUMMARY:"%string = true -> inAlarm p = false -> inEvent p = true ->
  flushLogicalVars mktime nowUTC ofs ln p
  = ({| inEvent := inEvent p; inAlarm := inAlarm p; cancelled := cancelled p;
        cur := setSummary (cur p) (substringFrom 8 ln) |}, None).
Proof.
  intros H Ha He. destruct ln as [|c [|c' ln]]; try discriminate H.
  - cbn [startsWith list_ascii_of_string] in H. rewrite andb_false_r in H.
    discriminate H.
  - pose proof H as H'. cbn [startsWith list_ascii_of_string] in H'.
    apply andb_true_iff in H'. destruct H' as [Hc H'].
    apply andb_true_iff in H'. destruct H' as [Hc' _].
    apply Ascii.eqb_eq in Hc, Hc'. subst c c'.
    unfold flushLogicalVars. rewrite H, Ha, He.
    rewrite !equals_false by discriminate. reflexivity.
Qed.

(** X9. A VEVENT whose DTSTART is a stamp with a field out of range writes
    no row, and the rows of the events after it are those of the rest of the
    document read on its own. *)
Lemma failed_stamp_event_discarded (params d t summ : Str) (zulu : bool)
    (rest : list Str) (p0 : ParseVars) :
  ":"%char ∉ params -> isStamp d t ->
  fieldsInRange (toInt (substring 4 6 d)) (toInt (substring 6 8 d))
    (toInt (substring 0 2 t)) (toInt (substring 2 4 t))
    (toInt (substring 4 6 t)) = false ->
  inAlarm p0 = false ->
  qualifyingRows mktime nowUTC ofs p0
    (list_ascii_of_string "BEGIN:VEVENT"
     :: ((list_ascii_of_string "DTSTART" ++ params) ++ ":"%char :: d ++ "T"%char :: t
         ++ (if zulu then ["Z"%char] else []))
     :: (list_ascii_of_string "SUMMARY:" ++ summ)
     :: list_ascii_of_string "END:VEVENT" :: rest)
  = qualifyingRows mktime nowUTC ofs initialVars rest.
Proof.
  intros Hc Hs Hr Ha.
  assert (Hn : ":"%char ∉ list_ascii_of_string "DTSTART" ++ params).
  { apply not_elem_of_app. split; [|exact Hc].
    apply (bool_decide_unpack _). vm_compute. exact I. }
  pose proof (parseICSTime_stamp _ d t zulu 0 Hn Hs) as Hparse.
  rewrite Hr in Hparse.
  set (bad := (list_ascii_of_string "DTSTART" ++ params) ++ _) in *.
  cbn [qualifyingRows].
  replace (flushLogicalVars mktime nowUTC ofs (list_ascii_of_string "BEGIN:VEVENT") p0)
    with ({| inEvent := true; inAlarm := false; cancelled := false;
         cur := newCalendarEvent |}, @None CalItem)
    by (unfold flushLogicalVars; rewrite Ha; reflexivity).
  assert (Hb : startsWith bad "DTSTART"%string = true) by (unfold bad; reflexivity).
  rewrite (flushLogicalVars_DTSTART bad
             {| inEvent := true; inAlarm := false; cancelled := false;
                cur := newCalendarEvent |} Hb eq_refl eq_refl).
  cbn [cur start newCalendarEvent]. rewrite Hparse. cbn [snd inEvent inAlarm cancelled].
  assert (Hsum : startsWith (list_ascii_of_string "SUMMARY:" ++ summ) "SUMMARY:"%string
                 = true) by reflexivity.
  rewrite (flushLogicalVars_SUMMARY _
             {| inEvent := true; inAlarm := false; cancelled := false;
                cur := setStart newCalendarEvent 0 |} Hsum eq_refl eq_refl).
  replace (flushLogicalVars mktime nowUTC ofs (list_ascii_of_string "END:VEVENT")
             {| inEvent := true; inAlarm := false; cancelled := false;
                cur := setSummary (setStart newCalendarEvent 0)
                         (substringFrom 8 (list_ascii_of_string "SUMMARY:" ++ summ)) |})
    with ({| inEvent := false; inAlarm := false; cancelled := false;
             cur := setSummary (setStart newCalendarEvent 0)
                      (substringFrom 8 (list_ascii_of_string "SUMMARY:" ++ summ)) |},
          @None CalItem)
    by reflexivity.
  apply qualifyingRows_outside_event; reflexivity.
Qed.

End StampValidation.

(** ** Date-time validation *)

Section DateValidation.

(** C3, at the input on which the code leaves it. The range check of
    [parseICSTime] guards the stamps with a 'T' ([parseICSTime_stamp]); an
    all-day value goes to [mktime] unchecked
    ([parseICSTime_allday_unchecked]). For [DTSTART;VALUE=DATE:20231301] the
    call stores what [mktime] returns for month index 12 of 2023, day 1,
    whatever [mktime] is; with a [mktime] that carries the month over (as
    POSIX prescribes) the parse succeeds, the field is set to 2024-01-01
    00:00 local time, and the event is emitted. The same month in a UTC
    stamp is refused and the field is left as it was; that event is dropped
    and the next one is read normally. *)
Theorem allday_date_not_range_checked :
  (forall (mktime : tm -> Z) (old : Z),
      parseICSTime mktime "DTSTART;VALUE=DATE:20231301"%string old
      = (0 <? mktime (mkTm 0 0 0 1 12 123), mktime (mkTm 0 0 0 1 12 123)))
  /\ parseICSTime mktimePlus2 "DTSTART;VALUE=DATE:20231301"%string 0
     = (true, timegm (mkTm 0 0 0 1 0 124) - 7200)
  /\ (let st := parseBody mktimePlus2 localtimePlus2
                  (mkAttempt 200 alldayMonth13 newYearNow newYearNow)
                  [blankItem] 1 in
      filled st = 1
      /\ out st = [{| title := list_ascii_of_string "New year";
                      time := list_ascii_of_string "00:00-00:00" |}])
  /\ (forall (mktime : tm -> Z) (old : Z),
        parseICSTime mktime "DTSTART:20231301T999999Z"%string old = (false, old))
  /\ (let st := parseBody mktimePlus2 localtimePlus2
                  (mkAttempt 200 stampMonth13 newYearNow newYearNow)
                  [blankItem; blankItem] 2 in
      filled st = 1
      /\ out st = [{| title := list_ascii_of_string "Fine";
                      time := list_ascii_of_string "11:00-11:00" |}; blankItem]).
Proof.
  split; [intros mktime old; reflexivity|].
  split; [vm_compute; reflexivity|].
  split; [split; vm_compute; reflexivity|].
  split; [intros mktime old; reflexivity|].
  split; vm_compute; reflexivity.
Qed.

End DateValidation.

(** ** Worked examples *)

Section Examples.

(** The tail answers 206 with nothing for today; the full document is
    fetched once and its single event is returned. *)
Lemma tail_empty_one_full_request_witness :
  readToday mktimePlus2 localtimePlus2 worldTailEmpty sampleUrl
    (Some [blankItem; blankItem]) 2 []
  = (1,
     Some [{| title := list_ascii_of_string "Review, part 2 (Room 1)";
              time := list_ascii_of_string "16:30-16:30" |}; blankItem],
     [tailRequest sampleUrl; fullRequest sampleUrl]).
Proof.
  pose proof (tail_empty_one_full_request mktimePlus2 localtimePlus2
                worldTailEmpty sampleUrl [blankItem; blankItem] 2 []
                ltac:(lia) eq_refl ltac:(discriminate) eq_refl
                (or_intror eq_refl)) as H.
  cbv zeta in H. destruct H as [H _].
  rewrite H by (vm_compute; reflexivity). vm_compute. reflexivity.
Defined.

(** The tail answers 404: one request, zero rows. *)
Lemma tail_failure_returns_zero_witness :
  readToday mktimePlus2 localtimePlus2 worldTail404 sampleUrl
    (Some [blankItem]) 1 []
  = (0, Some [blankItem], [tailRequest sampleUrl]).
Proof.
  pose proof (tail_failure_returns_zero mktimePlus2 localtimePlus2
                worldTail404 sampleUrl [blankItem] 1 []
                ltac:(lia) eq_refl ltac:(discriminate)) as H.
  destruct H as (_ & H & _).
  exact (H eq_refl eq_refl).
Defined.

(** C2 as stated fails: the tail request is answered with 404, a failure
    at the transport level, and the log of the call holds the tail request
    alone, although the full document has an event of today. *)
Lemma tail_failure_no_fallback_request :
  statusOk (http_code (attempt worldTail404 true)) = false
  /\ snd (readToday mktimePlus2 localtimePlus2 worldTail404 sampleUrl
            (Some [blankItem]) 1 [])
     = [tailRequest sampleUrl]
  /\ (fullRequest sampleUrl
      ∉ snd (readToday mktimePlus2 localtimePlus2 worldTail404 sampleUrl
               (Some [blankItem]) 1 []))
  /\ filled (parseBody mktimePlus2 localtimePlus2 (attempt worldTail404 false)
               [blankItem] 1) = 1.
Proof.
  split; [reflexivity|]. split; [vm_compute; reflexivity|].
  split; [|vm_compute; reflexivity].
  replace (snd (readToday mktimePlus2 localtimePlus2 worldTail404 sampleUrl
                  (Some [blankItem]) 1 []))
    with [tailRequest sampleUrl] by (vm_compute; reflexivity).
  apply not_elem_of_cons. split; [discriminate|apply not_elem_of_nil].
Qed.

(** Capacity 3, five qualifying events: E1, E2, E3 are written, in the
    order of the document. *)
Lemma capacity_first_rows_witness :
  let st := parseBody mktimePlus2 localtimePlus2 (answer 200 fiveEvents)
              [blankItem; blankItem; blankItem] 3 in
  filled st = 3
  /\ map title (take 3 (out st))
     = [list_ascii_of_string "E1"; list_ascii_of_string "E2";
        list_ascii_of_string "E3"].
Proof.
  pose proof (capacity_first_rows mktimePlus2 localtimePlus2
                (answer 200 fiveEvents) [blankItem; blankItem; blankItem] 3
                ltac:(lia) ltac:(cbn; lia)) as H.
  cbv zeta in H. destruct H as (_ & _ & H).
  destruct (H eq_refl ltac:(vm_compute; reflexivity)) as [Hf Ht].
  cbv zeta. split; [exact Hf|]. rewrite Ht. vm_compute. reflexivity.
Defined.

(** A row written earlier survives the rows written after it. *)
Lemma emitted_row_complete_witness :
  let first := {| title := list_ascii_of_string "Kept";
                  time := list_ascii_of_string "08:00-09:00" |} in
  let st := {| vars := initialVars; filled := 1;
               out := [first; blankItem; blankItem] |} in
  let st' := fold_left (fun st l => flushLogical mktimePlus2 sampleNow 7200 l st)
               (logicalLines fiveEvents) st in
  1 <= filled st' /\ out st' !! 0%nat = Some first.
Proof.
  intros first st st'.
  pose proof (proj2 (emitted_row_complete mktimePlus2 sampleNow 7200)
                (logicalLines fiveEvents) st ltac:(cbn; lia)) as H.
  cbv zeta in H. destruct H as [Hf Hi].
  split; [exact Hf|]. subst st'. rewrite (Hi 0%nat) by (cbn; lia). reflexivity.
Defined.

(** A start at 14:30 UTC without an end, two hours ahead of UTC. *)
Lemma end_omitted_same_time_witness :
  snd (flushLogicalVars mktimePlus2 sampleNow 7200 "END:VEVENT"%string sampleVars)
  = Some (uiItem 7200 (cur sampleVars))
  /\ end_ (cur sampleVars) <= start (cur sampleVars)
  /\ time (uiItem 7200 (cur sampleVars)) = list_ascii_of_string "16:30-16:30".
Proof.
  assert (H1 : snd (flushLogicalVars mktimePlus2 sampleNow 7200
                      "END:VEVENT"%string sampleVars)
               = Some (uiItem 7200 (cur sampleVars)))
    by (vm_compute; reflexivity).
  assert (H2 : end_ (cur sampleVars) <= start (cur sampleVars))
    by (vm_compute; discriminate).
  split; [exact H1|]. split; [exact H2|].
  rewrite (end_omitted_same_time mktimePlus2 sampleNow 7200 _ _ _ H1 H2).
  vm_compute. reflexivity.
Defined.

(** An alarm inside the sample event: its lines, an END:VEVENT among
    them, leave the event open and unchanged, and write nothing. *)
Lemma alarm_lines_leave_event_witness :
  let st := {| vars := sampleVars; filled := 0; out := [blankItem] |} in
  let st' := fold_left (fun st l => flushLogical mktimePlus2 sampleNow 7200 l st)
               [list_ascii_of_string "TRIGGER:-PT10M";
                list_ascii_of_string "END:VEVENT";
                list_ascii_of_string "SUMMARY:Reminder"]
               (flushLogical mktimePlus2 sampleNow 7200 "BEGIN:VALARM"%string st) in
  cur (vars st') = cur sampleVars /\ inEvent (vars st') = true
  /\ filled st' = 0 /\ out st' = [blankItem].
Proof.
  intros st st'.
  pose proof (alarm_lines_leave_event mktimePlus2 sampleNow 7200 st
                "BEGIN:VALARM"%string
                [list_ascii_of_string "TRIGGER:-PT10M";
                 list_ascii_of_string "END:VEVENT";
                 list_ascii_of_string "SUMMARY:Reminder"]
                eq_refl
                ltac:(repeat (apply Forall_cons; split; [reflexivity|]);
                      apply Forall_nil; exact I)) as H.
  cbv zeta in H. destruct H as [(_ & Hc & _ & He & Hf & Ho) _].
  auto.
Defined.

End Examples.

(** * Further properties of the provider *)

(** ** Local offset, local day and time of day *)

Section LocalTime.

(** X1. On a device whose local time is a fixed number [k] of seconds ahead
    of UTC at the instant read, [currentLocalOffsetSeconds] returns [k],
    positive or negative. *)
Theorem currentLocalOffsetSeconds_fixed_zone (localtime_r : Z -> tm) (now k : Z) :
  localtime_r now = gmtime_r (now + k) ->
  currentLocalOffsetSeconds localtime_r now = k.
Proof.
  intros H. unfold currentLocalOffsetSeconds, timegm_compat.
  rewrite H, timegm_gmtime_r. lia.
Qed.

Lemma currentLocalOffsetSeconds_fixed_zone_witness :
  localtimePlus2 sampleNow = gmtime_r (sampleNow + 7200)
  /\ currentLocalOffsetSeconds localtimePlus2 sampleNow = 7200.
Proof.
  split; [reflexivity|].
  exact (currentLocalOffsetSeconds_fixed_zone localtimePlus2 sampleNow 7200 eq_refl).
Defined.

Lemma march_year_length y :
  365
  <= (146097 * (y / 400) + 365 * (y mod 400) + (y mod 400) / 4 - (y mod 400) / 100)
     - (146097 * ((y - 1) / 400) + 365 * ((y - 1) mod 400)
        + ((y - 1) mod 400) / 4 - ((y - 1) mod 400) / 100)
  <= 366.
Proof.
  pose proof (Z.div_mod y 400 ltac:(lia)) as Hy.
  pose proof (Z.mod_pos_bound y 400 ltac:(lia)) as Hr.
  remember (y / 400) as q eqn:Eq. remember (y mod 400) as r eqn:Er. clear Eq Er.
  destruct (Z.eq_dec r 0) as [E|E].
  - assert (H1 : (y - 1) / 400 = q - 1 /\ (y - 1) mod 400 = 399)
      by (Z.div_mod_to_equations; lia).
    destruct H1 as [-> ->]. subst r. Z.div_mod_to_equations. lia.
  - assert (H1 : (y - 1) / 400 = q /\ (y - 1) mod 400 = r - 1)
      by (Z.div_mod_to_equations; lia).
    destruct H1 as [-> ->].
    assert (H2 : 0 <= r / 4 - (r - 1) / 4 - (r / 100 - (r - 1) / 100) <= 1)
      by (Z.div_mod_to_equations; lia).
    lia.
Qed.

(** The day of the year is between 0 and 365. *)
Lemma yday_bounds z y m d :
  civil_from_days z = (y, m, d) -> 0 <= z - days_from_civil y 1 1 <= 365.
Proof.
  unfold civil_from_days.
  set (z' := z + 719468).
  set (era := z' / 146097). set (doe := z' mod 146097).
  assert (Hdoe : 0 <= doe < 146097) by (apply Z.mod_pos_bound; lia).
  assert (Hz : z' = 146097 * era + doe) by (apply Z.div_mod; lia).
  destruct (doe_bounds doe Hdoe) as [Hyoe Hdoy].
  set (yoe := (doe - doe / 1460 + doe / 36524 - doe / 146096) / 365) in *.
  set (doy := doe - (365 * yoe + yoe / 4 - yoe / 100)) in *.
  set (mp := (5 * doy + 2) / 153) in *.
  intros [= Ey _ _].
  assert (Hq : (yoe + era * 400) / 400 = era /\ (yoe + era * 400) mod 400 = yoe)
    by (Z.div_mod_to_equations; lia).
  destruct Hq as [Hq1 Hq2].
  unfold days_from_civil. cbn [Z.leb Z.compare Pos.compare Pos.compare_cont Z.gtb].
  change ((153 * (1 + 9) + 2) / 5 + 1 - 1) with 306.
  destruct (Z.ltb_spec mp 10) as [Hmp|Hmp].
  - replace (mp + 3 <=? 2) with false in Ey
      by (symmetry; apply Z.leb_gt; unfold mp; Z.div_mod_to_equations; lia).
    subst y.
    pose proof (march_year_length (yoe + era * 400)) as HF.
    rewrite Hq1, Hq2 in HF.
    assert (doy <= 305) by (unfold mp in Hmp; Z.div_mod_to_equations; lia).
    unfold z' in Hz. subst doy. lia.
  - replace (mp - 9 <=? 2) with true in Ey
      by (symmetry; apply Z.leb_le; pose proof (month_index_bounds doy Hdoy) as Hb;
          fold mp in Hb; lia).
    subst y. replace (yoe + era * 400 + 1 - 1) with (yoe + era * 400) by lia.
    rewrite Hq1, Hq2.
    assert (306 <= doy) by (unfold mp in Hmp; Z.div_mod_to_equations; lia).
    unfold z' in Hz. subst doy. lia.
Qed.

Lemma dayKey_eq (t ofs : Z) :
  exists y, 0 <= (t + ofs) / 86400 - days_from_civil y 1 1 <= 365
    /\ dayKey t ofs = (y - 1900) * 1000 + ((t + ofs) / 86400 - days_from_civil y 1 1).
Proof.
  unfold dayKey, gmtime_r_yday, gmtime_r.
  destruct (civil_from_days ((t + ofs) / 86400)) as [[y m] d] eqn:E.
  exists y. split; [exact (yday_bounds _ _ _ _ E)|reflexivity].
Qed.

(** Two instants have the same key exactly when they fall on the same
    local day. *)
Lemma dayKey_same_day (a b ofs : Z) :
  dayKey a ofs = dayKey b ofs <-> (a + ofs) / 86400 = (b + ofs) / 86400.
Proof.
  split.
  - destruct (dayKey_eq a ofs) as (ya & Ha & ->).
    destruct (dayKey_eq b ofs) as (yb & Hb & ->).
    intros H. assert (ya = yb) by lia. subst yb. lia.
  - intros H. unfold dayKey, gmtime_r_yday, gmtime_r. rewrite H. reflexivity.
Qed.

(** X2. [isSameLocalDay] is true exactly when the two instants, shifted by
    the offset, lie in the same 86400-second day: the key built from the
    year and the day of the year never identifies two different days. *)
Theorem isSameLocalDay_same_day (aUTC bUTC ofsSec : Z) :
  isSameLocalDay aUTC bUTC ofsSec = true
  <-> (aUTC + ofsSec) / 86400 = (bUTC + ofsSec) / 86400.
Proof. unfold isSameLocalDay. rewrite Z.eqb_eq. apply dayKey_same_day. Qed.

(** X3. For an event without a later end (an instant event), the overlap
    test of [spansToday] and the day comparison of [isSameLocalDay] agree. *)
Theorem spansToday_instant_same_day (s e now ofs : Z) :
  e <= s -> spansToday s e now ofs = isSameLocalDay s now ofs.
Proof.
  intros He. rewrite spansToday_unfold.
  replace (Z.max e s) with s by lia.
  unfold localDayEndUTC, localDayStartUTC, isSameLocalDay.
  destruct (Z.eqb_spec (dayKey s ofs) (dayKey now ofs)) as [E|E].
  - apply dayKey_same_day in E.
    apply negb_true_iff, orb_false_iff. rewrite Z.gtb_ltb. split; apply Z.ltb_ge;
      Z.div_mod_to_equations; lia.
  - apply negb_false_iff. apply orb_true_iff.
    assert (N : (s + ofs) / 86400 <> (now + ofs) / 86400)
      by (intros H; apply E, dayKey_same_day, H).
    rewrite Z.gtb_ltb.
    destruct (Z.ltb_spec s (86400 * ((now + ofs) / 86400) - ofs)); [left; reflexivity|].
    right. apply Z.ltb_lt. Z.div_mod_to_equations. lia.
Qed.

Lemma spansToday_instant_same_day_witness :
  0 <= 1718029800
  /\ spansToday 1718029800 0 sampleNow 7200 = isSameLocalDay 1718029800 sampleNow 7200.
Proof.
  split; [lia|]. apply (spansToday_instant_same_day 1718029800 0 sampleNow 7200). lia.
Defined.

(** X4. [fmtHHMM_local_fromUTC] always writes five characters, so the
    eight-byte buffers of the caller are never short: the placeholder for an
    instant that is not positive, and otherwise the hour and the minute of
    the local wall clock, [(t + ofs) mod 86400] seconds after midnight, in
    two digits each, also when the local epoch is negative. *)
Theorem fmtHHMM_local_fromUTC_wall_clock (t ofs : Z) :
  length (fmtHHMM_local_fromUTC 8 t ofs) = 5%nat
  /\ (t <= 0 -> fmtHHMM_local_fromUTC 8 t ofs = list_ascii_of_string "--:--")
  /\ (0 < t ->
      fmtHHMM_local_fromUTC 8 t ofs
      = hhmm ((t + ofs) mod 86400 / 3600) ((t + ofs) mod 86400 / 60 mod 60)).
Proof.
  assert (Hneg : t <= 0 -> fmtHHMM_local_fromUTC 8 t ofs = list_ascii_of_string "--:--").
  { intros H. unfold fmtHHMM_local_fromUTC.
    replace (t <=? 0) with true by (symmetry; apply Z.leb_le; lia). reflexivity. }
  assert (Hpos : 0 < t ->
      fmtHHMM_local_fromUTC 8 t ofs
      = hhmm ((t + ofs) mod 86400 / 3600) ((t + ofs) mod 86400 / 60 mod 60)).
  { intros H. rewrite fmtHHMM_local_fromUTC_hhmm by exact H.
    unfold gmtime_r. destruct (civil_from_days ((t + ofs) / 86400)) as [[y m] d].
    reflexivity. }
  split; [|split; assumption].
  destruct (Z.le_gt_cases t 0) as [H|H].
  - rewrite Hneg by exact H. reflexivity.
  - rewrite Hpos by lia. reflexivity.
Qed.

End LocalTime.

(** ** Unescaping *)

Section UnescapeLength.

Lemma icsUnescape_length_both s :
  ((length (icsUnescape s) <= length s)%nat
   /\ (length s <= 2 * length (icsUnescape s))%nat)
  /\ forall c,
      (length (icsUnescape (c :: s)) <= length (c :: s))%nat
      /\ (length (c :: s) <= 2 * length (icsUnescape (c :: s)))%nat.
Proof.
  induction s as [|n r [IHr IHc]].
  - split; [cbn; lia|]. intros c. cbn. destruct (Ascii.eqb c "\"%char); cbn; lia.
  - split; [apply IHc|]. intros c.
    cbn [icsUnescape]. destruct (Ascii.eqb c "\"%char).
    + destruct (Ascii.eqb n "n" || Ascii.eqb n "N");
        [cbn [length]; lia|].
      destruct (Ascii.eqb n "\" || Ascii.eqb n "," || Ascii.eqb n ";");
        [cbn [length]; lia|].
      specialize (IHc n). cbn [icsUnescape length] in *. lia.
    + specialize (IHc n). cbn [icsUnescape length] in *. lia.
Qed.

(** X5. Unescaping never lengthens a text and at most halves it: every step
    of the pass writes one character and reads one or two. (The code
    reserves the length of the input for the output.) *)
Theorem icsUnescape_length (s : Str) :
  (length (icsUnescape s) <= length s)%nat
  /\ (length s <= 2 * length (icsUnescape s))%nat.
Proof. apply icsUnescape_length_both. Qed.

End UnescapeLength.

(** ** Date-time values *)

Section DateTimeValues.

Variable mktime : tm -> Z.

(** X6. [parseICSTime] returns true only with a positive instant stored, and
    when it returns false the field either keeps its old value or has been
    overwritten with an instant that is not positive (a conversion that
    fails stores its result before it is tested), so a field that was unset
    stays unset in the sense of the completeness check. *)
Theorem parseICSTime_success_positive (line : Str) (old : Z) :
  (fst (parseICSTime mktime line old) = true ->
   0 < snd (parseICSTime mktime line old))
  /\ (fst (parseICSTime mktime line old) = false ->
      snd (parseICSTime mktime line old) = old
      \/ snd (parseICSTime mktime line old) <= 0).
Proof.
  rewrite parseICSTime_stages.
  destruct (indexOf ":" line <? 0); [cbn; split; [discriminate|auto]|].
  destruct (stripZulu (icsValue line)) as [zulu v]. cbv zeta.
  repeat (case_if; try (cbn; split; [discriminate|auto]));
    cbn [fst snd];
    (split; [intros H; apply Z.ltb_lt, H | intros H; right; apply Z.ltb_ge, H]).
Qed.

Lemma toInt_four_digits a b c d :
  isdigit a = true -> isdigit b = true -> isdigit c = true -> isdigit d = true ->
  toInt [a; b; c; d]
  = 1000 * digitValue a + 100 * digitValue b + 10 * digitValue c + digitValue d.
Proof.
  intros Ha Hb Hc Hd.
  rewrite (proj2 (proj2 (proj2 (proj2 (proj2 (digit_char_facts a Ha)))))).
  cbn [digitsValue]. rewrite Ha, Hb, Hc, Hd. unfold digitValue. lia.
Qed.

(** X8. A stamp [YYYYMMDD'T'HHMMSS] of digits with an optional [Z], after
    any property name and parameters without a colon, is read in decimal:
    when the month is from 1 to 12, the day from 1 to 31, the hour at most
    23, the minute at most 59 and the second at most 60, the field receives
    [timegm] of these fields for the [Z] form and [mktime] of them for the
    local form (and the parse reports whether that instant is positive);
    otherwise the parse fails and the field is left as it was. *)
Theorem parseICSTime_stamp_decimal (name : Str)
    (y1 y2 y3 y4 m1 m2 d1 d2 h1 h2 n1 n2 s1 s2 : ascii) (zulu : bool) (old : Z) :
  ":"%char ∉ name ->
  Forall (fun c => isdigit c = true)
    [y1; y2; y3; y4; m1; m2; d1; d2; h1; h2; n1; n2; s1; s2] ->
  parseICSTime mktime
    (name ++ ":"%char :: [y1; y2; y3; y4; m1; m2; d1; d2]
          ++ "T"%char :: [h1; h2; n1; n2; s1; s2]
          ++ (if zulu then ["Z"%char] else [])) old
  = let MO := 10 * digitValue m1 + digitValue m2 in
    let DD := 10 * digitValue d1 + digitValue d2 in
    let HH := 10 * digitValue h1 + digitValue h2 in
    let MM := 10 * digitValue n1 + digitValue n2 in
    let SS := 10 * digitValue s1 + digitValue s2 in
    if fieldsInRange MO DD HH MM SS then
      let tmv := {| tm_year := 1000 * digitValue y1 + 100 * digitValue y2
                               + 10 * digitValue y3 + digitValue y4 - 1900;
                    tm_mon := MO - 1; tm_mday := DD;
                    tm_hour := HH; tm_min := MM; tm_sec := SS |} in
      let r := if zulu then timegm tmv else mktime tmv in
      (0 <? r, r)
    else (false, old).
Proof.
  intros Hn F.
  repeat match goal with
         | H : Forall _ (_ :: _) |- _ => apply Forall_cons in H; destruct H as [? H]
         end.
  assert (Hs : isStamp [y1; y2; y3; y4; m1; m2; d1; d2] [h1; h2; n1; n2; s1; s2]).
  { repeat split; repeat (apply Forall_cons; split; [assumption|]);
      apply Forall_nil; exact I. }
  rewrite (parseICSTime_stamp mktime name _ _ zulu old Hn Hs).
  unfold stampTm, substring. cbn [Nat.ltb Nat.leb Nat.sub drop take].
  rewrite !toInt_two_digits, toInt_four_digits by assumption. reflexivity.
Qed.

End DateTimeValues.

Lemma parseICSTime_stamp_decimal_witness :
  parseICSTime mktimePlus2 (list_ascii_of_string "DTSTART:20240610T143000Z") 0
  = (true, 1718029800)
  /\ parseICSTime mktimePlus2
       (list_ascii_of_string "DTEND;TZID=Europe/Berlin:20240610T256100") 5
     = (false, 5).
Proof.
  split.
  - exact (parseICSTime_stamp_decimal mktimePlus2 (list_ascii_of_string "DTSTART")
             "2" "0" "2" "4" "0" "6" "1" "0" "1" "4" "3" "0" "0" "0" true 0
             ltac:(apply (bool_decide_unpack _); vm_compute; exact I)
             ltac:(repeat (apply Forall_cons; split; [reflexivity|]);
                   apply Forall_nil; exact I)).
  - exact (parseICSTime_stamp_decimal mktimePlus2
             (list_ascii_of_string "DTEND;TZID=Europe/Berlin")
             "2" "0" "2" "4" "0" "6" "1" "0" "2" "5" "6" "1" "0" "0" false 5
             ltac:(apply (bool_decide_unpack _); vm_compute; exact I)
             ltac:(repeat (apply Forall_cons; split; [reflexivity|]);
                   apply Forall_nil; exact I)).
Defined.

(** 30 February 2024 is taken as 1 March. *)
Lemma parseICSTime_allday_unchecked_witness :
  parseICSTime mktimePlus2 (list_ascii_of_string "DTSTART;VALUE=DATE:20240230") 0
  = (true, timegm (mkTm 0 0 0 1 2 124) - 7200).
Proof.
  exact (parseICSTime_allday_unchecked mktimePlus2
           (list_ascii_of_string "DTSTART;VALUE=DATE")
           (list_ascii_of_string "20240230") 0
           ltac:(apply (bool_decide_unpack _); vm_compute; exact I)
           eq_refl
           ltac:(repeat (apply Forall_cons; split; [reflexivity|]);
                 apply Forall_nil; exact I)).
Defined.

Lemma failed_stamp_event_discarded_witness :
  qualifyingRows mktimePlus2 newYearNow 7200 initialVars
    (logicalLines stampMonth13)
  = [{| title := list_ascii_of_string "Fine";
        time := list_ascii_of_string "11:00-11:00" |}].
Proof.
  etransitivity.
  - exact (failed_stamp_event_discarded mktimePlus2 newYearNow 7200 []
             (list_ascii_of_string "20231301") (list_ascii_of_string "999999")
             (list_ascii_of_string "Broken") true
             [list_ascii_of_string "BEGIN:VEVENT";
              list_ascii_of_string "DTSTART:20240101T090000Z";
              list_ascii_of_string "SUMMARY:Fine";
              list_ascii_of_string "END:VEVENT"]
             initialVars
             ltac:(apply not_elem_of_nil)
             ltac:(repeat split; repeat (apply Forall_cons; split; [reflexivity|]);
                   apply Forall_nil; exact I)
             ltac:(vm_compute; reflexivity) eq_refl).
  - vm_compute. reflexivity.
Defined.

(** ** The reader on every stream *)

Section ReaderInvariants.

Lemma readBytesUntil_stored t n s buf r :
  readBytesUntil t n s = (buf, r) -> (length buf <= n)%nat /\ t ∉ buf.
Proof.
  revert s buf r. induction n as [|n IH]; intros s buf r E; cbn in E.
  - injection E as <- <-. split; [cbn; lia|apply not_elem_of_nil].
  - destruct s as [|c s]; [injection E as <- <-; split; [cbn; lia|apply not_elem_of_nil]|].
    destruct (Ascii.eqb_spec c t) as [->|Hc].
    + injection E as <- <-. split; [cbn; lia|apply not_elem_of_nil].
    + destruct (readBytesUntil t n s) as [b r'] eqn:E'.
      injection E as <- <-. destruct (IH _ _ _ E') as [Hl Ht].
      split; [cbn; lia|]. apply not_elem_of_cons. split; [congruence|exact Ht].
Qed.

Lemma cstr_prefix buf : (length (cstr buf) <= length buf)%nat
                        /\ forall x : ascii, x ∉ buf -> x ∉ cstr buf.
Proof.
  induction buf as [|c r [IHl IHx]]; cbn; [split; [lia|auto]|].
  destruct (Ascii.eqb c zero); cbn; split; try lia.
  - intros x _. apply not_elem_of_nil.
  - intros x H. apply not_elem_of_cons in H. destruct H as [Hc Hr].
    apply not_elem_of_cons. split; [exact Hc|apply IHx, Hr].
Qed.

Lemma length_removelast_le (l : list ascii) : (length (removelast l) <= length l)%nat.
Proof.
  induction l as [|c l IH]; [cbn; lia|]. cbn [removelast].
  destruct l; [cbn; lia|]. cbn [length] in *. lia.
Qed.

Lemma readPhysLine_length s n line s' :
  readPhysLine s n = Some (line, s') -> (length line <= n - 1)%nat.
Proof.
  unfold readPhysLine.
  destruct (readBytesUntil "010" (n - 1) s) as [buf r] eqn:E.
  case_if; [discriminate|]. intros [= <- _].
  destruct (readBytesUntil_stored _ _ _ _ _ E) as [Hl _].
  etransitivity; [apply cstr_prefix|].
  destruct (last buf) as [c|]; [|exact Hl].
  destruct (Ascii.eqb c "013"); [|exact Hl].
  etransitivity; [apply length_removelast_le|exact Hl].
Qed.

Lemma readPhysLine_clean s n line s' :
  readPhysLine s n = Some (line, s') ->
  Forall (fun c => c <> zero /\ c <> "010"%char) line.
Proof.
  intros H. pose proof (readPhysLine_no_NUL _ _ _ _ H) as Hz.
  revert H. unfold readPhysLine.
  destruct (readBytesUntil "010" (n - 1) s) as [buf r] eqn:E.
  case_if; [discriminate|]. intros [= Hline _].
  destruct (readBytesUntil_stored _ _ _ _ _ E) as [_ Ht].
  assert (Hlf : "010"%char ∉ line).
  { subst line. apply cstr_prefix.
    destruct (last buf) as [c|]; [|exact Ht].
    destruct (Ascii.eqb c "013"); [apply not_elem_of_removelast|]; exact Ht. }
  apply Forall_forall. intros c Hc. split; intros ->; [apply Hz|apply Hlf]; exact Hc.
Qed.

(** X10. A physical line that [readPhysLine] delivers is shorter than the
    buffer (at most [bufsz - 1] characters, so that the terminator written
    at [buf[n]] is inside the buffer), holds neither a NUL nor a line feed,
    and at least one byte of the stream has been consumed for it. *)
Theorem readPhysLine_in_bounds (s : Stream) (n : nat) (line : Str) (s' : Stream) :
  readPhysLine s (S (S n)) = Some (line, s') ->
  (length line <= S n)%nat /\ (length s' < length s)%nat
  /\ Forall (fun c => c <> zero /\ c <> "010"%char) line.
Proof.
  intros H. split; [|split].
  - pose proof (readPhysLine_length _ _ _ _ H). lia.
  - exact (readPhysLine_consumes _ _ _ _ H).
  - exact (readPhysLine_clean _ _ _ _ H).
Qed.

Lemma readPhysLine_in_bounds_witness :
  readPhysLine (document ["SUMMARY:x"; "END"]%string) kLineBuf
  = Some (list_ascii_of_string "SUMMARY:x", document ["END"]%string)
  /\ (length (list_ascii_of_string "SUMMARY:x") <= 1023)%nat.
Proof.
  assert (H : readPhysLine (document ["SUMMARY:x"; "END"]%string) kLineBuf
              = Some (list_ascii_of_string "SUMMARY:x", document ["END"]%string))
    by (vm_compute; reflexivity).
  split; [exact H|].
  exact (proj1 (readPhysLine_in_bounds _ 1022 _ _ H)).
Defined.

(** More fuel does not change what the loop returns. *)
Lemma readLogicalLines_loop_more_fuel {St : Type} (onLine : Str -> St -> St) :
  forall fuel s logical haveLogical st r,
    readLogicalLines_loop fuel s onLine logical haveLogical st = Some r ->
    readLogicalLines_loop (S fuel) s onLine logical haveLogical st = Some r.
Proof.
  induction fuel as [|fuel IH]; intros s lg hv st r H; [discriminate|].
  cbn [readLogicalLines_loop] in H. change (readLogicalLines_loop (S (S fuel)) s onLine lg hv st)
    with (match readPhysLine s kLineBuf with
          | Some (line, s') =>
              if isCont line then
                if negb hv
                then readLogicalLines_loop (S fuel) s' onLine (List.tl line) true st
                else readLogicalLines_loop (S fuel) s' onLine (lg ++ List.tl line) true st
              else readLogicalLines_loop (S fuel) s' onLine line true
                     (if hv then onLine lg st else st)
          | None => Some (if hv then onLine lg st else st)
          end).
  destruct (readPhysLine s kLineBuf) as [[line s']|]; [|exact H].
  destruct (isCont line); [destruct (negb hv)|]; apply IH, H.
Qed.

(** X11. [readLogicalLines] returns for every stream and every callback:
    with any fuel above the length of the stream the loop ends, and its
    result is the callback run once on every logical line, in order. *)
Theorem readLogicalLines_any_fuel {St : Type} (onLine : Str -> St -> St)
    (fuel : nat) (s : Stream) (st : St) :
  (length s < fuel)%nat ->
  readLogicalLines_loop fuel s onLine [] false st
  = Some (fold_left (fun st l => onLine l st) (logicalLines s) st).
Proof.
  intros Hf. rewrite <- readLogicalLines_fold.
  replace fuel with ((fuel - S (length s)) + S (length s))%nat by lia.
  induction (fuel - S (length s))%nat as [|k IH].
  - apply readLogicalLines_returns.
  - apply readLogicalLines_loop_more_fuel, IH.
Qed.

Lemma readLogicalLines_any_fuel_witness :
  readLogicalLines_loop 100 (document ["A"; " b"; "C"]%string)
    (fun l (n : nat) => S n) [] false 0%nat
  = Some 2%nat.
Proof.
  exact (readLogicalLines_any_fuel (fun l (n : nat) => S n) 100
           (document ["A"; " b"; "C"]%string) 0%nat ltac:(cbn; lia)).
Defined.

(** An invariant of the pending logical line and of the lines delivered. *)
Lemma readLogicalLines_loop_Forall (P : Str -> Prop) :
  P [] -> (forall l, P l -> P (List.tl l)) -> (forall a b, P a -> P b -> P (a ++ b)) ->
  (forall s line s', readPhysLine s kLineBuf = Some (line, s') -> P line) ->
  forall fuel s logical haveLogical acc ls,
    P logical -> Forall P acc ->
    readLogicalLines_loop fuel s (fun l acc => acc ++ [l]) logical haveLogical acc
    = Some ls ->
    Forall P ls.
Proof.
  intros Pnil Ptl Papp Pline.
  induction fuel as [|fuel IH]; intros s lg hv acc ls Hlg Hacc; [discriminate|].
  cbn [readLogicalLines_loop].
  assert (Hpush : Forall P (if hv then acc ++ [lg] else acc)).
  { destruct hv; [|exact Hacc]. apply Forall_app. split; [exact Hacc|].
    apply Forall_cons. split; [exact Hlg|apply Forall_nil; exact I]. }
  destruct (readPhysLine s kLineBuf) as [[line s']|] eqn:E.
  - apply Pline in E.
    destruct (isCont line); [destruct (negb hv)|]; apply IH; auto.
  - intros [= <-]. exact Hpush.
Qed.

(** X12. No logical line handed to the callback holds a NUL or a line feed,
    whatever the bytes of the stream. *)
Theorem logicalLines_clean (s : Stream) :
  Forall (Forall (fun c => c <> zero /\ c <> "010"%char)) (logicalLines s).
Proof.
  unfold logicalLines, readLogicalLines.
  destruct (readLogicalLines_loop (S (length s)) s _ [] false []) as [ls|] eqn:E;
    [|apply Forall_nil; exact I].
  refine (readLogicalLines_loop_Forall _ _ _ _ _ _ _ _ _ _ _ _ _ E).
  - apply Forall_nil. exact I.
  - intros [|c l] H; [exact H|]. apply Forall_cons in H. apply H.
  - intros a b Ha Hb. apply Forall_app. auto.
  - intros s0 line s0' H. exact (readPhysLine_clean _ _ _ _ H).
  - apply Forall_nil. exact I.
  - apply Forall_nil. exact I.
Qed.

End ReaderInvariants.

(** ** Counts, array and requests of a fetch *)

Section FetchOutcome.

Variable mktime : tm -> Z.
Variable localtime_r : Z -> tm.

(** Along the lines of a body the count grows up to the bound and not
    beyond, the array keeps its length, and it is written only when the
    count grows. *)
Lemma onLine_fold_invariant maxn nowUTC ofs lines :
  forall st b,
    filled st <= Z.min maxn kUiNeededItems ->
    (b = false -> filled st < Z.min maxn kUiNeededItems) ->
    let r := fold_left (fun s l => onLine mktime maxn nowUTC ofs l s) lines (st, b) in
    filled st <= filled (fst r) <= Z.min maxn kUiNeededItems
    /\ length (out (fst r)) = length (out st)
    /\ (filled (fst r) = filled st -> out (fst r) = out st).
Proof.
  induction lines as [|l lines IH]; intros st b Hle Hlt r.
  - subst r. cbn. repeat split; auto; lia.
  - subst r. cbn [fold_left].
    destruct b.
    + change (onLine mktime maxn nowUTC ofs l (st, true)) with (st, true).
      apply (IH st true Hle). discriminate.
    + specialize (Hlt eq_refl).
      set (st1 := flushLogical mktime nowUTC ofs l st).
      assert (H1 : (filled st1 = filled st /\ out st1 = out st)
                   \/ (filled st1 = filled st + 1
                       /\ length (out st1) = length (out st))).
      { destruct (flushLogical_cases mktime nowUTC ofs l st)
          as [(Hf & Ho & _)|(Hf & Ho & _)]; fold st1 in Hf, Ho; [left; auto|right].
        split; [exact Hf|]. rewrite Ho. apply length_insert. }
      assert (Hle1 : filled st1 <= Z.min maxn kUiNeededItems)
        by (destruct H1 as [[-> _]|[-> _]]; lia).
      assert (Es : exists b',
                 onLine mktime maxn nowUTC ofs l (st, false) = (st1, b')
                 /\ (b' = false -> filled st1 < Z.min maxn kUiNeededItems)).
      { unfold onLine. cbn [negb]. fold st1.
        destruct ((filled st1 >=? maxn) || (filled st1 >=? kUiNeededItems)) eqn:C.
        - exists true. split; [reflexivity|discriminate].
        - exists false. split; [reflexivity|]. intros _.
          apply orb_false_iff in C. destruct C as [C1 C2].
          rewrite Z.geb_leb in C1, C2. apply Z.leb_gt in C1, C2. lia. }
      destruct Es as (b' & -> & Hb').
      destruct (IH st1 b' Hle1 Hb') as (Hf & Hl & Ho).
      destruct H1 as [[E1 E2]|[E1 E2]].
      * split; [lia|]. split; [rewrite Hl, E2; reflexivity|].
        intros Heq. rewrite <- E2. apply Ho. lia.
      * split; [lia|]. split; [rewrite Hl; exact E2|]. intros Heq. lia.
Qed.

Lemma parseBody_invariant a buf maxn :
  1 <= maxn ->
  0 <= filled (parseBody mktime localtime_r a buf maxn) <= Z.min maxn kUiNeededItems
  /\ length (out (parseBody mktime localtime_r a buf maxn)) = length buf
  /\ (filled (parseBody mktime localtime_r a buf maxn) = 0 ->
      out (parseBody mktime localtime_r a buf maxn) = buf).
Proof.
  intros Hm. unfold parseBody. rewrite readLogicalLines_fold.
  apply (onLine_fold_invariant maxn _ _ _
           {| vars := initialVars; filled := 0; out := buf |} false);
    cbn [filled]; unfold kUiNeededItems; lia.
Qed.

(** X13. One fetch, for a capacity of at least 1: it fails with -1 and
    leaves the array as it was, or it returns a count from 0 to the smaller
    of the capacity and [kUiNeededItems]; the array keeps its length, a
    count of 0 means that no entry was written, and at most one request is
    issued, the one with the range header for the tail. *)
Theorem fetchAndParse_outcome (w : World) (url : Str) (buf : list CalItem)
    (maxn : Z) (tail : bool) (log : list Request) :
  1 <= maxn ->
  let r := fetchAndParse mktime localtime_r w url buf maxn tail log in
  ((fst (fst r) = -1 /\ snd (fst r) = buf)
   \/ 0 <= fst (fst r) <= Z.min maxn kUiNeededItems)
  /\ length (snd (fst r)) = length buf
  /\ (fst (fst r) = 0 -> snd (fst r) = buf)
  /\ (snd r = log
      \/ snd r = log ++ [if tail then tailRequest url else fullRequest url]).
Proof.
  intros Hm r. subst r.
  destruct (begin_ok w url) eqn:Hb.
  - destruct (statusOk (http_code (attempt w tail))) eqn:Hc.
    + rewrite (fetchAndParse_ok mktime localtime_r w url buf maxn tail log Hb Hc).
      cbn [fst snd].
      destruct (parseBody_invariant (attempt w tail) buf maxn Hm) as (H1 & H2 & H3).
      auto 10.
    + rewrite (fetchAndParse_status_fails mktime localtime_r w url buf maxn tail log Hb Hc).
      cbn [fst snd].
      split; [left; auto|]. split; [reflexivity|]. split; [discriminate|auto].
  - rewrite (fetchAndParse_begin_fails mktime localtime_r w url buf maxn tail log Hb).
    cbn [fst snd].
    split; [left; auto|]. split; [reflexivity|]. split; [discriminate|auto].
Qed.

(** The requests of a call: none, the tail request, or the tail request and
    then the full request. *)
Lemma readToday_requests w (url : Str) out maxn log :
  exists new,
    snd (readToday mktime localtime_r w url out maxn log) = log ++ new
    /\ (new = [] \/ new = [tailRequest url]
        \/ new = [tailRequest url; fullRequest url])
    /\ (url = [] -> new = []).
Proof.
  unfold readToday. destruct out as [buf|];
    [|exists []; rewrite app_nil_r; auto].
  destruct ((maxn <=? 0) || negb (wifi_connected w) || (len url =? 0)) eqn:G;
    [exists []; rewrite app_nil_r; auto|].
  assert (Hu : url <> []).
  { intros ->. rewrite orb_true_r in G. discriminate. }
  destruct (begin_ok w url) eqn:Hb.
  - destruct (statusOk (http_code (attempt w true))) eqn:Hc.
    + rewrite (fetchAndParse_ok mktime localtime_r w url buf maxn true log Hb Hc).
      pose proof (parseBody_filled_nonneg mktime localtime_r (attempt w true) buf maxn)
        as Hn.
      replace (filled (parseBody mktime localtime_r (attempt w true) buf maxn) >=? 0)
        with true by (symmetry; rewrite Z.geb_leb; apply Z.leb_le; lia).
      case_if; [exists [tailRequest url]; cbn [snd]; auto 6; split; [reflexivity|];
                split; [auto|contradiction]|].
      destruct (statusOk (http_code (attempt w false))) eqn:Hc2.
      * rewrite (fetchAndParse_ok mktime localtime_r w url _ maxn false _ Hb Hc2).
        exists [tailRequest url; fullRequest url]. cbn [snd].
        rewrite <- app_assoc. split; [reflexivity|]. split; [auto|contradiction].
      * rewrite (fetchAndParse_status_fails mktime localtime_r w url _ maxn false _ Hb Hc2).
        exists [tailRequest url; fullRequest url]. cbn [snd].
        rewrite <- app_assoc. split; [reflexivity|]. split; [auto|contradiction].
    + rewrite (fetchAndParse_status_fails mktime localtime_r w url buf maxn true log Hb Hc).
      cbn. exists [tailRequest url]. split; [reflexivity|]. split; [auto|contradiction].
  - rewrite (fetchAndParse_begin_fails mktime localtime_r w url buf maxn true log Hb).
    cbn. exists []. rewrite app_nil_r. auto.
Qed.

(** X14. A call of [readToday] with an array returns a count from 0 to the
    smaller of the capacity and [kUiNeededItems] (0 for a capacity that is
    not positive), never the -1 of a failed fetch; the array keeps its
    length, and a count of 0 means that no entry of it was written. *)
Theorem readToday_outcome (w : World) (url : Str) (buf : list CalItem)
    (maxn : Z) (log : list Request) :
  let r := readToday mktime localtime_r w url (Some buf) maxn log in
  0 <= fst (fst r) <= Z.max 0 (Z.min maxn kUiNeededItems)
  /\ exists buf',
       snd (fst r) = Some buf' /\ length buf' = length buf
       /\ (fst (fst r) = 0 -> buf' = buf).
Proof.
  intros r. subst r. unfold readToday.
  destruct ((maxn <=? 0) || negb (wifi_connected w) || (len url =? 0)) eqn:G.
  { cbn [fst snd]. split; [unfold kUiNeededItems; lia|]. exists buf. auto. }
  assert (Hm : 1 <= maxn).
  { destruct (Z.leb_spec maxn 0) as [H|H]; [discriminate G|lia]. }
  assert (Hfail : forall l : list Request,
             0 <= fst (fst (0, Some buf, l)) <= Z.max 0 (Z.min maxn kUiNeededItems)
             /\ exists buf',
                  snd (fst (0, Some buf, l)) = Some buf' /\ length buf' = length buf
                  /\ (fst (fst (0, Some buf, l)) = 0 -> buf' = buf)).
  { intros l. cbn [fst snd]. split; [unfold kUiNeededItems; lia|]. exists buf. auto. }
  destruct (begin_ok w url) eqn:Hb;
    [|rewrite (fetchAndParse_begin_fails mktime localtime_r w url buf maxn true log Hb);
      apply Hfail].
  destruct (statusOk (http_code (attempt w true))) eqn:Hc;
    [|rewrite (fetchAndParse_status_fails mktime localtime_r w url buf maxn true log Hb Hc);
      apply Hfail].
  rewrite (fetchAndParse_ok mktime localtime_r w url buf maxn true log Hb Hc).
  destruct (parseBody_invariant (attempt w true) buf maxn Hm) as (H1 & H2 & H3).
  set (st := parseBody mktime localtime_r (attempt w true) buf maxn) in *.
  replace (filled st >=? 0) with true
    by (symmetry; rewrite Z.geb_leb; apply Z.leb_le; lia).
  rewrite Z.gtb_ltb. destruct (Z.ltb_spec 0 (filled st)) as [Hpos|Hzero].
  { cbn [fst snd]. split; [lia|]. exists (out st).
    split; [reflexivity|]. split; [exact H2|lia]. }
  assert (Hst : out st = buf) by (apply H3; lia).
  rewrite Hst.
  destruct (statusOk (http_code (attempt w false))) eqn:Hc2;
    [|rewrite (fetchAndParse_status_fails mktime localtime_r w url buf maxn false _ Hb Hc2);
      apply Hfail].
  rewrite (fetchAndParse_ok mktime localtime_r w url buf maxn false _ Hb Hc2).
  destruct (parseBody_invariant (attempt w false) buf maxn Hm) as (K1 & K2 & K3).
  set (st2 := parseBody mktime localtime_r (attempt w false) buf maxn) in *.
  replace (filled st2 <? 0) with false by (symmetry; apply Z.ltb_ge; lia).
  cbn [fst snd]. split; [lia|]. exists (out st2). auto.
Qed.

(** X15. The requests of the provider go to the URL it holds. A provider
    fresh from the factory, or one whose URL was last set to the null
    pointer or to the empty string, returns 0 without a request and leaves
    the array alone. After [setUrl] with a string, a call issues no request,
    the tail request, or the tail request and then the full request, each
    for that string. *)
Theorem provider_requests_use_url (w : World) (out : option (list CalItem))
    (maxn : Z) (log : list Request) :
  (forall insecure,
      providerReadToday mktime localtime_r (makeIcsCalendarProvider insecure)
        w out maxn log = (0, out, log))
  /\ (forall this,
        providerReadToday mktime localtime_r (setUrl this None) w out maxn log
        = (0, out, log)
        /\ providerReadToday mktime localtime_r (setUrl this (Some [])) w out maxn log
           = (0, out, log))
  /\ (forall this u,
        let r := providerReadToday mktime localtime_r (setUrl this (Some u))
                   w out maxn log in
        snd r = log \/ snd r = log ++ [tailRequest (cstr u)]
        \/ snd r = log ++ [tailRequest (cstr u); fullRequest (cstr u)]).
Proof.
  assert (Hempty : forall p, url_ p = [] ->
             providerReadToday mktime localtime_r p w out maxn log = (0, out, log)).
  { intros p Hp. unfold providerReadToday, readToday. rewrite Hp.
    destruct out as [buf|]; [|reflexivity].
    cbn [len length Z.of_nat Z.eqb]. rewrite orb_true_r. reflexivity. }
  split; [intros insecure; apply Hempty; reflexivity|].
  split; [intros this; split; apply Hempty; reflexivity|].
  intros this u r. subst r. unfold providerReadToday. cbn [setUrl url_].
  destruct (readToday_requests w (cstr u) out maxn log) as (new & -> & Hnew & _).
  destruct Hnew as [-> | [-> | ->]]; [left; apply app_nil_r|auto..].
Qed.

End FetchOutcome.

(** ** The event state machine over whole documents *)

Section EventMachine.

Variable mktime : tm -> Z.
Variables nowUTC ofs : Z.

#[local] Abbreviation step := (flushLogicalVars mktime nowUTC ofs).
#[local] Abbreviation rows := (qualifyingRows mktime nowUTC ofs).
#[local] Abbreviation after :=
  (fold_left (fun p l => fst (flushLogicalVars mktime nowUTC ofs l p))).

Lemma qualifyingRows_app a b :
  forall p, rows p (a ++ b) = rows p a ++ rows (after a p) b.
Proof.
  induction a as [|l a IH]; intros p; [reflexivity|].
  cbn [app qualifyingRows fold_left].
  destruct (step l p) as [p' [row|]]; cbn [fst]; rewrite IH; reflexivity.
Qed.

(** A line writes no row unless an event is open and not cancelled. *)
Lemma flushLogicalVars_no_row ln p :
  inEvent p = false \/ cancelled p = true \/ inAlarm p = true ->
  snd (step ln p) = None.
Proof.
  intros H. destruct (snd (step ln p)) as [row|] eqn:E; [|reflexivity].
  apply flushLogicalVars_row in E. destruct E as (_ & _ & Ha & He & Hc & _).
  destruct H as [H|[H|H]]; congruence.
Qed.

(** Only a BEGIN:VEVENT line opens an event or clears the cancelled flag. *)
Lemma flushLogicalVars_keeps_closed ln p :
  ln <> list_ascii_of_string "BEGIN:VEVENT" ->
  (inEvent p = false -> inEvent (fst (step ln p)) = false)
  /\ (cancelled p = true -> cancelled (fst (step ln p)) = true).
Proof.
  intros Hn. unfold flushLogicalVars. rewrite (equals_false _ _ Hn).
  split; intros H; repeat (case_if; cbn [fst inEvent cancelled]; auto).
Qed.

Lemma rows_closed lines :
  forall p,
    inEvent p = false \/ cancelled p = true ->
    Forall (fun l => l <> list_ascii_of_string "BEGIN:VEVENT") lines ->
    rows p lines = [].
Proof.
  induction lines as [|l lines IH]; intros p Hp Hl; [reflexivity|].
  apply Forall_cons in Hl. destruct Hl as [Hn Hl].
  cbn [qualifyingRows].
  assert (Hrow : snd (step l p) = None)
    by (apply flushLogicalVars_no_row; tauto).
  destruct (flushLogicalVars_keeps_closed l p Hn) as [He Hc].
  destruct (step l p) as [p' row]. cbn [fst snd] in *. subst row.
  apply IH; [tauto|exact Hl].
Qed.

(** What a line starting with "STATUS:" does. *)
Lemma flushLogicalVars_STATUS ln p :
  startsWith ln "STATUS:"%string = true -> inAlarm p = false ->
  step ln p
  = (if inEvent p && (indexOfStr "CANCELLED"%string ln >=? 0)
     then {| inEvent := inEvent p; inAlarm := inAlarm p; cancelled := true;
             cur := cur p |}
     else p, None).
Proof.
  intros H Ha. destruct ln as [|c [|c' ln]]; try discriminate H.
  - cbn [startsWith list_ascii_of_string] in H. rewrite andb_false_r in H.
    discriminate H.
  - pose proof H as H'. cbn [startsWith list_ascii_of_string] in H'.
    apply andb_true_iff in H'. destruct H' as [Hc H'].
    apply andb_true_iff in H'. destruct H' as [Hc' _].
    apply Ascii.eqb_eq in Hc, Hc'. subst c c'.
    unfold flushLogicalVars. rewrite H, Ha.
    rewrite !equals_false by discriminate.
    destruct (inEvent p); cbn [negb andb]; [|reflexivity].
    change (startsWith ("S"%char :: "T"%char :: ln) "DTSTART"%string) with false.
    change (startsWith ("S"%char :: "T"%char :: ln) "DTEND"%string) with false.
    change (startsWith ("S"%char :: "T"%char :: ln) "BEGIN:VALARM"%string) with false.
    change (startsWith ("S"%char :: "T"%char :: ln) "END:VALARM"%string) with false.
    cbv iota. destruct (_ >=? 0); reflexivity.
Qed.

(** X16. Once a STATUS line holding CANCELLED has been read outside an alarm,
    no row is written until the next BEGIN:VEVENT line: the fields read
    before or after it do not matter, nor where in the line the word is. *)
Theorem cancelled_event_not_emitted (p : ParseVars) (status : Str) (rest : list Str) :
  inAlarm p = false ->
  startsWith status "STATUS:"%string = true ->
  0 <= indexOfStr "CANCELLED"%string status ->
  Forall (fun l => l <> list_ascii_of_string "BEGIN:VEVENT") rest ->
  rows p (status :: rest) = [].
Proof.
  intros Ha Hs Hc Hrest. cbn [qualifyingRows].
  rewrite (flushLogicalVars_STATUS status p Hs Ha).
  replace (indexOfStr "CANCELLED"%string status >=? 0) with true
    by (symmetry; rewrite Z.geb_leb; apply Z.leb_le; exact Hc).
  apply rows_closed; [|exact Hrest].
  destruct (inEvent p) eqn:He; cbn [andb cancelled]; auto.
Qed.

(** The state between events is kept by lines that open neither an event
    nor an alarm. *)
Lemma after_outside lines :
  forall p,
    inEvent p = false -> inAlarm p = false ->
    Forall (fun l => l <> list_ascii_of_string "BEGIN:VEVENT"
                     /\ startsWith l "BEGIN:VALARM"%string = false) lines ->
    inEvent (after lines p) = false /\ inAlarm (after lines p) = false.
Proof.
  induction lines as [|l lines IH]; intros p He Ha Hl; [auto|].
  apply Forall_cons in Hl. destruct Hl as [[Hn Hb] Hl].
  cbn [fold_left]. apply IH; [| |exact Hl].
  - apply flushLogicalVars_keeps_closed; assumption.
  - unfold flushLogicalVars. rewrite Hb, Ha, He, (equals_false _ _ Hn).
    repeat (case_if; cbn [fst inAlarm negb]; auto).
Qed.

(** X17. The head of a document up to its first BEGIN:VEVENT line, such as
    the rest of an event cut by a tail request, writes no row and has no
    effect on the rows of the events that follow, provided it opens no
    alarm. *)
Theorem head_fragment_ignored (pre rest : list Str) :
  Forall (fun l => l <> list_ascii_of_string "BEGIN:VEVENT"
                   /\ startsWith l "BEGIN:VALARM"%string = false) pre ->
  rows initialVars (pre ++ rest) = rows initialVars rest.
Proof.
  intros Hpre. rewrite qualifyingRows_app.
  rewrite rows_closed;
    [|left; reflexivity|eapply Forall_impl; [exact Hpre|intros l [H _]; exact H]].
  destruct (after_outside pre initialVars eq_refl eq_refl Hpre) as [He Ha].
  cbn [app]. apply qualifyingRows_outside_event; [exact He|reflexivity|exact Ha].
Qed.

(** Inside an alarm the state is kept until a line starts with END:VALARM,
    and no row is written. *)
Lemma rows_in_alarm inner :
  forall p tl,
    inAlarm p = true ->
    Forall (fun l => startsWith l "END:VALARM"%string = false) inner ->
    rows p (inner ++ tl) = rows p tl.
Proof.
  induction inner as [|l inner IH]; intros p tl Ha Hl; [reflexivity|].
  apply Forall_cons in Hl. destruct Hl as [Hn Hl].
  cbn [app qualifyingRows].
  assert (E : step l p = (p, None)).
  { unfold flushLogicalVars. rewrite Hn, Ha.
    destruct p as [e a c ev]. cbn in Ha. subst a.
    destruct (startsWith l "BEGIN:VALARM"%string); reflexivity. }
  rewrite E. apply IH; assumption.
Qed.

(** X18. A complete alarm block, from a line starting with BEGIN:VALARM to
    the first line starting with END:VALARM, can be taken out of a document
    without a change to the rows, whatever its lines are, event boundaries
    included. *)
Theorem alarm_block_transparent (p : ParseVars) (first last : Str)
    (inner rest : list Str) :
  inAlarm p = false ->
  startsWith first "BEGIN:VALARM"%string = true ->
  Forall (fun l => startsWith l "END:VALARM"%string = false) inner ->
  startsWith last "END:VALARM"%string = true ->
  rows p (first :: inner ++ last :: rest) = rows p rest.
Proof.
  intros Ha Hf Hin Hl.
  destruct p as [e a c ev]. cbn in Ha. subst a.
  cbn [qualifyingRows]. unfold flushLogicalVars at 1. rewrite Hf.
  cbn [inEvent cancelled cur].
  rewrite rows_in_alarm by (auto; reflexivity).
  cbn [qualifyingRows]. unfold flushLogicalVars at 1. rewrite Hl.
  assert (Hb : startsWith last "BEGIN:VALARM"%string = false).
  { destruct last as [|c0 last]; [reflexivity|].
    cbn [startsWith list_ascii_of_string] in Hl |- *.
    apply andb_true_iff in Hl. destruct Hl as [Hc _].
    apply Ascii.eqb_eq in Hc. subst c0. reflexivity. }
  rewrite Hb. reflexivity.
Qed.

(** X19. Every row of a document has a title of 1 to 39 characters and a
    time of the 11 characters "HH:MM-HH:MM": an event without a summary or
    without a positive start never reaches the array, and the placeholder
    for an unset time is never shown. *)
Theorem rows_have_title_and_time (lines : list Str) :
  forall p,
    Forall (fun row => (1 <= length (title row) <= 39)%nat
                       /\ isTimeRange (time row)
                       /\ length (time row) = 11%nat)
      (rows p lines).
Proof.
  induction lines as [|l lines IH]; intros p; [constructor|].
  cbn [qualifyingRows].
  destruct (step l p) as [p' [row|]] eqn:E; [|apply IH].
  constructor; [|apply IH].
  assert (Hrow : snd (step l p) = Some row) by (rewrite E; reflexivity).
  apply flushLogicalVars_row in Hrow.
  destruct Hrow as (-> & _ & _ & _ & _ & Hs & Hsum & _).
  pose proof (uiItem_time ofs (cur p) Hs) as Ht.
  split; [|split].
  - rewrite uiItem_title. unfold titleSpec. rewrite length_take, length_app.
    destruct (icsUnescape (summary (cur p))) as [|c r] eqn:Eu.
    + apply (proj1 (icsUnescape_nil_iff _)) in Eu. rewrite Eu in Hsum.
      unfold len in Hsum. cbn in Hsum. lia.
    + cbn [length]. lia.
  - eexists _, _, _, _. repeat split; [..|exact Ht];
      first [apply gmtime_r_hour | apply gmtime_r_min].
  - rewrite Ht. reflexivity.
Qed.

(** X20. The event boundaries are matched as whole lines: a BEGIN:VEVENT or
    END:VEVENT line followed by any further character, a trailing blank for
    one, is not a boundary and leaves the state as it was. *)
Theorem event_boundaries_exact (c : ascii) (x : Str) (p : ParseVars) :
  step (list_ascii_of_string "BEGIN:VEVENT" ++ c :: x) p = (p, None)
  /\ step (list_ascii_of_string "END:VEVENT" ++ c :: x) p = (p, None).
Proof.
  split.
  - unfold flushLogicalVars.
    change (startsWith (list_ascii_of_string "BEGIN:VEVENT" ++ c :: x)
              "BEGIN:VALARM"%string) with false.
    change (startsWith (list_ascii_of_string "BEGIN:VEVENT" ++ c :: x)
              "END:VALARM"%string) with false.
    change (startsWith (list_ascii_of_string "BEGIN:VEVENT" ++ c :: x)
              "DTSTART"%string) with false.
    change (startsWith (list_ascii_of_string "BEGIN:VEVENT" ++ c :: x)
              "DTEND"%string) with false.
    change (startsWith (list_ascii_of_string "BEGIN:VEVENT" ++ c :: x)
              "STATUS:"%string) with false.
    change (startsWith (list_ascii_of_string "BEGIN:VEVENT" ++ c :: x)
              "SUMMARY:"%string) with false.
    change (startsWith (list_ascii_of_string "BEGIN:VEVENT" ++ c :: x)
              "LOCATION:"%string) with false.
    rewrite !equals_false by (cbn; discriminate).
    cbv iota. destruct (inAlarm p), (inEvent p); reflexivity.
  - unfold flushLogicalVars.
    change (startsWith (list_ascii_of_string "END:VEVENT" ++ c :: x)
              "BEGIN:VALARM"%string) with false.
    change (startsWith (list_ascii_of_string "END:VEVENT" ++ c :: x)
              "END:VALARM"%string) with false.
    change (startsWith (list_ascii_of_string "END:VEVENT" ++ c :: x)
              "DTSTART"%string) with false.
    change (startsWith (list_ascii_of_string "END:VEVENT" ++ c :: x)
              "DTEND"%string) with false.
    change (startsWith (list_ascii_of_string "END:VEVENT" ++ c :: x)
              "STATUS:"%string) with false.
    change (startsWith (list_ascii_of_string "END:VEVENT" ++ c :: x)
              "SUMMARY:"%string) with false.
    change (startsWith (list_ascii_of_string "END:VEVENT" ++ c :: x)
              "LOCATION:"%string) with false.
    rewrite !equals_false by (cbn; discriminate).
    cbv iota. destruct (inAlarm p), (inEvent p); reflexivity.
Qed.

(** X21. An event of a DTSTART stamp with its fields in range and a
    SUMMARY, without DTEND: it gives one row exactly when the instant of the
    stamp is positive, the summary is not empty and the instant lies on the
    local day of [nowUTC]; the row shows the unescaped summary cut to 39
    characters and the local time of the start on both sides of the dash.
    The events that follow are read as from the beginning. *)
Theorem stamped_event_row (params d t summ : Str) (zulu : bool)
    (rest : list Str) (p0 : ParseVars) :
  ":"%char ∉ params -> isStamp d t ->
  fieldsInRange (toInt (substring 4 6 d)) (toInt (substring 6 8 d))
    (toInt (substring 0 2 t)) (toInt (substring 2 4 t))
    (toInt (substring 4 6 t)) = true ->
  inAlarm p0 = false ->
  let s := if zulu then timegm (stampTm d t) else mktime (stampTm d t) in
  let shown := hhmm (tm_hour (gmtime_r (s + ofs))) (tm_min (gmtime_r (s + ofs))) in
  rows p0
    (list_ascii_of_string "BEGIN:VEVENT"
     :: ((list_ascii_of_string "DTSTART" ++ params) ++ ":"%char :: d ++ "T"%char :: t
         ++ (if zulu then ["Z"%char] else []))
     :: (list_ascii_of_string "SUMMARY:" ++ summ)
     :: list_ascii_of_string "END:VEVENT" :: rest)
  = (if (0 <? s) && (0 <? len summ) && spansToday s 0 nowUTC ofs
     then [{| title := take 39 (icsUnescape summ);
              time := shown ++ "-"%char :: shown |}]
     else [])
    ++ rows initialVars rest.
Proof.
  intros Hc Hs Hr Ha s shown.
  assert (Hn : ":"%char ∉ list_ascii_of_string "DTSTART" ++ params).
  { apply not_elem_of_app. split; [|exact Hc].
    apply (bool_decide_unpack _). vm_compute. exact I. }
  pose proof (parseICSTime_stamp mktime _ d t zulu 0 Hn Hs) as Hparse.
  rewrite Hr in Hparse. cbv zeta in Hparse. fold s in Hparse.
  set (line := (list_ascii_of_string "DTSTART" ++ params) ++ _) in *.
  cbn [qualifyingRows].
  replace (step (list_ascii_of_string "BEGIN:VEVENT") p0)
    with ({| inEvent := true; inAlarm := false; cancelled := false;
             cur := newCalendarEvent |}, @None CalItem)
    by (unfold flushLogicalVars; rewrite Ha; reflexivity).
  assert (Hb : startsWith line "DTSTART"%string = true) by (unfold line; reflexivity).
  rewrite (flushLogicalVars_DTSTART mktime nowUTC ofs line
             {| inEvent := true; inAlarm := false; cancelled := false;
                cur := newCalendarEvent |} Hb eq_refl eq_refl).
  cbn [cur start newCalendarEvent]. rewrite Hparse. cbn [snd inEvent inAlarm cancelled].
  assert (Hsum : startsWith (list_ascii_of_string "SUMMARY:" ++ summ) "SUMMARY:"%string
                 = true) by reflexivity.
  rewrite (flushLogicalVars_SUMMARY mktime nowUTC ofs _
             {| inEvent := true; inAlarm := false; cancelled := false;
                cur := setStart newCalendarEvent s |} Hsum eq_refl eq_refl).
  change (substringFrom 8 (list_ascii_of_string "SUMMARY:" ++ summ)) with summ.
  cbn [cur inEvent inAlarm cancelled].
  set (ev := setSummary (setStart newCalendarEvent s) summ).
  replace (step (list_ascii_of_string "END:VEVENT")
             {| inEvent := true; inAlarm := false; cancelled := false; cur := ev |})
    with ({| inEvent := false; inAlarm := false; cancelled := false; cur := ev |},
          if (s >? 0) && (0 <? len summ)
          then if spansToday s 0 nowUTC ofs then Some (uiItem ofs ev) else None
          else None)
    by reflexivity.
  assert (Hrest : rows {| inEvent := false; inAlarm := false; cancelled := false;
                          cur := ev |} rest
                  = rows initialVars rest)
    by (apply qualifyingRows_outside_event; reflexivity).
  rewrite Z.gtb_ltb.
  destruct (Z.ltb_spec 0 s) as [Hpos|Hneg]; cbn [andb]; [|exact Hrest].
  destruct (0 <? len summ); cbn [andb]; [|exact Hrest].
  destruct (spansToday s 0 nowUTC ofs); [|exact Hrest].
  rewrite Hrest. cbn [app]. f_equal.
  change (uiItem ofs ev)
    with {| title := title (uiItem ofs ev); time := time (uiItem ofs ev) |}.
  rewrite uiItem_title, (uiItem_time ofs ev Hpos).
  unfold titleSpec. cbn [ev summary location start end_ setSummary setStart
                           newCalendarEvent].
  rewrite app_nil_r. replace (Z.max 0 s) with s by lia. reflexivity.
Qed.

End EventMachine.

Lemma fetchAndParse_outcome_witness :
  1 <= 3
  /\ length (snd (fst (fetchAndParse mktimePlus2 localtimePlus2 worldTailEmpty
                         sampleUrl [blankItem; blankItem; blankItem] 3 false [])))
     = 3%nat.
Proof.
  split; [lia|].
  pose proof (fetchAndParse_outcome mktimePlus2 localtimePlus2 worldTailEmpty
                sampleUrl [blankItem; blankItem; blankItem] 3 false []
                ltac:(lia)) as H.
  cbv zeta in H. exact (proj1 (proj2 H)).
Defined.

(** A cancelled event of the sample day, and the rest of an event that a
    tail request has cut, before a complete one. *)
Lemma cancelled_event_not_emitted_witness :
  qualifyingRows mktimePlus2 sampleNow 7200
    {| inEvent := true; inAlarm := false; cancelled := false;
       cur := newCalendarEvent |}
    [list_ascii_of_string "STATUS:CANCELLED";
     list_ascii_of_string "DTSTART:20240610T143000Z";
     list_ascii_of_string "SUMMARY:Review";
     list_ascii_of_string "END:VEVENT"]
  = [].
Proof.
  exact (cancelled_event_not_emitted mktimePlus2 sampleNow 7200
           {| inEvent := true; inAlarm := false; cancelled := false;
              cur := newCalendarEvent |}
           (list_ascii_of_string "STATUS:CANCELLED")
           [list_ascii_of_string "DTSTART:20240610T143000Z";
            list_ascii_of_string "SUMMARY:Review";
            list_ascii_of_string "END:VEVENT"]
           eq_refl eq_refl ltac:(vm_compute; discriminate)
           ltac:(repeat (apply Forall_cons; split; [discriminate|]);
                 apply Forall_nil; exact I)).
Defined.

Lemma head_fragment_ignored_witness :
  qualifyingRows mktimePlus2 sampleNow 7200 initialVars
    ([list_ascii_of_string "SUMMARY:Cut";
      list_ascii_of_string "END:VEVENT"]
     ++ [list_ascii_of_string "BEGIN:VEVENT";
         list_ascii_of_string "DTSTART:20240610T143000Z";
         list_ascii_of_string "SUMMARY:Review";
         list_ascii_of_string "END:VEVENT"])
  = [{| title := list_ascii_of_string "Review";
        time := list_ascii_of_string "16:30-16:30" |}].
Proof.
  etransitivity.
  - exact (head_fragment_ignored mktimePlus2 sampleNow 7200
             [list_ascii_of_string "SUMMARY:Cut";
              list_ascii_of_string "END:VEVENT"]
             [list_ascii_of_string "BEGIN:VEVENT";
              list_ascii_of_string "DTSTART:20240610T143000Z";
              list_ascii_of_string "SUMMARY:Review";
              list_ascii_of_string "END:VEVENT"]
             ltac:(repeat (apply Forall_cons; split;
                           [split; [discriminate|reflexivity]|]);
                   apply Forall_nil; exact I)).
  - vm_compute. reflexivity.
Defined.

(** An alarm block holding an END:VEVENT line, inside an event. *)
Lemma alarm_block_transparent_witness :
  qualifyingRows mktimePlus2 sampleNow 7200 sampleVars
    (list_ascii_of_string "BEGIN:VALARM"
     :: [list_ascii_of_string "TRIGGER:-PT10M";
         list_ascii_of_string "END:VEVENT"]
     ++ list_ascii_of_string "END:VALARM"
     :: [list_ascii_of_string "END:VEVENT"])
  = qualifyingRows mktimePlus2 sampleNow 7200 sampleVars
      [list_ascii_of_string "END:VEVENT"].
Proof.
  exact (alarm_block_transparent mktimePlus2 sampleNow 7200 sampleVars
           (list_ascii_of_string "BEGIN:VALARM")
           (list_ascii_of_string "END:VALARM")
           [list_ascii_of_string "TRIGGER:-PT10M";
            list_ascii_of_string "END:VEVENT"]
           [list_ascii_of_string "END:VEVENT"]
           eq_refl eq_refl
           ltac:(repeat (apply Forall_cons; split; [reflexivity|]);
                 apply Forall_nil; exact I)
           eq_refl).
Defined.

Lemma stamped_event_row_witness :
  qualifyingRows mktimePlus2 sampleNow 7200 initialVars
    [list_ascii_of_string "BEGIN:VEVENT";
     list_ascii_of_string "DTSTART;TZID=Europe/Berlin:20240610T163000";
     list_ascii_of_string "SUMMARY:Review\, part 2";
     list_ascii_of_string "END:VEVENT"]
  = [{| title := list_ascii_of_string "Review, part 2";
        time := list_ascii_of_string "16:30-16:30" |}].
Proof.
  etransitivity.
  - exact (stamped_event_row mktimePlus2 sampleNow 7200
             (list_ascii_of_string ";TZID=Europe/Berlin")
             (list_ascii_of_string "20240610") (list_ascii_of_string "163000")
             (list_ascii_of_string "Review\, part 2") false [] initialVars
             ltac:(apply (bool_decide_unpack _); vm_compute; exact I)
             ltac:(repeat split; repeat (apply Forall_cons; split; [reflexivity|]);
                   apply Forall_nil; exact I)
             ltac:(vm_compute; reflexivity) eq_refl).
  - vm_compute. reflexivity.
Defined.

(** * The date and time formatters and the clock widget *)

Section Formatters.

Lemma array_at_Forall {A : Type} (P : A -> Prop) (a : list A) (i : Z) :
  Forall P a -> 0 <= i < Z.of_nat (length a) ->
  exists x, array_at a i = Some x /\ P x.
Proof.
  intros HP Hi. unfold array_at.
  replace (i <? 0) with false by (symmetry; apply Z.ltb_ge; lia).
  destruct (lookup_lt_is_Some_2 a (Z.to_nat i) ltac:(lia)) as [x Hx].
  exists x. split; [exact Hx|].
  rewrite Forall_lookup in HP. exact (HP _ _ Hx).
Qed.

Lemma fmt_02d_length z : 0 <= z < 100 -> length (fmt_02d z) = 2%nat.
Proof. intros H. rewrite fmt_02d_twoDigits by exact H. reflexivity. Qed.

Lemma fmt_04d_length z : 0 <= z <= 9999 -> length (fmt_04d z) = 4%nat.
Proof.
  intros H.
  assert (C : forallb (fun n => (length (fmt_04d (Z.of_nat n)) =? 4)%nat)
                (seq 0 (Z.to_nat 10000)) = true) by (vm_compute; reflexivity).
  rewrite forallb_forall in C.
  assert (C' := C (Z.to_nat z) ltac:(apply in_seq; lia)).
  apply Nat.eqb_eq in C'. rewrite Z2Nat.id in C' by lia. exact C'.
Qed.

Lemma fmt_2d_dial z :
  1 <= z <= 12 ->
  fmt_2d z = if z <? 10 then [" "%char; digitChar z] else twoDigits z.
Proof.
  intros H.
  assert (C : forallb (fun n => bool_decide
                         (fmt_2d (Z.of_nat n)
                          = if Z.of_nat n <? 10 then [" "%char; digitChar (Z.of_nat n)]
                            else twoDigits (Z.of_nat n)))
                (seq 1 12) = true) by (vm_compute; reflexivity).
  rewrite forallb_forall in C.
  assert (C' := C (Z.to_nat z) ltac:(apply in_seq; lia)).
  apply bool_decide_eq_true in C'. rewrite Z2Nat.id in C' by lia. exact C'.
Qed.

Lemma snprintf_fits (n : nat) (text : Str) :
  (length text < n)%nat -> snprintf n text = text.
Proof. intros H. unfold snprintf. apply take_ge. lia. Qed.

(** The text of [formatTime] for the formatter of a configuration. *)
Lemma formatTime_text (gConfig : AppConfig) (lt : tm_clock) (n : nat) :
  0 <= tm_hour (tm_fields lt) <= 23 -> 0 <= tm_min (tm_fields lt) <= 59 ->
  (6 <= n)%nat ->
  formatTime (makeFormatterStatic gConfig) gConfig n lt
  = timeText gConfig (tm_hour (tm_fields lt)) (tm_min (tm_fields lt)).
Proof.
  intros Hh Hm Hn.
  assert (H24 : snprintf n (fmt_02d (tm_hour (tm_fields lt)) ++ ":"%char
                            :: fmt_02d (tm_min (tm_fields lt)))
                = hhmm (tm_hour (tm_fields lt)) (tm_min (tm_fields lt))).
  { rewrite !fmt_02d_twoDigits by lia. apply snprintf_fits. cbn. lia. }
  destruct gConfig as [[|] u]; unfold makeFormatterStatic, timeText, shows24h;
    cbn [dateLocale use24h formatTime GermanDateTimeFormatter
         EnglishDateTimeFormatter]; [|exact H24].
  destruct u; [exact H24|]. cbv zeta.
  set (h := tm_hour (tm_fields lt)) in *.
  assert (E : (if Z.rem h 12 =? 0 then 12 else Z.rem h 12) = (h + 11) mod 12 + 1).
  { rewrite Z.rem_mod_nonneg by lia.
    destruct (Z.eqb_spec (h mod 12) 0); Z.div_mod_to_equations; lia. }
  rewrite E. unfold time12. cbv zeta.
  rewrite fmt_2d_dial by (Z.div_mod_to_equations; lia).
  rewrite fmt_02d_twoDigits by lia.
  apply snprintf_fits. destruct (_ <? 10); cbn; lia.
Qed.

(** X22. For a broken-down time with its fields in their ranges and a year
    of four digits, [formatDate] of the formatter that the configuration
    selects reads inside its tables, and its text is never cut by the
    40-byte buffer of the clock: it has at most 22 characters (exactly 16
    in the English form), and any buffer of 23 bytes or more gives the same
    text. *)
Theorem formatDate_fits (gConfig : AppConfig) (lt : tm_clock) (n : nat) :
  validTm lt -> (23 <= n)%nat ->
  exists s,
    formatDate (makeFormatterStatic gConfig) gConfig n lt = Some s
    /\ formatDate (makeFormatterStatic gConfig) gConfig 40 lt = Some s
    /\ (12 <= length s <= 22)%nat
    /\ (dateLocale gConfig = EN -> length s = 16%nat).
Proof.
  intros (Hw & Hmo & Hd & Hy & _ & _) Hn.
  pose proof (fmt_02d_length (tm_mday (tm_fields lt)) ltac:(lia)) as Ld.
  pose proof (fmt_02d_length (tm_mon (tm_fields lt) + 1) ltac:(lia)) as Lm.
  pose proof (fmt_04d_length (tm_year (tm_fields lt) + 1900) Hy) as Ly.
  destruct gConfig as [[|] u]; unfold makeFormatterStatic;
    cbn [dateLocale formatDate GermanDateTimeFormatter EnglishDateTimeFormatter].
  - destruct (array_at_Forall (fun x : Str => length x = 3%nat) WD_English (tm_wday lt))
      as (wd & -> & Lw);
      [repeat (apply Forall_cons; split; [reflexivity|]); apply Forall_nil; exact I
      |cbn; lia|].
    destruct (array_at_Forall (fun x : Str => length x = 3%nat) MO_English
                (tm_mon (tm_fields lt)))
      as (mo & -> & Lo);
      [repeat (apply Forall_cons; split; [reflexivity|]); apply Forall_nil; exact I
      |cbn; lia|].
    set (text := wd ++ _).
    assert (Lt : length text = 16%nat).
    { unfold text.
      repeat progress (rewrite ?length_app; cbn [length list_ascii_of_string]).
      lia. }
    exists text. rewrite !snprintf_fits by lia. repeat split; lia.
  - destruct (array_at_Forall (fun x : Str => (0 <= length x <= 10)%nat) WD_German
                (tm_wday lt))
      as (wd & -> & Lw);
      [repeat (apply Forall_cons; split; [cbn; lia|]); apply Forall_nil; exact I
      |cbn; lia|].
    set (text := wd ++ _).
    assert (Lt : (12 <= length text <= 22)%nat).
    { unfold text.
      repeat progress (rewrite ?length_app; cbn [length list_ascii_of_string]).
      lia. }
    exists text. rewrite !snprintf_fits by lia.
    split; [reflexivity|]. split; [reflexivity|]. split; [exact Lt|discriminate].
Qed.

(** X23. [formatTime] of the formatter that the configuration selects, for
    an hour from 0 to 23 and a minute from 0 to 59, in a buffer of at least
    6 bytes: the text has 5 characters; it is the 24-hour "HH:MM" for the
    German locale, whatever [use24h] says, and for the English locale with
    [use24h]; otherwise it is the hour of the 12-hour dial, from 1 to 12 and
    padded with a blank, and the minute, with no mark for the half of the
    day, so that the text twelve hours later is the same. *)
Theorem formatTime_dial (gConfig : AppConfig) (lt lt' : tm_clock) (n : nat) :
  0 <= tm_hour (tm_fields lt) <= 23 -> 0 <= tm_min (tm_fields lt) <= 59 ->
  (6 <= n)%nat ->
  let f := makeFormatterStatic gConfig in
  length (formatTime f gConfig n lt) = 5%nat
  /\ formatTime f gConfig n lt
     = (if shows24h gConfig
        then hhmm (tm_hour (tm_fields lt)) (tm_min (tm_fields lt))
        else time12 (tm_hour (tm_fields lt)) (tm_min (tm_fields lt)))
  /\ (shows24h gConfig = false ->
      tm_hour (tm_fields lt') = (tm_hour (tm_fields lt) + 12) mod 24 ->
      tm_min (tm_fields lt') = tm_min (tm_fields lt) ->
      formatTime f gConfig n lt' = formatTime f gConfig n lt).
Proof.
  intros Hh Hm Hn f. subst f.
  rewrite (formatTime_text gConfig lt n Hh Hm Hn).
  split; [|split].
  - unfold timeText, time12. cbv zeta.
    destruct (shows24h gConfig); [reflexivity|]. destruct (_ <? 10); reflexivity.
  - reflexivity.
  - intros H12 Hh' Hm'.
    rewrite (formatTime_text gConfig lt' n) by
      (rewrite ?Hh', ?Hm'; try exact Hn; Z.div_mod_to_equations; lia).
    unfold timeText. rewrite H12, Hh', Hm'. unfold time12.
    replace (((tm_hour (tm_fields lt) + 12) mod 24 + 11) mod 12)
      with ((tm_hour (tm_fields lt) + 11) mod 12)
      by (Z.div_mod_to_equations; lia).
    reflexivity.
Qed.

End Formatters.

Section ClockTicks.

Import ClockWidget.

Variable Font16_Height : Z.
Variable gConfig : AppConfig.
Variable now : nat -> tm_clock.

Lemma digitChar_not_NUL d : 0 <= d <= 9 -> digitChar d <> zero.
Proof.
  intros H.
  assert (C : forallb (fun n => negb (Ascii.eqb (digitChar (Z.of_nat n)) zero))
                (seq 0 10) = true) by (vm_compute; reflexivity).
  rewrite forallb_forall in C.
  assert (C' := C (Z.to_nat d) ltac:(apply in_seq; lia)).
  rewrite Z2Nat.id in C' by lia.
  apply negb_true_iff, Ascii.eqb_neq in C'. exact C'.
Qed.

Lemma timeText_chars h m :
  0 <= h <= 23 -> 0 <= m <= 59 ->
  exists c1 c2 c3 c4 c5,
    timeText gConfig h m = [c1; c2; c3; c4; c5]
    /\ zero ∉ [c1; c2; c3; c4; c5].
Proof.
  intros Hh Hm.
  assert (D : forall d, 0 <= d <= 9 -> zero <> digitChar d)
    by (intros d Hd E; exact (digitChar_not_NUL d Hd (eq_sym E))).
  unfold timeText, time12, hhmm, twoDigits. cbv zeta.
  destruct (shows24h gConfig); [|destruct (_ <? 10) eqn:E10];
    cbn [app]; eexists _, _, _, _, _; (split; [reflexivity|]);
    repeat (apply not_elem_of_cons; split;
            [first [discriminate
                   |apply D; try apply Z.ltb_lt in E10; Z.div_mod_to_equations; lia]|]);
    apply not_elem_of_nil.
Qed.

(** X24. The clock is drawn once per minute: when, from a call of [begin]
    or of [tick] on, the minute and the day of the year of the readings
    stay what they are, the next call of [tick] reads the clock once, draws
    nothing and leaves the widget as it is, whether the first call has
    drawn or not. *)
Theorem tick_once_per_minute (this this1 : EpdClockWidget) (d d1 : Device) :
  begin Font16_Height gConfig now this d = Some (this1, d1)
  \/ tick Font16_Height gConfig now this d = Some (this1, d1) ->
  (forall k, (reads d <= k)%nat ->
     tm_min (tm_fields (now k)) = tm_min (tm_fields (now (reads d)))
     /\ tm_yday (now k) = tm_yday (now (reads d))) ->
  tick Font16_Height gConfig now this1 d1
  = Some (this1, {| reads := S (reads d1); screen := screen d1 |}).
Proof.
  intros [Hb|Ht] Hk.
  { unfold begin, updateNow in Hb. cbn [_fmt] in Hb.
    destruct (formatDate (_fmt this) gConfig 40 (now (reads d))) as [dateStr|];
      [|discriminate Hb].
    injection Hb as <- <-. unfold tick. cbn [reads screen _lastMinute _lastYday].
    destruct (Hk (S (reads d)) ltac:(lia)) as [E1 E2].
    rewrite E1, E2, !Z.eqb_refl. reflexivity. }
  unfold tick in Ht.
  destruct (negb (tm_min (tm_fields (now (reads d))) =? _lastMinute this)
            || negb (tm_yday (now (reads d)) =? _lastYday this)) eqn:C.
  - unfold updateNow in Ht. cbn [reads screen] in Ht.
    destruct (formatDate (_fmt this) gConfig 40 (now (S (reads d)))) as [dateStr|];
      [|discriminate Ht].
    injection Ht as <- <-. unfold tick. cbn [reads screen _lastMinute _lastYday].
    destruct (Hk (S (reads d)) ltac:(lia)) as [E1 E2].
    destruct (Hk (S (S (reads d))) ltac:(lia)) as [E3 E4].
    rewrite E1, E2, E3, E4, !Z.eqb_refl. reflexivity.
  - injection Ht as <- <-. unfold tick. cbn [reads screen].
    apply orb_false_iff in C. destruct C as [C1 C2].
    apply negb_false_iff in C1, C2. apply Z.eqb_eq in C1, C2.
    destruct (Hk (S (reads d)) ltac:(lia)) as [E1 E2].
    rewrite E1, E2, C1, C2, !Z.eqb_refl. reflexivity.
Qed.

(** X25. With the formatter of the configuration and readings whose fields
    are in their ranges, [tick] never reads outside a table, keeps the
    position, the size and the formatter of the widget, and either leaves
    the display alone or adds one frame of exactly 10 calls: the three that
    prepare the image, the date, the five characters of the time in cells
    14 pixels apart, and the partial refresh of the rectangle of the
    widget. *)
Theorem tick_draws_whole_frames (this : EpdClockWidget) (d : Device) :
  _fmt this = makeFormatterStatic gConfig ->
  validTm (now (S (reads d))) ->
  exists this' d',
    tick Font16_Height gConfig now this d = Some (this', d')
    /\ (_x this', _y this', _w this', _h this', _fmt this')
       = (_x this, _y this, _w this, _h this, _fmt this)
    /\ (screen d' = screen d /\ reads d' = S (reads d) /\ this' = this
        \/ exists dateStr c1 c2 c3 c4 c5,
             [c1; c2; c3; c4; c5]
             = timeText gConfig (tm_hour (tm_fields (now (S (reads d)))))
                 (tm_min (tm_fields (now (S (reads d)))))
             /\ reads d' = S (S (reads d))
             /\ screen d'
                = screen d
                  ++ [Paint_SelectImage;
                      Paint_NewImage (_w this) (_h this) 0 WHITE;
                      Paint_Clear WHITE;
                      Paint_DrawString_EN 4 0 dateStr Font16 WHITE BLACK;
                      Paint_DrawString_EN 4 (Font16_Height + 2) [c1] Font20 WHITE BLACK;
                      Paint_DrawString_EN 18 (Font16_Height + 2) [c2] Font20 WHITE BLACK;
                      Paint_DrawString_EN 32 (Font16_Height + 2) [c3] Font20 WHITE BLACK;
                      Paint_DrawString_EN 46 (Font16_Height + 2) [c4] Font20 WHITE BLACK;
                      Paint_DrawString_EN 60 (Font16_Height + 2) [c5] Font20 WHITE BLACK;
                      EPD_7IN5_V2_Display_Part (_x this) (_y this)
                        (_x this + _w this) (_y this + _h this)]).
Proof.
  intros Hf Hv. unfold tick.
  destruct (negb (tm_min (tm_fields (now (reads d))) =? _lastMinute this)
            || negb (tm_yday (now (reads d)) =? _lastYday this)).
  - unfold updateNow. cbn [reads screen]. rewrite Hf.
    destruct (formatDate_fits gConfig (now (S (reads d))) 40 Hv ltac:(lia))
      as (dateStr & -> & _).
    destruct Hv as (_ & _ & _ & _ & Hh & Hm).
    rewrite (formatTime_text gConfig _ 16 Hh Hm ltac:(lia)).
    destruct (timeText_chars _ _ Hh Hm) as (c1 & c2 & c3 & c4 & c5 & Et & Hz).
    eexists _, _. split; [reflexivity|]. split; [reflexivity|]. right.
    exists dateStr, c1, c2, c3, c4, c5. split; [symmetry; exact Et|].
    split; [reflexivity|]. cbn [screen]. rewrite Et.
    unfold drawMonospaceString. rewrite (cstr_id _ Hz). reflexivity.
  - eexists _, _. split; [reflexivity|]. split; [reflexivity|]. left. auto.
Qed.

End ClockTicks.

Lemma formatDate_fits_witness :
  validTm sampleNoon
  /\ exists s,
       formatDate (makeFormatterStatic defaultAppConfig) defaultAppConfig 23 sampleNoon
       = Some s
       /\ formatDate (makeFormatterStatic defaultAppConfig) defaultAppConfig 40
            sampleNoon = Some s
       /\ (12 <= length s <= 22)%nat
       /\ (dateLocale defaultAppConfig = EN -> length s = 16%nat).
Proof.
  assert (Hv : validTm sampleNoon) by (unfold validTm; cbn; lia).
  split; [exact Hv|].
  exact (formatDate_fits defaultAppConfig sampleNoon 23 Hv ltac:(lia)).
Defined.

(** On the 12-hour dial half past noon and half past midnight read the
    same. *)
Lemma formatTime_dial_witness :
  formatTime (makeFormatterStatic (mkAppConfig EN false)) (mkAppConfig EN false)
    16 sampleMidnight
  = formatTime (makeFormatterStatic (mkAppConfig EN false)) (mkAppConfig EN false)
      16 sampleNoon
  /\ formatTime (makeFormatterStatic (mkAppConfig EN false)) (mkAppConfig EN false)
       16 sampleNoon
     = list_ascii_of_string "12:30".
Proof.
  pose proof (formatTime_dial (mkAppConfig EN false) sampleNoon sampleMidnight 16
                ltac:(cbn; lia) ltac:(cbn; lia) ltac:(lia)) as H.
  cbv zeta in H. destruct H as (_ & H2 & H3).
  split; [exact (H3 eq_refl eq_refl eq_refl)|].
  etransitivity; [exact H2|vm_compute; reflexivity].
Defined.

(** Two ticks in one minute, and a tick on a widget that has not drawn. *)
Lemma tick_once_per_minute_witness :
  ClockWidget.tick 16 defaultAppConfig (fun _ => sampleNoon)
    (ClockWidget.mkWidget 0 0 200 40 GermanDateTimeFormatter 30 161)
    (ClockWidget.mkDevice 1 [])
  = Some (ClockWidget.mkWidget 0 0 200 40 GermanDateTimeFormatter 30 161,
          ClockWidget.mkDevice 2 []).
Proof.
  exact (tick_once_per_minute 16 defaultAppConfig (fun _ => sampleNoon)
           (ClockWidget.mkWidget 0 0 200 40 GermanDateTimeFormatter 30 161)
           (ClockWidget.mkWidget 0 0 200 40 GermanDateTimeFormatter 30 161)
           (ClockWidget.mkDevice 0 []) (ClockWidget.mkDevice 1 [])
           (or_intror eq_refl) (fun k _ => conj eq_refl eq_refl)).
Defined.

Lemma tick_draws_whole_frames_witness :
  exists this' d',
    ClockWidget.tick 16 defaultAppConfig (fun _ => sampleNoon)
      (ClockWidget.mkWidget 0 0 200 40 GermanDateTimeFormatter (-1) (-1))
      (ClockWidget.mkDevice 0 [])
    = Some (this', d')
    /\ length (ClockWidget.screen d') = 10%nat.
Proof.
  destruct (tick_draws_whole_frames 16 defaultAppConfig (fun _ => sampleNoon)
              (ClockWidget.mkWidget 0 0 200 40 GermanDateTimeFormatter (-1) (-1))
              (ClockWidget.mkDevice 0 []) eq_refl
              ltac:(unfold validTm; cbn; lia))
    as (this' & d' & Ht & _ & _).
  exists this', d'. split; [exact Ht|].
  vm_compute in Ht. injection Ht as <- <-. reflexivity.
Defined.
